(** * The report package of chainsaw ([pkg/report/report.go])

    A shallow embedding of the report hierarchy (suite, test, step,
    operation), its timing and failure aggregation, the serializer
    selection and the persistence entry points, followed by the
    properties established about them.

    Go values that are reached through pointers ([*TestsReport],
    [*TestReport], ...) live in a typed store and are named by
    locations, so that sharing is visible; a nil pointer is [None].
    A run-time panic (nil dereference) is an explicit outcome. *)

From Stdlib Require Import ZArith QArith Qabs Qpower Lia Lqa String Ascii.
From Stdlib Require Import DecimalString DecimalPos DecimalN SpecFloat.
From stdpp Require Import gmap strings list fin_maps.

Local Open Scope Z_scope.

(** ** Machine integers *)

Module GoInt.

(** Go's [int] and [int64] on a 64-bit target: two's complement. *)
Definition minInt64 : Z := - 2 ^ 63.
Definition maxInt64 : Z := 2 ^ 63 - 1.

Definition wrap64 (z : Z) : Z := (z + 2 ^ 63) mod 2 ^ 64 - 2 ^ 63.

Definition sat64 (z : Z) : Z := Z.max minInt64 (Z.min maxInt64 z).

Definition in_int64 (z : Z) : Prop := minInt64 <= z <= maxInt64.

End GoInt.

(** ** IEEE 754 binary64 values, as far as [Duration.Seconds] and
    [fmt.Sprintf("%.3f", _)] use them *)

Module Float64.

(** A finite value is [(-1)^neg * m * 2^e] with [0 <= m]; a zero keeps
    its sign bit. *)
Inductive float64 :=
  | FFin (neg : bool) (m : Z) (e : Z)
  | FInf (neg : bool)
  | FNaN.

(** Nearest integer to [n / d], ties to even ([0 <= n], [0 < d]). *)
Definition rne_div (n d : Z) : Z :=
  let q := n / d in
  let r := n mod d in
  match 2 * r ?= d with
  | Lt => q
  | Gt => q + 1
  | Eq => if Z.even q then q else q + 1
  end.

(** [ilog2_ratio n d] is the [k] with [2^k <= n/d < 2^(k+1)]. *)
Definition ilog2_ratio (n d : Z) : Z :=
  let k := Z.log2 n - Z.log2 d in
  let below := if 0 <=? k then n <? d * 2 ^ k else n * 2 ^ (- k) <? d in
  if below then k - 1 else k.

(** Round the rational [n / d] to binary64: 53 significant bits, least
    exponent -1074, nearest with ties to even, overflow to infinity. *)
Definition round64 (neg : bool) (n d : Z) : float64 :=
  if n =? 0 then FFin neg 0 0
  else
    let e := Z.max (ilog2_ratio n d - 52) (-1074) in
    let m := if 0 <=? e then rne_div n (d * 2 ^ e)
             else rne_div (n * 2 ^ (- e)) d in
    if (0 <=? e) && (2 ^ 1024 <=? m * 2 ^ e) then FInf neg else FFin neg m e.

(** [float64(z)] for an integer [z]. *)
Definition of_int (z : Z) : float64 := round64 (z <? 0) (Z.abs z) 1.

Definition signed (neg : bool) (m : Z) : Z := if neg then - m else m.

Definition fadd (x y : float64) : float64 :=
  match x, y with
  | FNaN, _ | _, FNaN => FNaN
  | FInf sx, FInf sy => if Bool.eqb sx sy then x else FNaN
  | FInf _, _ => x
  | _, FInf _ => y
  | FFin sx mx ex, FFin sy my ey =>
      let e := Z.min ex ey in
      let s := signed sx (mx * 2 ^ (ex - e)) + signed sy (my * 2 ^ (ey - e)) in
      if s =? 0 then FFin ((mx =? 0) && (my =? 0) && sx && sy) 0 0
      else if 0 <=? e then round64 (s <? 0) (Z.abs s * 2 ^ e) 1
      else round64 (s <? 0) (Z.abs s) (2 ^ (- e))
  end.

Definition fdiv (x y : float64) : float64 :=
  match x, y with
  | FNaN, _ | _, FNaN => FNaN
  | FInf _, FInf _ => FNaN
  | FInf sx, FFin sy _ _ => FInf (xorb sx sy)
  | FFin sx _ _, FInf sy => FFin (xorb sx sy) 0 0
  | FFin sx mx ex, FFin sy my ey =>
      if my =? 0 then (if mx =? 0 then FNaN else FInf (xorb sx sy))
      else if mx =? 0 then FFin (xorb sx sy) 0 0
      else round64 (xorb sx sy) (mx * 2 ^ (ex - Z.min ex ey))
                                (my * 2 ^ (ey - Z.min ex ey))
  end.

(** The rational a finite value stands for. *)
Definition pow2 (e : Z) : Q := Qpower 2 e.

Definition value (neg : bool) (m e : Z) : Q :=
  (inject_Z (signed neg m) * pow2 e)%Q.

(** Conversion from the Standard Library's binary64 specification, used
    to cross-check the operations above on concrete inputs. *)
Definition of_spec (x : spec_float) : float64 :=
  match x with
  | S754_zero s => FFin s 0 0
  | S754_infinity s => FInf s
  | S754_nan => FNaN
  | S754_finite s m e => FFin s (Zpos m) e
  end.

(** *** [%.3f] *)

Definition digit (n : Z) : ascii := ascii_of_N (48 + Z.to_N n).

Definition decimal (n : Z) : string :=
  NilZero.string_of_uint (N.to_uint (Z.to_N n)).

(** [q] thousandths, printed with three digits after the point. *)
Definition fixed3 (neg : bool) (q : Z) : string :=
  ((if neg then "-" else "") ++ decimal (q / 1000) ++ "."
   ++ String (digit (q / 100 mod 10))
        (String (digit (q / 10 mod 10)) (String (digit (q mod 10)) "")))%string.

(** The number of thousandths nearest to [m * 2^e], ties to even. *)
Definition milli (m e : Z) : Z :=
  if 0 <=? e then m * 2 ^ e * 1000 else rne_div (m * 1000) (2 ^ (- e)).

Definition Sprintf_3f (x : float64) : string :=
  match x with
  | FNaN => "NaN"
  | FInf neg => if neg then "-Inf" else "+Inf"
  | FFin neg m e => fixed3 neg (milli m e)
  end.

(** *** The shape [-?\d+\.\d{3}] *)

Definition is_digit (c : ascii) : bool :=
  let n := N_of_ascii c in ((48 <=? n) && (n <=? 57))%N.

Fixpoint digits_then_frac (seen : bool) (s : string) : bool :=
  match s with
  | EmptyString => false
  | String c rest =>
      if is_digit c then digits_then_frac true rest
      else if Ascii.eqb c "." then
        seen && match rest with
                | String a (String b (String d EmptyString)) =>
                    is_digit a && is_digit b && is_digit d
                | _ => false
                end
      else false
  end.

Definition matches_fixed3 (s : string) : bool :=
  match s with
  | String "-" rest => digits_then_frac false rest
  | _ => digits_then_frac false s
  end.

(** Reading a string back as a signed number of thousandths. *)
Fixpoint read_digits (acc : Z) (s : string) : option Z :=
  match s with
  | EmptyString => Some acc
  | String c rest =>
      if is_digit c then
        read_digits (10 * acc + (Z.of_N (N_of_ascii c) - 48)) rest
      else if Ascii.eqb c "." then read_digits acc rest
      else None
  end.

Definition parse_milli (s : string) : option Z :=
  if matches_fixed3 s then
    match s with
    | String "-" rest => Z.opp <$> read_digits 0 rest
    | _ => read_digits 0 s
    end
  else None.

End Float64.

(** ** Package [time] *)

Module time.
Import GoInt Float64.

(** An instant: its position on the wall-clock time line in
    nanoseconds, and the monotonic clock reading when it carries one
    (instants obtained from [time.Now] do). *)
Record Time := { wall : Z; mono : option Z }.

Definition zero : Time := {| wall := 0; mono := None |}.

Definition Duration := Z.
Definition Second : Duration := 1000000000.

(** The exact distance from [u] to [t], on the clock [Sub] compares. *)
Definition elapsed (t u : Time) : Z :=
  match mono t, mono u with
  | Some a, Some b => a - b
  | _, _ => wall t - wall u
  end.

(** [t.Sub(u)]: the distance, held at the least or greatest [Duration]
    when it does not fit. *)
Definition Sub (t u : Time) : Duration := sat64 (elapsed t u).

(** [d.Seconds()]:
    [sec := d / Second; nsec := d % Second;
     return float64(sec) + float64(nsec)/1e9]. *)
Definition Seconds (d : Duration) : float64 :=
  let sec := Z.quot d Second in
  let nsec := Z.rem d Second in
  fadd (of_int sec) (fdiv (of_int nsec) (of_int 1000000000)).

(** The same computation on the Standard Library's specification. *)
Definition Seconds_spec (d : Duration) : spec_float :=
  SFadd 53 1024 (binary_normalize 53 1024 (Z.quot d Second) 0 false)
    (SFdiv 53 1024 (binary_normalize 53 1024 (Z.rem d Second) 0 false)
       (binary_normalize 53 1024 1000000000 0 false)).

End time.

(** [calculateDuration]: [fmt.Sprintf("%.3f", end.Sub(start).Seconds())]. *)
Definition calculateDuration (start end_ : time.Time) : string :=
  Float64.Sprintf_3f (time.Seconds (time.Sub end_ start)).

(** ** The data model *)

Definition loc := positive.

(** A Go pointer: [None] is nil. *)
Definition ptr := option loc.

(** A Go slice value: [None] is the nil slice, [Some []] an empty one.
    The package reaches a slice only through the field that holds it,
    so its backing array and capacity are left out. *)
Definition slice (A : Type) := option (list A).

Definition elems {A} (s : slice A) : list A := default [] s.

(** [append(s, x)] *)
Definition append {A} (s : slice A) (x : A) : slice A := Some (elems s ++ [x]).

Definition OperationType := string.
Definition OperationTypeCreate : OperationType := "create".
Definition OperationTypeDelete : OperationType := "delete".
Definition OperationTypeApply : OperationType := "apply".
Definition OperationTypeAssert : OperationType := "assert".
Definition OperationTypeError : OperationType := "error".
Definition OperationTypeScript : OperationType := "script".
Definition OperationTypeCommand : OperationType := "command".

Module Failure.
Record t := { Message : string; Type' : string }.
End Failure.

Module TestsReport.
Record t := {
  Name : string;
  StartTime : time.Time;
  EndTime : time.Time;
  Time : string;
  Reports : slice ptr;
  Failures : Z
}.

Definition set_EndTime (v : time.Time) (r : t) : t :=
  {| Name := Name r; StartTime := StartTime r; EndTime := v; Time := Time r;
     Reports := Reports r; Failures := Failures r |}.
Definition set_Time (v : string) (r : t) : t :=
  {| Name := Name r; StartTime := StartTime r; EndTime := EndTime r; Time := v;
     Reports := Reports r; Failures := Failures r |}.
Definition set_Reports (v : slice ptr) (r : t) : t :=
  {| Name := Name r; StartTime := StartTime r; EndTime := EndTime r; Time := Time r;
     Reports := v; Failures := Failures r |}.
Definition set_Failures (v : Z) (r : t) : t :=
  {| Name := Name r; StartTime := StartTime r; EndTime := EndTime r; Time := Time r;
     Reports := Reports r; Failures := v |}.
End TestsReport.

Module TestReport.
Record t := {
  Name : string;
  StartTime : time.Time;
  EndTime : time.Time;
  Time : string;
  Failure : ptr;
  Steps : slice ptr;
  Concurrent : bool;
  Namespace : string;
  Skip : bool;
  SkipDelete : bool
}.

Definition set_EndTime (v : time.Time) (r : t) : t :=
  {| Name := Name r; StartTime := StartTime r; EndTime := v; Time := Time r;
     Failure := Failure r; Steps := Steps r; Concurrent := Concurrent r;
     Namespace := Namespace r; Skip := Skip r; SkipDelete := SkipDelete r |}.
Definition set_Time (v : string) (r : t) : t :=
  {| Name := Name r; StartTime := StartTime r; EndTime := EndTime r; Time := v;
     Failure := Failure r; Steps := Steps r; Concurrent := Concurrent r;
     Namespace := Namespace r; Skip := Skip r; SkipDelete := SkipDelete r |}.
Definition set_Failure (v : ptr) (r : t) : t :=
  {| Name := Name r; StartTime := StartTime r; EndTime := EndTime r; Time := Time r;
     Failure := v; Steps := Steps r; Concurrent := Concurrent r;
     Namespace := Namespace r; Skip := Skip r; SkipDelete := SkipDelete r |}.
Definition set_Steps (v : slice ptr) (r : t) : t :=
  {| Name := Name r; StartTime := StartTime r; EndTime := EndTime r; Time := Time r;
     Failure := Failure r; Steps := v; Concurrent := Concurrent r;
     Namespace := Namespace r; Skip := Skip r; SkipDelete := SkipDelete r |}.
End TestReport.

Module TestSpecStepReport.
Record t := { Name : string; Results : slice ptr }.

Definition set_Results (v : slice ptr) (r : t) : t :=
  {| Name := Name r; Results := v |}.
End TestSpecStepReport.

Module OperationReport.
Record t := {
  Name : string;
  StartTime : time.Time;
  EndTime : time.Time;
  Time : string;
  Result : string;
  Message : string;
  OperationType : OperationType
}.

Definition set_EndTime (v : time.Time) (r : t) : t :=
  {| Name := Name r; StartTime := StartTime r; EndTime := v; Time := Time r;
     Result := Result r; Message := Message r; OperationType := OperationType r |}.
Definition set_Time (v : string) (r : t) : t :=
  {| Name := Name r; StartTime := StartTime r; EndTime := EndTime r; Time := v;
     Result := Result r; Message := Message r; OperationType := OperationType r |}.
End OperationReport.

(** ** The store *)

Record Heap := {
  suites : gmap loc TestsReport.t;
  tests : gmap loc TestReport.t;
  steps : gmap loc TestSpecStepReport.t;
  ops : gmap loc OperationReport.t;
  failures : gmap loc Failure.t
}.

Definition empty_heap : Heap :=
  {| suites := ∅; tests := ∅; steps := ∅; ops := ∅; failures := ∅ |}.

Definition with_suites (f : gmap loc TestsReport.t → gmap loc TestsReport.t) (h : Heap) : Heap :=
  {| suites := f (suites h); tests := tests h; steps := steps h; ops := ops h;
     failures := failures h |}.
Definition with_tests (f : gmap loc TestReport.t → gmap loc TestReport.t) (h : Heap) : Heap :=
  {| suites := suites h; tests := f (tests h); steps := steps h; ops := ops h;
     failures := failures h |}.
Definition with_steps
    (f : gmap loc TestSpecStepReport.t → gmap loc TestSpecStepReport.t) (h : Heap) : Heap :=
  {| suites := suites h; tests := tests h; steps := f (steps h); ops := ops h;
     failures := failures h |}.
Definition with_ops (f : gmap loc OperationReport.t → gmap loc OperationReport.t) (h : Heap) : Heap :=
  {| suites := suites h; tests := tests h; steps := steps h; ops := f (ops h);
     failures := failures h |}.
Definition with_failures (f : gmap loc Failure.t → gmap loc Failure.t) (h : Heap) : Heap :=
  {| suites := suites h; tests := tests h; steps := steps h; ops := ops h;
     failures := f (failures h) |}.

(** [deref m p]: the object [p] points to; nothing at nil. *)
Definition deref {A} (m : gmap loc A) (p : ptr) : option A := p ≫= (m !!.).

(** ** Computations on the store

    A computation either returns with a value and a store, or panics,
    leaving the store as it was at that point. *)

Inductive outcome (A : Type) :=
  | Ok (a : A) (h : Heap)
  | Panic (h : Heap).
Arguments Ok {A} a h.
Arguments Panic {A} h.

Definition M (A : Type) := Heap → outcome A.

Definition ret {A} (a : A) : M A := fun h => Ok a h.

Definition bind {A B} (m : M A) (k : A → M B) : M B :=
  fun h => match m h with
           | Ok a h' => k a h'
           | Panic h' => Panic h'
           end.

Notation "'let*' x ':=' m 'in' k" := (bind m (fun x => k))
  (at level 10, x name, m at level 100, k at level 200, only parsing).
Notation "m ';;' k" := (bind m (fun _ => k))
  (at level 100, k at level 200, right associativity, only parsing).

(** The store a computation ends with, whether it returned or not. *)
Definition final {A} (o : outcome A) : Heap :=
  match o with Ok _ h => h | Panic h => h end.

Definition returned {A} (o : outcome A) : Prop :=
  match o with Ok _ _ => True | Panic _ => False end.

(** Reading through a pointer panics at nil. *)
Definition load {A} (sel : Heap → gmap loc A) (p : ptr) : M A :=
  fun h => match deref (sel h) p with
           | Some v => Ok v h
           | None => Panic h
           end.

(** Assigning to a field through a pointer: [p.f = ...] *)
Definition modify {A} (sel : Heap → gmap loc A)
    (upd : (gmap loc A → gmap loc A) → Heap → Heap) (p : ptr) (f : A → A) : M unit :=
  fun h => match p with
           | Some l =>
               match sel h !! l with
               | Some v => Ok tt (upd (insert l (f v)) h)
               | None => Panic h
               end
           | None => Panic h
           end.

(** [&T{...}]: a new object at a location not in use. *)
Definition alloc {A} (sel : Heap → gmap loc A)
    (upd : (gmap loc A → gmap loc A) → Heap → Heap) (v : A) : M ptr :=
  fun h => let l := fresh (dom (sel h)) in Ok (Some l) (upd (insert l v) h).

Definition load_suite := load suites.
Definition load_test := load tests.
Definition modify_suite := modify suites with_suites.
Definition modify_test := modify tests with_tests.
Definition modify_step := modify steps with_steps.
Definition modify_op := modify ops with_ops.

(** ** The operations of the package

    [time.Now()] is the argument [now] of the operations that read the
    clock. *)

(** [NewTests] *)
Definition NewTests (now : time.Time) (name : string) : M ptr :=
  alloc suites with_suites
    {| TestsReport.Name := name;
       TestsReport.StartTime := now;
       TestsReport.EndTime := time.zero;
       TestsReport.Time := "";
       TestsReport.Reports := Some [];
       TestsReport.Failures := 0 |}.

(** [NewTest] *)
Definition NewTest (now : time.Time) (name : string) (concurrent : bool)
    (namespace : string) (skip skipDelete : bool) : M ptr :=
  alloc tests with_tests
    {| TestReport.Name := name;
       TestReport.StartTime := now;
       TestReport.EndTime := time.zero;
       TestReport.Time := "";
       TestReport.Failure := None;
       TestReport.Steps := Some [];
       TestReport.Concurrent := concurrent;
       TestReport.Namespace := namespace;
       TestReport.Skip := skip;
       TestReport.SkipDelete := skipDelete |}.

(** [NewTestSpecStep] *)
Definition NewTestSpecStep (name : string) : M ptr :=
  alloc steps with_steps
    {| TestSpecStepReport.Name := name; TestSpecStepReport.Results := Some [] |}.

(** [NewOperation] *)
Definition NewOperation (now : time.Time) (name : string)
    (operationType : OperationType) : M ptr :=
  alloc ops with_ops
    {| OperationReport.Name := name;
       OperationReport.StartTime := now;
       OperationReport.EndTime := time.zero;
       OperationReport.Time := "";
       OperationReport.Result := "";
       OperationReport.Message := "";
       OperationReport.OperationType := operationType |}.

(** [AddTest]: [tr.Reports = append(tr.Reports, test)] *)
Definition AddTest (tr test : ptr) : M unit :=
  modify_suite tr (fun r => TestsReport.set_Reports (append (TestsReport.Reports r) test) r).

(** [AddTestStep]: [t.Steps = append(t.Steps, step)] *)
Definition AddTestStep (t step : ptr) : M unit :=
  modify_test t (fun r => TestReport.set_Steps (append (TestReport.Steps r) step) r).

(** [AddOperation]: [ts.Results = append(ts.Results, op)] *)
Definition AddOperation (ts op : ptr) : M unit :=
  modify_step ts
    (fun r => TestSpecStepReport.set_Results (append (TestSpecStepReport.Results r) op) r).

(** [MarkTestEnd]:
    [t.EndTime = time.Now();
     t.Time = calculateDuration(t.StartTime, t.EndTime)] *)
Definition MarkTestEnd (now : time.Time) (t : ptr) : M unit :=
  modify_test t (TestReport.set_EndTime now) ;;
  modify_test t (fun r =>
    TestReport.set_Time (calculateDuration (TestReport.StartTime r) (TestReport.EndTime r)) r).

(** [MarkOperationEnd] *)
Definition MarkOperationEnd (now : time.Time) (op : ptr) : M unit :=
  modify_op op (OperationReport.set_EndTime now) ;;
  modify_op op (fun r =>
    OperationReport.set_Time
      (calculateDuration (OperationReport.StartTime r) (OperationReport.EndTime r)) r).

(** The writer's [t.Failure = &Failure{Message: ..., Type: ...}]. *)
Definition AttachFailure (t : ptr) (f : Failure.t) : M unit :=
  let* p := alloc failures with_failures f in
  modify_test t (TestReport.set_Failure p).

(** The loop of [Close]:
    [for _, test := range tr.Reports { if test.Failure != nil { tr.Failures++ } }]
    over the elements the slice had when the loop was entered. *)
Fixpoint Close_range (tr : ptr) (reports : list ptr) : M unit :=
  match reports with
  | [] => ret tt
  | test :: rest =>
      let* t := load_test test in
      (if TestReport.Failure t is Some _ then
         modify_suite tr (fun r =>
           TestsReport.set_Failures (GoInt.wrap64 (TestsReport.Failures r + 1)) r)
       else ret tt) ;;
      Close_range tr rest
  end.

(** [Close] *)
Definition Close (now : time.Time) (tr : ptr) : M unit :=
  modify_suite tr (TestsReport.set_EndTime now) ;;
  modify_suite tr (fun r =>
    TestsReport.set_Time
      (calculateDuration (TestsReport.StartTime r) (TestsReport.EndTime r)) r) ;;
  let* r := load_suite tr in
  Close_range tr (elems (TestsReport.Reports r)).

(** ** Errors *)

(** Go's [error] values: those made by [errors.New], and those the
    encoding and file-system libraries hand back. *)
Inductive error :=
  | errors_New (text : string)
  | marshal_error (text : string)
  | os_error (text : string).

(** The permission bits [0o600]. *)
Definition mode_0o600 : Z := 6 * 8 ^ 2 + 0 * 8 + 0.

(** A value, or the error that replaced it. *)
Inductive res (A : Type) :=
  | Val (a : A)
  | Err (e : error).
Arguments Val {A} a.
Arguments Err {A} e.

(** ** The documents the structured encoder produces *)

#[local] Set Warnings "-register-all".

Inductive json :=
  | JNull
  | JBool (b : bool)
  | JNumber (z : Z)
  | JString (s : string)
  | JArray (items : list json)
  | JObject (members : list (string * json)).

(** The value of a key of an object. *)
Fixpoint member (key : string) (members : list (string * json)) : option json :=
  match members with
  | [] => None
  | (k, v) :: rest => if String.eqb k key then Some v else member key rest
  end.

Definition get (key : string) (j : json) : option json :=
  match j with JObject ms => member key ms | _ => None end.

(** The members of a struct are encoded in declaration order; the first
    failing one aborts the encoding. *)
Fixpoint collect {A} (l : list (res A)) : res (list A) :=
  match l with
  | [] => Val []
  | Err e :: _ => Err e
  | Val a :: rest =>
      match collect rest with
      | Val r => Val (a :: r)
      | Err e => Err e
      end
  end.

Definition field (key : string) (v : res json) : list (res (string * json)) :=
  [match v with Val j => Val (key, j) | Err e => Err e end].

(** A field tagged [omitempty] is left out when its value is empty:
    false, a nil pointer, an empty slice or string. *)
Definition omitempty (empty : bool) (f : list (res (string * json)))
    : list (res (string * json)) :=
  if empty then [] else f.

Definition object (fields : list (res (string * json))) : res json :=
  match collect fields with
  | Val ms => Val (JObject ms)
  | Err e => Err e
  end.

Definition array (items : list (res json)) : res json :=
  match collect items with
  | Val l => Val (JArray l)
  | Err e => Err e
  end.

Definition is_empty_string (s : string) : bool :=
  match s with EmptyString => true | _ => false end.

Definition is_nil (p : ptr) : bool :=
  match p with None => true | Some _ => false end.

Definition is_empty_slice {A} (s : slice A) : bool :=
  match elems s with [] => true | _ => false end.

Section Serialization.

(** [Time.MarshalJSON]: the RFC 3339 text of an instant (before it is
    quoted), or the error for an instant that text cannot represent. *)
Variable time_MarshalJSON : time.Time → res string.

(** [xml.MarshalIndent(report, "", "  ")] *)
Variable xml_MarshalIndent : Heap → ptr → string * option error.

(** The text of a string literal in a JSON document. *)
Variable json_quote : string → string.

(** The two format identifiers of package [v1alpha1]. *)
Variables JSONFormat XMLFormat : string.

(** Lower-casing by [unicode.ToLower] of a string that is not all
    ASCII. *)
Variable unicode_ToLower : string → string.

(** The file system, and [os.WriteFile(name, data, perm)] on it. *)
Variable FS : Type.
Variable os_WriteFile : string → string → Z → FS → FS * option error.

Definition enc_time (t : time.Time) : res json :=
  match time_MarshalJSON t with
  | Val s => Val (JString s)
  | Err e => Err e
  end.

(** A pointer is encoded as null when nil, as its target otherwise. *)
Definition enc_ptr {A} (m : gmap loc A) (enc : A → res json) (p : ptr) : res json :=
  match p with
  | None => Val JNull
  | Some l =>
      match m !! l with
      | Some v => enc v
      | None => Err (marshal_error "invalid pointer")
      end
  end.

(** A nil slice is encoded as null, any other as an array. *)
Definition enc_slice {A} (enc : A → res json) (s : slice A) : res json :=
  match s with
  | None => Val JNull
  | Some l => array (enc <$> l)
  end.

Definition enc_Failure (f : Failure.t) : res json :=
  object (field "message" (Val (JString (Failure.Message f)))
       ++ field "type" (Val (JString (Failure.Type' f)))).

Definition enc_Operation (o : OperationReport.t) : res json :=
  object (field "name" (Val (JString (OperationReport.Name o)))
       ++ field "startTime" (enc_time (OperationReport.StartTime o))
       ++ field "endTime" (enc_time (OperationReport.EndTime o))
       ++ field "time" (Val (JString (OperationReport.Time o)))
       ++ field "result" (Val (JString (OperationReport.Result o)))
       ++ omitempty (is_empty_string (OperationReport.Message o))
            (field "message" (Val (JString (OperationReport.Message o))))
       ++ omitempty (is_empty_string (OperationReport.OperationType o))
            (field "operationType" (Val (JString (OperationReport.OperationType o))))).

Definition enc_Step (h : Heap) (s : TestSpecStepReport.t) : res json :=
  object (omitempty (is_empty_string (TestSpecStepReport.Name s))
            (field "name" (Val (JString (TestSpecStepReport.Name s))))
       ++ omitempty (is_empty_slice (TestSpecStepReport.Results s))
            (field "results"
               (enc_slice (enc_ptr (ops h) enc_Operation) (TestSpecStepReport.Results s)))).

Definition enc_Test (h : Heap) (t : TestReport.t) : res json :=
  object (field "name" (Val (JString (TestReport.Name t)))
       ++ field "startTime" (enc_time (TestReport.StartTime t))
       ++ field "endTime" (enc_time (TestReport.EndTime t))
       ++ field "time" (Val (JString (TestReport.Time t)))
       ++ omitempty (is_nil (TestReport.Failure t))
            (field "failure" (enc_ptr (failures h) enc_Failure (TestReport.Failure t)))
       ++ omitempty (is_empty_slice (TestReport.Steps t))
            (field "steps" (enc_slice (enc_ptr (steps h) (enc_Step h)) (TestReport.Steps t)))
       ++ omitempty (negb (TestReport.Concurrent t))
            (field "concurrent" (Val (JBool (TestReport.Concurrent t))))
       ++ omitempty (is_empty_string (TestReport.Namespace t))
            (field "namespace" (Val (JString (TestReport.Namespace t))))
       ++ omitempty (negb (TestReport.Skip t))
            (field "skip" (Val (JBool (TestReport.Skip t))))
       ++ omitempty (negb (TestReport.SkipDelete t))
            (field "skipDelete" (Val (JBool (TestReport.SkipDelete t))))).

Definition enc_Tests (h : Heap) (r : TestsReport.t) : res json :=
  object (field "name" (Val (JString (TestsReport.Name r)))
       ++ field "startTime" (enc_time (TestsReport.StartTime r))
       ++ field "endTime" (enc_time (TestsReport.EndTime r))
       ++ field "time" (Val (JString (TestsReport.Time r)))
       ++ field "reports"
            (enc_slice (enc_ptr (tests h) (enc_Test h)) (TestsReport.Reports r))
       ++ field "failures" (Val (JNumber (TestsReport.Failures r)))).

(** The document for [json.MarshalIndent(report, "", "  ")]. *)
Definition json_Marshal (h : Heap) (report : ptr) : res json :=
  enc_ptr (suites h) (enc_Tests h) report.

(** Its text: members and items one per line, two spaces per level. *)
Fixpoint spaces (n : nat) : string :=
  match n with O => "" | S k => ("  " ++ spaces k)%string end.

Definition newline : string := String (ascii_of_N 10) "".

Definition number_text (z : Z) : string :=
  let sign := if z <? 0 then "-"%string else ""%string in
  (sign ++ Float64.decimal (Z.abs z))%string.

Fixpoint lines (sep : string) (l : list string) : string :=
  match l with
  | [] => ""
  | [x] => x
  | x :: rest => (x ++ "," ++ sep ++ lines sep rest)%string
  end.

Fixpoint json_text (depth : nat) (j : json) : string :=
  let inner := (newline ++ spaces (S depth))%string in
  let close := (newline ++ spaces depth)%string in
  match j with
  | JNull => "null"
  | JBool b => if b then "true" else "false"
  | JNumber z => number_text z
  | JString s => json_quote s
  | JArray [] => "[]"
  | JArray l =>
      ("[" ++ inner ++ lines inner (map (json_text (S depth)) l) ++ close ++ "]")%string
  | JObject [] => "{}"
  | JObject ms =>
      ("{" ++ inner
       ++ lines inner
            (map (fun kv => (json_quote (fst kv) ++ ": " ++ json_text (S depth) (snd kv))%string)
               ms)
       ++ close ++ "}")%string
  end.

(** *** The serializer interface and its two implementations

    An implementation reads the report through the store and hands
    back bytes and an error; it leaves the store as it is. *)

Record ReportSerializer := {
  Serialize : Heap → ptr → string * option error
}.

Definition JSONSerializer : ReportSerializer :=
  {| Serialize h report :=
       match json_Marshal h report with
       | Val j => (json_text 0 j, None)
       | Err e => ("", Some e)
       end |}.

Definition XMLSerializer : ReportSerializer :=
  {| Serialize h report := xml_MarshalIndent h report |}.

(** [GetSerializer] *)
Definition GetSerializer (format : string) : option ReportSerializer * option error :=
  if String.eqb format JSONFormat then (Some JSONSerializer, None)
  else if String.eqb format XMLFormat then (Some XMLSerializer, None)
  else (None, Some (errors_New "unsupported report format")).

(** [SaveReport]; calling a method of a nil interface value panics,
    which is [None] here. *)
Definition SaveReport (h : Heap) (report : ptr) (serializer : option ReportSerializer)
    (filePath : string) (fs : FS) : option (FS * option error) :=
  match serializer with
  | None => None
  | Some s =>
      let (data, err) := Serialize s h report in
      match err with
      | Some e => Some (fs, Some e)
      | None => Some (os_WriteFile filePath data mode_0o600 fs)
      end
  end.

(** [strings.ToLower] *)
Definition is_ascii (c : ascii) : bool := (N_of_ascii c <? 128)%N.

Definition lower_ascii (c : ascii) : ascii :=
  let n := N_of_ascii c in
  if ((65 <=? n) && (n <=? 90))%N then ascii_of_N (n + 32) else c.

Fixpoint all_ascii (s : string) : bool :=
  match s with
  | EmptyString => true
  | String c rest => is_ascii c && all_ascii rest
  end.

Fixpoint map_string (f : ascii → ascii) (s : string) : string :=
  match s with
  | EmptyString => EmptyString
  | String c rest => String (f c) (map_string f rest)
  end.

Definition ToLower (s : string) : string :=
  if all_ascii s then map_string lower_ascii s else unicode_ToLower s.

(** [SaveReportBasedOnType] *)
Definition SaveReportBasedOnType (h : Heap) (report : ptr) (reportFormat reportName : string)
    (fs : FS) : option (FS * option error) :=
  let (serializer, err) := GetSerializer reportFormat in
  match err with
  | Some e => Some (fs, Some e)
  | None =>
      let filePath := (reportName ++ "." ++ ToLower reportFormat)%string in
      SaveReport h report serializer filePath fs
  end.

End Serialization.

(** ** Vocabulary of the statements *)

(** [tr.Failures++] on a 64-bit [int]. *)
Definition bump (x : Z) : Z := GoInt.wrap64 (x + 1).

(** Does [p] point to a test report that carries a failure? *)
Definition has_failure (h : Heap) (p : ptr) : bool :=
  match deref (tests h) p with
  | Some t => negb (is_nil (TestReport.Failure t))
  | None => false
  end.

(** K: how many of the listed test reports carry a failure. *)
Definition failed_count (h : Heap) (reports : list ptr) : nat :=
  length (filter (fun p => has_failure h p = true) reports).

(** Every element points to a test report (none is nil). *)
Definition all_tests (h : Heap) (reports : list ptr) : Prop :=
  Forall (fun p => is_Some (deref (tests h) p)) reports.

(** The suite record [Close] leaves behind when it returns. *)
Definition closed (now : time.Time) (k : nat) (r : TestsReport.t) : TestsReport.t :=
  {| TestsReport.Name := TestsReport.Name r;
     TestsReport.StartTime := TestsReport.StartTime r;
     TestsReport.EndTime := now;
     TestsReport.Time := calculateDuration (TestsReport.StartTime r) now;
     TestsReport.Reports := TestsReport.Reports r;
     TestsReport.Failures := Nat.iter k bump (TestsReport.Failures r) |}.

(** The [Failures] field of the suite at [tr], if there is one. *)
Definition Failures_at (h : Heap) (tr : ptr) : option Z :=
  TestsReport.Failures <$> deref (suites h) tr.


(** ** A scenario

    One suite holding one failed test, built with the operations of the
    package; the instants carry monotonic readings, as those of
    [time.Now] do. *)

Definition at_ns (n : Z) : time.Time := {| time.wall := n; time.mono := Some n |}.

Definition boom : Failure.t :=
  {| Failure.Message := "boom"; Failure.Type' := "AssertionError" |}.

Definition failing_suite : M ptr :=
  let* tr := NewTests (at_ns 0) "smoke" in
  let* t := NewTest (at_ns 1000) "t1" false "ns1" false false in
  AttachFailure t boom ;;
  MarkTestEnd (at_ns 2500000) t ;;
  AddTest tr t ;;
  ret tr.

(** The store and the suite pointer after the scenario. *)
Definition failing_heap : Heap := final (failing_suite empty_heap).
Definition failing_tr : ptr :=
  match failing_suite empty_heap with Ok tr _ => tr | Panic _ => None end.

(** [h'] is [h] except that the suite at [l], which held [r], holds [r]
    with some value in its [Failures] field. *)
Definition only_Failures_changed (l : loc) (r : TestsReport.t) (h h' : Heap) : Prop :=
  (∃ F, suites h' = <[l := TestsReport.set_Failures F r]> (suites h))
  ∧ tests h' = tests h ∧ steps h' = steps h ∧ ops h' = ops h
  ∧ failures h' = failures h.

(** The scenario's store after the suite has been closed once. *)
Definition closed_heap : Heap := final (Close (at_ns 3000000) failing_tr failing_heap).

(** The elements of the [Reports] slice of the suite at [tr]. *)
Definition Reports_at (h : Heap) (tr : ptr) : list ptr :=
  default [] (elems ∘ TestsReport.Reports <$> deref (suites h) tr).

(** The test record [MarkTestEnd] leaves behind, and the operation
    record [MarkOperationEnd] leaves behind. *)
Definition ended_test (now : time.Time) (r : TestReport.t) : TestReport.t :=
  {| TestReport.Name := TestReport.Name r;
     TestReport.StartTime := TestReport.StartTime r;
     TestReport.EndTime := now;
     TestReport.Time := calculateDuration (TestReport.StartTime r) now;
     TestReport.Failure := TestReport.Failure r;
     TestReport.Steps := TestReport.Steps r;
     TestReport.Concurrent := TestReport.Concurrent r;
     TestReport.Namespace := TestReport.Namespace r;
     TestReport.Skip := TestReport.Skip r;
     TestReport.SkipDelete := TestReport.SkipDelete r |}.

Definition ended_op (now : time.Time) (r : OperationReport.t) : OperationReport.t :=
  {| OperationReport.Name := OperationReport.Name r;
     OperationReport.StartTime := OperationReport.StartTime r;
     OperationReport.EndTime := now;
     OperationReport.Time := calculateDuration (OperationReport.StartTime r) now;
     OperationReport.Result := OperationReport.Result r;
     OperationReport.Message := OperationReport.Message r;
     OperationReport.OperationType := OperationReport.OperationType r |}.

(** *** Calls into the package

    The operations that act on the store, as the runner may issue them
    in any order and with any arguments. *)
Inductive call :=
  | CallNewTests (now : time.Time) (name : string)
  | CallNewTest (now : time.Time) (name : string) (concurrent : bool)
      (namespace : string) (skip skipDelete : bool)
  | CallNewTestSpecStep (name : string)
  | CallNewOperation (now : time.Time) (name : string) (operationType : OperationType)
  | CallAddTest (tr test : ptr)
  | CallAddTestStep (t step : ptr)
  | CallAddOperation (ts op : ptr)
  | CallMarkTestEnd (now : time.Time) (t : ptr)
  | CallMarkOperationEnd (now : time.Time) (op : ptr)
  | CallAttachFailure (t : ptr) (f : Failure.t)
  | CallClose (now : time.Time) (tr : ptr).

Definition exec (c : call) : M unit :=
  match c with
  | CallNewTests now name => NewTests now name ;; ret tt
  | CallNewTest now name concurrent namespace skip skipDelete =>
      NewTest now name concurrent namespace skip skipDelete ;; ret tt
  | CallNewTestSpecStep name => NewTestSpecStep name ;; ret tt
  | CallNewOperation now name operationType => NewOperation now name operationType ;; ret tt
  | CallAddTest tr test => AddTest tr test
  | CallAddTestStep t step => AddTestStep t step
  | CallAddOperation ts op => AddOperation ts op
  | CallMarkTestEnd now t => MarkTestEnd now t
  | CallMarkOperationEnd now op => MarkOperationEnd now op
  | CallAttachFailure t f => AttachFailure t f
  | CallClose now tr => Close now tr
  end.

(** The store after a sequence of calls; a call that panics leaves the
    store it had reached, and the next call goes on from there. *)
Fixpoint run (cs : list call) (h : Heap) : Heap :=
  match cs with
  | [] => h
  | c :: rest => run rest (final (exec c h))
  end.

(** Every sequence held in [h] is an initial segment of the sequence
    the same object holds in [h']. *)
Definition sequences_extended (h h' : Heap) : Prop :=
  (∀ l r, suites h !! l = Some r →
     ∃ r', suites h' !! l = Some r'
           ∧ elems (TestsReport.Reports r) `prefix_of` elems (TestsReport.Reports r'))
  ∧ (∀ l r, tests h !! l = Some r →
       ∃ r', tests h' !! l = Some r'
             ∧ elems (TestReport.Steps r) `prefix_of` elems (TestReport.Steps r'))
  ∧ (∀ l r, steps h !! l = Some r →
       ∃ r', steps h' !! l = Some r'
             ∧ elems (TestSpecStepReport.Results r)
                 `prefix_of` elems (TestSpecStepReport.Results r')).

(** The names of the test reports a list of pointers leads to. *)
Definition names (h : Heap) (ps : list ptr) : list (option string) :=
  (fun p => TestReport.Name <$> deref (tests h) p) <$> ps.

(** Three tests named a, b and c appended to a new suite, in that order. *)
Definition abc_suite : M ptr :=
  let* tr := NewTests (at_ns 0) "suite" in
  let* a := NewTest (at_ns 1) "a" false "" false false in
  let* b := NewTest (at_ns 2) "b" false "" false false in
  let* c := NewTest (at_ns 3) "c" false "" false false in
  AddTest tr a ;; AddTest tr b ;; AddTest tr c ;; ret tr.

Definition abc_heap : Heap := final (abc_suite empty_heap).
Definition abc_tr : ptr :=
  match abc_suite empty_heap with Ok tr _ => tr | Panic _ => None end.

(** The elements of the [Steps] slice of the test at [t], and of the
    [Results] slice of the step at [ts]. *)
Definition Steps_at (h : Heap) (t : ptr) : list ptr :=
  default [] (elems ∘ TestReport.Steps <$> deref (tests h) t).

Definition Results_at (h : Heap) (ts : ptr) : list ptr :=
  default [] (elems ∘ TestSpecStepReport.Results <$> deref (steps h) ts).

(** The end-to-end scenario: suite "smoke", test "t1" in namespace
    "ns1", step "step1", operation "op1" of kind apply. *)
Definition smoke_suite : M ptr :=
  let* tr := NewTests (at_ns 0) "smoke" in
  let* t := NewTest (at_ns 10) "t1" false "ns1" false false in
  let* s := NewTestSpecStep "step1" in
  let* o := NewOperation (at_ns 20) "op1" OperationTypeApply in
  MarkOperationEnd (at_ns 1500000020) o ;;
  AddOperation s o ;;
  AddTestStep t s ;;
  MarkTestEnd (at_ns 1600000010) t ;;
  AddTest tr t ;;
  ret tr.

Definition smoke_heap : Heap := final (smoke_suite empty_heap).

(** The objects the end-to-end scenario leaves in the store. *)
Definition smoke_record : TestsReport.t :=
  {| TestsReport.Name := "smoke";
     TestsReport.StartTime := at_ns 0;
     TestsReport.EndTime := time.zero;
     TestsReport.Time := "";
     TestsReport.Reports := Some [Some 1%positive];
     TestsReport.Failures := 0 |}.

Definition smoke_test : TestReport.t :=
  {| TestReport.Name := "t1";
     TestReport.StartTime := at_ns 10;
     TestReport.EndTime := at_ns 1600000010;
     TestReport.Time := "1.600";
     TestReport.Failure := None;
     TestReport.Steps := Some [Some 1%positive];
     TestReport.Concurrent := false;
     TestReport.Namespace := "ns1";
     TestReport.Skip := false;
     TestReport.SkipDelete := false |}.

Definition smoke_step : TestSpecStepReport.t :=
  {| TestSpecStepReport.Name := "step1";
     TestSpecStepReport.Results := Some [Some 1%positive] |}.

Definition smoke_op : OperationReport.t :=
  {| OperationReport.Name := "op1";
     OperationReport.StartTime := at_ns 20;
     OperationReport.EndTime := at_ns 1500000020;
     OperationReport.Time := "1.500";
     OperationReport.Result := "";
     OperationReport.Message := "";
     OperationReport.OperationType := OperationTypeApply |}.

(** The value the first field with the given key contributes. *)
Fixpoint lookup_field (key : string) (fields : list (res (string * json))) : option json :=
  match fields with
  | [] => None
  | Val (k, v) :: rest => if String.eqb k key then Some v else lookup_field key rest
  | Err _ :: rest => lookup_field key rest
  end.

(** Stand-ins for the library functions, for concrete runs: every
    instant is written as its nanosecond count, string literals are
    wrapped in quotes, and the markup encoder and the file system do
    nothing. *)
Definition demo_time (t : time.Time) : res string := Val (Float64.decimal (time.wall t)).
Definition demo_xml (h : Heap) (p : ptr) : string * option error := (""%string, None).
Definition demo_quote (s : string) : string :=
  (String (ascii_of_N 34) s ++ String (ascii_of_N 34) "")%string.
Definition demo_lower (s : string) : string := s.

(** A file system that records the last write. *)
Definition demo_fs : Type := option (string * string * Z).
Definition demo_write (name data : string) (perm : Z) (fs : demo_fs)
    : demo_fs * option error :=
  (Some (name, data, perm), None).

(** ** Vocabulary of the duration statements *)

(** Half a unit in the last place of a significand of 53 bits, relative
    to the value: 2^-53. *)
Definition ulp53 : Q := 1 # 9007199254740992.

(** The distance allowed between [d.Seconds()] and [d / 10^9]. *)
Definition seconds_error : Q := 1025 # 1000000000.

(** The number a digit sequence stands for, read from the left. *)
Fixpoint uint_val (acc : Z) (u : Decimal.uint) : Z :=
  match u with
  | Decimal.Nil => acc
  | Decimal.D0 l => uint_val (10 * acc + 0) l
  | Decimal.D1 l => uint_val (10 * acc + 1) l
  | Decimal.D2 l => uint_val (10 * acc + 2) l
  | Decimal.D3 l => uint_val (10 * acc + 3) l
  | Decimal.D4 l => uint_val (10 * acc + 4) l
  | Decimal.D5 l => uint_val (10 * acc + 5) l
  | Decimal.D6 l => uint_val (10 * acc + 6) l
  | Decimal.D7 l => uint_val (10 * acc + 7) l
  | Decimal.D8 l => uint_val (10 * acc + 8) l
  | Decimal.D9 l => uint_val (10 * acc + 9) l
  end.

(** The claim that the text is the elapsed time in seconds to three
    decimals: it reads back as a number of thousandths within one
    thousandth of a second of the exact distance between the instants. *)
Definition renders_elapsed_seconds (start end_ : time.Time) : Prop :=
  ∃ v, Float64.parse_milli (calculateDuration start end_) = Some v
       ∧ Z.abs (1000000 * v - time.elapsed end_ start) <= 1000000.

(** An instant of the year 2026, counted from the zero instant of
    January 1 of year 1, with a monotonic reading. *)
Definition in_2026 : time.Time :=
  {| time.wall := 63900000000 * 1000000000; time.mono := Some 12345 |}.

(** Durations on which the two models of [Seconds] are compared. *)
Definition sample_durations : list Z :=
  [0; 1; -1; 999; 1000000; 999999999; 1000000000; 1500000000; 1000500000;
   -2000500000; 123456789012345; -987654321098765; GoInt.maxInt64; GoInt.minInt64].


(** ** Vocabulary of the further statements *)

(** The suite record [NewTests] makes. *)
Definition new_suite (now : time.Time) (name : string) : TestsReport.t :=
  {| TestsReport.Name := name;
     TestsReport.StartTime := now;
     TestsReport.EndTime := time.zero;
     TestsReport.Time := "";
     TestsReport.Reports := Some [];
     TestsReport.Failures := 0 |}.

(** The test record [NewTest] makes. *)
Definition new_test (now : time.Time) (name : string) (concurrent : bool)
    (namespace : string) (skip skipDelete : bool) : TestReport.t :=
  {| TestReport.Name := name;
     TestReport.StartTime := now;
     TestReport.EndTime := time.zero;
     TestReport.Time := "";
     TestReport.Failure := None;
     TestReport.Steps := Some [];
     TestReport.Concurrent := concurrent;
     TestReport.Namespace := namespace;
     TestReport.Skip := skip;
     TestReport.SkipDelete := skipDelete |}.

(** The operation record [NewOperation] makes. *)
Definition new_operation (now : time.Time) (name : string)
    (operationType : OperationType) : OperationReport.t :=
  {| OperationReport.Name := name;
     OperationReport.StartTime := now;
     OperationReport.EndTime := time.zero;
     OperationReport.Time := "";
     OperationReport.Result := "";
     OperationReport.Message := "";
     OperationReport.OperationType := operationType |}.

(** The suite record [Close] leaves behind from a suite whose
    [Failures] was zero: [k] failed tests counted. *)
Definition closed_counting (now : time.Time) (k : nat) (r : TestsReport.t) : TestsReport.t :=
  {| TestsReport.Name := TestsReport.Name r;
     TestsReport.StartTime := TestsReport.StartTime r;
     TestsReport.EndTime := now;
     TestsReport.Time := calculateDuration (TestsReport.StartTime r) now;
     TestsReport.Reports := TestsReport.Reports r;
     TestsReport.Failures := Z.of_nat k |}.

(** No report of the store holds a nil sequence. *)
Definition sequences_allocated (h : Heap) : Prop :=
  map_Forall (fun _ r => is_Some (TestsReport.Reports r)) (suites h)
  ∧ map_Forall (fun _ r => is_Some (TestReport.Steps r)) (tests h)
  ∧ map_Forall (fun _ r => is_Some (TestSpecStepReport.Results r)) (steps h).

(** The members an operation report contributes after its five fixed
    ones: its message and its kind, each only when not empty. *)
Definition operation_optional (o : OperationReport.t) : list (string * json) :=
  (if is_empty_string (OperationReport.Message o) then []
   else [("message"%string, JString (OperationReport.Message o))])
  ++ (if is_empty_string (OperationReport.OperationType o) then []
      else [("operationType"%string, JString (OperationReport.OperationType o))]).

(** ** What no operation writes

    The fields the constructors set and nothing in the package assigns
    afterwards. *)
Definition suite_identity (r : TestsReport.t) : string * time.Time :=
  (TestsReport.Name r, TestsReport.StartTime r).

Definition test_identity (r : TestReport.t)
    : string * time.Time * bool * string * bool * bool :=
  (TestReport.Name r, TestReport.StartTime r, TestReport.Concurrent r,
   TestReport.Namespace r, TestReport.Skip r, TestReport.SkipDelete r).

Definition operation_identity (r : OperationReport.t)
    : string * time.Time * string * string * OperationType :=
  (OperationReport.Name r, OperationReport.StartTime r, OperationReport.Result r,
   OperationReport.Message r, OperationReport.OperationType r).

(** Every object of [m] is still in [m'], with the same value of [f]. *)
Definition kept {A B} (f : A → B) (m m' : gmap loc A) : Prop :=
  ∀ l r, m !! l = Some r → ∃ r', m' !! l = Some r' ∧ f r' = f r.

Definition identities_kept (h h' : Heap) : Prop :=
  kept suite_identity (suites h) (suites h')
  ∧ kept test_identity (tests h) (tests h')
  ∧ kept TestSpecStepReport.Name (steps h) (steps h')
  ∧ kept operation_identity (ops h) (ops h')
  ∧ kept id (failures h) (failures h').

(** ** The text of the document, read back

    Predicates on the bytes the structured encoder writes. *)

(** [p] is how [s] begins. *)
Fixpoint starts_with (p s : string) : bool :=
  match p, s with
  | EmptyString, _ => true
  | String a p', String b s' => Ascii.eqb a b && starts_with p' s'
  | String _ _, EmptyString => false
  end.

(** [p] stands somewhere in [s]. *)
Fixpoint occurs (p s : string) : bool :=
  starts_with p s
  || match s with
     | EmptyString => false
     | String _ rest => occurs p rest
     end.

Definition line_feed : ascii := ascii_of_N 10.

Fixpoint has_newline (s : string) : bool :=
  match s with
  | EmptyString => false
  | String c rest => Ascii.eqb c line_feed || has_newline rest
  end.

(** The lines of a text: what stands between its line feeds. *)
Fixpoint split_lines (s : string) : list string :=
  match s with
  | EmptyString => [EmptyString]
  | String c rest =>
      if Ascii.eqb c line_feed then EmptyString :: split_lines rest
      else match split_lines rest with
           | [] => [String c EmptyString]
           | l :: ls => String c l :: ls
           end
  end.

(** A line that belongs to a value printed at depth [d] and is not its
    first: it is indented by more than [d] levels, or closes a bracket
    at level [d]. *)
Definition nested (d : nat) (line : string) : bool :=
  starts_with (spaces d ++ " ") line
  || starts_with (spaces d ++ "]") line
  || starts_with (spaces d ++ "}") line.

(** Where the member [key] of an object printed at depth [d] starts:
    a new line, the indentation of the members, the key as a string
    literal, a colon and a space. *)
Definition member_line (quote : string → string) (d : nat) (key : string) : string :=
  (newline ++ spaces (S d) ++ quote key ++ ": ")%string.

(** The text of a member of an object printed at depth [d]: its key,
    a colon, a space, its value. *)
Definition member_text (quote : string → string) (d : nat) (kv : string * json) : string :=
  (quote (fst kv) ++ ": " ++ json_text quote (S d) (snd kv))%string.

(** What a line of an object printed at depth [d] is, after the
    first: the line of one of its members, a line inside the value of
    a member, or the closing line. *)
Definition object_line (quote : string → string) (d : nat) (ms : list (string * json))
    (line : string) : Prop :=
  (∃ k v, (k, v) ∈ ms ∧ starts_with (spaces (S d) ++ quote k ++ ": ") line = true)
  ∨ nested (S d) line = true
  ∨ starts_with (spaces d ++ "}") line = true.

Definition is_letter (c : ascii) : bool :=
  let n := N_of_ascii c in
  ((65 <=? n) && (n <=? 90) || (97 <=? n) && (n <=? 122))%N.

Fixpoint all_letters (s : string) : bool :=
  match s with
  | EmptyString => true
  | String c rest => is_letter c && all_letters rest
  end.

Definition quoted (s : string) : string :=
  String (ascii_of_N 34) (s ++ String (ascii_of_N 34) "").

(** What the statements about the text use of the encoder's string
    literals: a literal is on one line (control characters are written
    as escapes), and a word of letters is written as it is, between
    double quotes. *)
Definition json_string_literals (quote : string → string) : Prop :=
  (∀ s, has_newline (quote s) = false)
  ∧ (∀ s, all_letters s = true → quote s = quoted s).

(** A stand-in for the encoder's string literals that writes a line
    feed as its escape and everything else as it is. *)
Fixpoint demo_escape (s : string) : string :=
  match s with
  | EmptyString => EmptyString
  | String c rest =>
      if Ascii.eqb c line_feed then String (ascii_of_N 92) (String "n" (demo_escape rest))
      else String c (demo_escape rest)
  end.

Definition demo_literal (s : string) : string := quoted (demo_escape s).
(** ** Machine integers: facts *)

Lemma wrap64_id z : GoInt.in_int64 z → GoInt.wrap64 z = z.
Proof.
  unfold GoInt.in_int64, GoInt.wrap64, GoInt.minInt64, GoInt.maxInt64. intros Hz.
  rewrite Z.mod_small; lia.
Qed.

Lemma wrap64_range z : GoInt.in_int64 (GoInt.wrap64 z).
Proof.
  unfold GoInt.in_int64, GoInt.wrap64, GoInt.minInt64, GoInt.maxInt64.
  pose proof (Z.mod_pos_bound (z + 2 ^ 63) (2 ^ 64) ltac:(lia)). lia.
Qed.

Lemma wrap64_add_l z k : GoInt.wrap64 (GoInt.wrap64 z + k) = GoInt.wrap64 (z + k).
Proof.
  unfold GoInt.wrap64.
  replace ((z + 2 ^ 63) mod 2 ^ 64 - 2 ^ 63 + k + 2 ^ 63)
    with ((z + 2 ^ 63) mod 2 ^ 64 + k) by lia.
  replace (z + k + 2 ^ 63) with ((z + 2 ^ 63) + k) by lia.
  now rewrite Zplus_mod_idemp_l.
Qed.

Lemma wrap64_succ z : GoInt.wrap64 (GoInt.wrap64 z + 1) = GoInt.wrap64 (z + 1).
Proof. apply wrap64_add_l. Qed.

Lemma iter_bump_wrap k z :
  GoInt.in_int64 z → Nat.iter k bump z = GoInt.wrap64 (z + Z.of_nat k).
Proof.
  intros Hz. induction k as [|k IH].
  - simpl. rewrite Z.add_0_r. symmetry. now apply wrap64_id.
  - rewrite Nat.iter_succ, IH. unfold bump. rewrite wrap64_succ. f_equal. lia.
Qed.

Lemma iter_bump_exact k z :
  GoInt.in_int64 z → z + Z.of_nat k <= GoInt.maxInt64 →
  Nat.iter k bump z = z + Z.of_nat k.
Proof.
  intros Hz Hk. rewrite iter_bump_wrap by done. apply wrap64_id.
  unfold GoInt.in_int64 in *. lia.
Qed.

(** ** The store: facts *)

Lemma set_Failures_twice a b r :
  TestsReport.set_Failures a (TestsReport.set_Failures b r) = TestsReport.set_Failures a r.
Proof. reflexivity. Qed.

Lemma set_Failures_same r : TestsReport.set_Failures (TestsReport.Failures r) r = r.
Proof. now destruct r. Qed.

Lemma failed_count_cons h p l :
  failed_count h (p :: l) = ((if has_failure h p then 1 else 0) + failed_count h l)%nat.
Proof.
  unfold failed_count. rewrite filter_cons.
  destruct (has_failure h p); case_decide; simpl; congruence.
Qed.

(** ** [Close] *)

(** The loop, when every element is a test report: it returns, touches
    nothing but the [Failures] field of the suite, and bumps it once
    per failed test. *)
Lemma Close_range_returns reports : ∀ h l r,
  suites h !! l = Some r →
  all_tests h reports →
  ∃ h', Close_range (Some l) reports h = Ok tt h'
        ∧ suites h' = <[l := TestsReport.set_Failures
                               (Nat.iter (failed_count h reports) bump (TestsReport.Failures r)) r]>
                        (suites h)
        ∧ tests h' = tests h ∧ steps h' = steps h ∧ ops h' = ops h
        ∧ failures h' = failures h.
Proof.
  induction reports as [|p rest IH]; intros h l r Hl Hall.
  - exists h. simpl. rewrite set_Failures_same, insert_id by done. by repeat split.
  - inversion Hall as [|? ? [t Ht] Hrest]; subst.
    rewrite failed_count_cons. unfold has_failure. rewrite Ht.
    cbn [Close_range]. unfold bind at 1, load_test, load. rewrite Ht.
    destruct (TestReport.Failure t) as [f|] eqn:Hf; cbn [is_nil negb].
    + unfold bind at 1, modify_suite, modify. rewrite Hl.
      set (r1 := TestsReport.set_Failures _ r).
      set (h1 := with_suites _ h).
      destruct (IH h1 l r1) as (h' & Hrun & Hs & Ht' & Hst & Ho & Hfl).
      { subst h1. cbn. apply lookup_insert_eq. }
      { exact Hrest. }
      exists h'. split; [exact Hrun|].
      assert (Hcount : failed_count h1 rest = failed_count h rest) by reflexivity.
      rewrite Hs, Hcount. subst h1 r1. cbn [suites with_suites].
      rewrite insert_insert_eq, set_Failures_twice.
      cbn [TestsReport.Failures TestsReport.set_Failures Nat.add].
      rewrite Nat.iter_succ_r. auto.
    + unfold bind at 1, ret.
      destruct (IH h l r Hl Hrest) as (h' & Hrun & Hs & Hrest').
      exists h'. auto.
Qed.

(** [Close] on a suite whose elements are all test reports. *)
Lemma Close_returns now h l r :
  suites h !! l = Some r →
  all_tests h (elems (TestsReport.Reports r)) →
  ∃ h', Close now (Some l) h = Ok tt h'
        ∧ suites h' = <[l := closed now (failed_count h (elems (TestsReport.Reports r))) r]>
                        (suites h)
        ∧ tests h' = tests h ∧ steps h' = steps h ∧ ops h' = ops h
        ∧ failures h' = failures h.
Proof.
  intros Hl Hall. unfold Close.
  unfold bind at 1, modify_suite at 1, modify. rewrite Hl.
  set (r1 := TestsReport.set_EndTime now r). set (h1 := with_suites _ h).
  assert (H1 : suites h1 !! l = Some r1) by (subst h1; cbn; apply lookup_insert_eq).
  unfold bind at 1, modify_suite at 1, modify. rewrite H1.
  set (r2 := TestsReport.set_Time _ r1). set (h2 := with_suites _ h1).
  assert (H2 : suites h2 !! l = Some r2) by (subst h2; cbn; apply lookup_insert_eq).
  unfold bind at 1, load_suite, load. cbn [deref mbind option_bind]. rewrite H2.
  destruct (Close_range_returns (elems (TestsReport.Reports r2)) h2 l r2 H2)
    as (h' & Hrun & Hs & Ht & Hst & Ho & Hf); [exact Hall|].
  exists h'. split; [exact Hrun|]. rewrite Hs.
  split; [|by repeat split].
  subst h2 h1. cbn [suites with_suites]. rewrite !insert_insert_eq. reflexivity.
Qed.

(** What [Close] does to [Failures]: it adds the number of failed tests
    to the value the field had, modulo 2^64. *)
Lemma Close_adds_failures now h l r :
  suites h !! l = Some r →
  all_tests h (elems (TestsReport.Reports r)) →
  GoInt.in_int64 (TestsReport.Failures r) →
  Failures_at (final (Close now (Some l) h)) (Some l)
  = Some (GoInt.wrap64 (TestsReport.Failures r
                        + Z.of_nat (failed_count h (elems (TestsReport.Reports r))))).
Proof.
  intros Hl Hall Hr.
  destruct (Close_returns now h l r Hl Hall) as (h' & Hrun & Hs & _).
  rewrite Hrun. unfold Failures_at. cbn [final deref mbind option_bind].
  rewrite Hs, lookup_insert_eq. cbn. now rewrite iter_bump_wrap.
Qed.

(** On a suite whose [Failures] is still zero, as [NewTests] makes it,
    [Close] leaves the number of failed tests in the field. *)
Lemma Close_counts_from_zero now h l r :
  suites h !! l = Some r →
  all_tests h (elems (TestsReport.Reports r)) →
  TestsReport.Failures r = 0 →
  Z.of_nat (length (elems (TestsReport.Reports r))) <= GoInt.maxInt64 →
  Failures_at (final (Close now (Some l) h)) (Some l)
  = Some (Z.of_nat (failed_count h (elems (TestsReport.Reports r)))).
Proof.
  intros Hl Hall Hz Hlen.
  rewrite (Close_adds_failures now h l r Hl Hall), Hz.
  2:{ rewrite Hz. unfold GoInt.in_int64, GoInt.minInt64, GoInt.maxInt64. lia. }
  f_equal. apply wrap64_id.
  assert (failed_count h (elems (TestsReport.Reports r))
          ≤ length (elems (TestsReport.Reports r)))%nat
    by (unfold failed_count; apply length_filter).
  unfold GoInt.in_int64, GoInt.minInt64, GoInt.maxInt64 in *. lia.
Qed.

Lemma only_Failures_changed_refl l r h :
  suites h !! l = Some r → only_Failures_changed l r h h.
Proof.
  intros Hl. split; [|by repeat split].
  exists (TestsReport.Failures r). by rewrite set_Failures_same, insert_id.
Qed.

(** Whatever the elements are, and whether the loop returns or panics,
    it leaves everything but the suite's [Failures] as it was. *)
Lemma Close_range_frame reports : ∀ h l r,
  suites h !! l = Some r →
  only_Failures_changed l r h (final (Close_range (Some l) reports h)).
Proof.
  induction reports as [|p rest IH]; intros h l r Hl.
  - by apply only_Failures_changed_refl.
  - cbn [Close_range]. unfold bind at 1, load_test, load. cbv beta.
    destruct (deref (tests h) p) as [t|]; [|by apply only_Failures_changed_refl].
    destruct (TestReport.Failure t) as [f|].
    + unfold bind at 1, modify_suite, modify. rewrite Hl.
      set (r1 := TestsReport.set_Failures _ r). set (h1 := with_suites _ h).
      destruct (IH h1 l r1) as ((F & Hs) & Ht & Hst & Ho & Hf).
      { subst h1. cbn. apply lookup_insert_eq. }
      split; [|done].
      exists F. rewrite Hs. subst h1 r1. cbn [suites with_suites].
      by rewrite insert_insert_eq, set_Failures_twice.
    + unfold bind at 1, ret. by apply IH.
Qed.

(** [Close] through a nil pointer panics at its first assignment. *)
Lemma Close_nil now h : Close now None h = Panic h.
Proof. reflexivity. Qed.

Lemma Close_unallocated now l h : suites h !! l = None → Close now (Some l) h = Panic h.
Proof.
  intros Hl. unfold Close, bind at 1, modify_suite at 1, modify. by rewrite Hl.
Qed.

(** The store [Close] ends with, in every case. *)
Lemma Close_frame now h l r :
  suites h !! l = Some r →
  only_Failures_changed l (closed now 0 r) h (final (Close now (Some l) h)).
Proof.
  intros Hl. unfold Close.
  unfold bind at 1, modify_suite at 1, modify. rewrite Hl.
  set (r1 := TestsReport.set_EndTime now r). set (h1 := with_suites _ h).
  assert (H1 : suites h1 !! l = Some r1) by (subst h1; cbn; apply lookup_insert_eq).
  unfold bind at 1, modify_suite at 1, modify. rewrite H1.
  set (r2 := TestsReport.set_Time _ r1). set (h2 := with_suites _ h1).
  assert (H2 : suites h2 !! l = Some r2) by (subst h2; cbn; apply lookup_insert_eq).
  unfold bind at 1, load_suite, load. cbn [deref mbind option_bind]. rewrite H2.
  destruct (Close_range_frame (elems (TestsReport.Reports r2)) h2 l r2 H2)
    as ((F & Hs) & Ht & Hst & Ho & Hf).
  split; [|done].
  exists F. rewrite Hs. subst h2 h1. cbn [suites with_suites].
  rewrite !insert_insert_eq. reflexivity.
Qed.

(** C10. [Close] writes the suite's own [EndTime], [Time] and [Failures]
    and nothing else: in the store it ends with (returning or
    panicking), every test, step, operation and failure object is as it
    was, so is every other suite, and the closed suite keeps its [Name],
    its [StartTime] and its [Reports] slice. *)
Theorem Close_frame_suite_fields now tr h :
  let h' := final (Close now tr h) in
  tests h' = tests h ∧ steps h' = steps h ∧ ops h' = ops h
  ∧ failures h' = failures h
  ∧ dom (suites h') = dom (suites h)
  ∧ (∀ l, tr ≠ Some l → suites h' !! l = suites h !! l)
  ∧ (∀ l r, tr = Some l → suites h !! l = Some r →
       ∃ r', suites h' !! l = Some r'
             ∧ TestsReport.Name r' = TestsReport.Name r
             ∧ TestsReport.StartTime r' = TestsReport.StartTime r
             ∧ TestsReport.Reports r' = TestsReport.Reports r).
Proof.
  intros h'. subst h'. destruct tr as [l|].
  2:{ rewrite Close_nil. cbn [final]. repeat split; done. }
  destruct (suites h !! l) as [r|] eqn:Hl.
  2:{ rewrite Close_unallocated by done. cbn [final].
      repeat split; try done. intros l' r' [= <-]. congruence. }
  destruct (Close_frame now h l r Hl) as ((F & Hs) & Ht & Hst & Ho & Hf).
  repeat split; try done.
  - rewrite Hs, dom_insert_L. apply subseteq_union_1_L, singleton_subseteq_l.
    by apply elem_of_dom_2 with r.
  - intros l' Hne. rewrite Hs, lookup_insert_ne; [done | congruence].
  - intros l' r' [= <-] Hr'. rewrite Hl in Hr'. injection Hr' as <-.
    eexists. rewrite Hs, lookup_insert_eq. split; [reflexivity|]. by repeat split.
Qed.

(** C1, at a suite whose [Failures] is not zero when [Close] is called.
    The closed scenario suite holds one test report, which carries a
    failure, and its [Failures] is 1; closing it leaves 2 in the field,
    not the number of failed tests. *)
Theorem Close_Failures_not_reset :
  length (Reports_at closed_heap failing_tr) = 1%nat
  ∧ failed_count closed_heap (Reports_at closed_heap failing_tr) = 1%nat
  ∧ Failures_at closed_heap failing_tr = Some 1
  ∧ Failures_at (final (Close (at_ns 4000000) failing_tr closed_heap)) failing_tr = Some 2.
Proof. vm_compute. by repeat split. Qed.

(** C2, what two calls of [Close] leave in [Failures]: the number of
    failed tests is added once per call (modulo 2^64), so the second
    call does not reproduce the total of the first. *)
Theorem Close_twice_adds_twice now1 now2 h l r :
  suites h !! l = Some r →
  all_tests h (elems (TestsReport.Reports r)) →
  GoInt.in_int64 (TestsReport.Failures r) →
  let k := Z.of_nat (failed_count h (elems (TestsReport.Reports r))) in
  let h1 := final (Close now1 (Some l) h) in
  let h2 := final (Close now2 (Some l) h1) in
  returned (Close now1 (Some l) h) ∧ returned (Close now2 (Some l) h1)
  ∧ tests h1 = tests h ∧ Reports_at h1 (Some l) = Reports_at h (Some l)
  ∧ Failures_at h1 (Some l) = Some (GoInt.wrap64 (TestsReport.Failures r + k))
  ∧ Failures_at h2 (Some l) = Some (GoInt.wrap64 (TestsReport.Failures r + 2 * k)).
Proof.
  intros Hl Hall Hr k h1 h2.
  destruct (Close_returns now1 h l r Hl Hall) as (h1' & Hrun1 & Hs1 & Ht1 & _).
  assert (Hh1 : h1 = h1') by (subst h1; by rewrite Hrun1). 
  assert (Hl1 : suites h1 !! l = Some (closed now1 (failed_count h (elems (TestsReport.Reports r))) r)).
  { rewrite Hh1, Hs1. apply lookup_insert_eq. }
  assert (Hall1 : all_tests h1 (elems (TestsReport.Reports r))).
  { unfold all_tests. rewrite Hh1, Ht1. exact Hall. }
  assert (Hk1 : failed_count h1 (elems (TestsReport.Reports r)) = failed_count h (elems (TestsReport.Reports r))).
  { unfold failed_count, has_failure. by rewrite Hh1, Ht1. }
  pose proof (Close_returns now2 h1 l _ Hl1 Hall1) as (h2' & Hrun2 & _).
  pose proof (Close_adds_failures now2 h1 l _ Hl1 Hall1) as Hadd2.
  cbn [closed TestsReport.Reports TestsReport.Failures] in Hadd2.
  rewrite Hk1, iter_bump_wrap in Hadd2 by done.
  specialize (Hadd2 (wrap64_range _)).
  repeat split.
  - by rewrite Hrun1.
  - by rewrite Hrun2.
  - by rewrite Hh1.
  - unfold Reports_at. cbn [deref mbind option_bind]. by rewrite Hl1, Hl.
  - subst h1. by apply Close_adds_failures.
  - subst h2. rewrite Hadd2. f_equal. fold k. rewrite wrap64_add_l. f_equal. lia.
Qed.

Lemma Close_twice_adds_twice_witness :
  Failures_at (final (Close (at_ns 3000000) failing_tr failing_heap)) failing_tr = Some 1
  ∧ Failures_at
      (final (Close (at_ns 4000000) failing_tr
                (final (Close (at_ns 3000000) failing_tr failing_heap)))) failing_tr
    = Some 2.
Proof.
  assert (Hl : suites failing_heap !! 1%positive
               = deref (suites failing_heap) failing_tr) by reflexivity.
  destruct (deref (suites failing_heap) failing_tr) as [r|] eqn:Hr; [|by vm_compute in Hr].
  pose proof (Close_twice_adds_twice (at_ns 3000000) (at_ns 4000000)
                failing_heap 1%positive r Hl) as H.
  assert (Hr' : r = default r (deref (suites failing_heap) failing_tr)) by (by rewrite Hr).
  vm_compute in Hr'. subst r.
  destruct H as (_ & _ & _ & _ & H1 & H2).
  - repeat constructor. by eexists.
  - vm_compute. split; discriminate.
  - split; [exact H1 | exact H2].
Defined.

(** ** [MarkTestEnd] and [MarkOperationEnd] *)

Lemma MarkTestEnd_returns now h l r :
  tests h !! l = Some r →
  MarkTestEnd now (Some l) h = Ok tt (with_tests (insert l (ended_test now r)) h).
Proof.
  intros Hl. unfold MarkTestEnd, bind, modify_test, modify. rewrite Hl.
  cbn [tests with_tests]. rewrite lookup_insert_eq.
  unfold with_tests. cbn. by rewrite insert_insert_eq.
Qed.

Lemma MarkOperationEnd_returns now h l r :
  ops h !! l = Some r →
  MarkOperationEnd now (Some l) h = Ok tt (with_ops (insert l (ended_op now r)) h).
Proof.
  intros Hl. unfold MarkOperationEnd, bind, modify_op, modify. rewrite Hl.
  cbn [ops with_ops]. rewrite lookup_insert_eq.
  unfold with_ops. cbn. by rewrite insert_insert_eq.
Qed.

(** C9. On every test report, whatever else the store holds,
    [MarkTestEnd] returns, stores the current instant in [EndTime] and
    the formatted duration from [StartTime] to it in [Time], and leaves
    every other field of the test report and every other object of the
    store as they were; a second call overwrites both fields with the
    values of that call. [MarkOperationEnd] does the same on every
    operation report. *)
Theorem MarkEnd_sets_EndTime_and_Time now1 now2 h :
  (∀ lt t, tests h !! lt = Some t →
     let h1 := with_tests (insert lt (ended_test now1 t)) h in
     MarkTestEnd now1 (Some lt) h = Ok tt h1
     ∧ MarkTestEnd now2 (Some lt) h1
       = Ok tt (with_tests (insert lt (ended_test now2 t)) h))
  ∧ (∀ lo o, ops h !! lo = Some o →
       let h1 := with_ops (insert lo (ended_op now1 o)) h in
       MarkOperationEnd now1 (Some lo) h = Ok tt h1
       ∧ MarkOperationEnd now2 (Some lo) h1
         = Ok tt (with_ops (insert lo (ended_op now2 o)) h)).
Proof.
  split.
  - intros lt t Ht. cbn zeta. split; [by apply MarkTestEnd_returns|].
    rewrite (MarkTestEnd_returns now2 _ lt (ended_test now1 t))
      by (cbn; apply lookup_insert_eq).
    unfold with_tests. cbn. by rewrite insert_insert_eq.
  - intros lo o Ho. cbn zeta. split; [by apply MarkOperationEnd_returns|].
    rewrite (MarkOperationEnd_returns now2 _ lo (ended_op now1 o))
      by (cbn; apply lookup_insert_eq).
    unfold with_ops. cbn. by rewrite insert_insert_eq.
Qed.

(** ** Sequences only grow at the end *)

Lemma sequences_extended_refl h : sequences_extended h h.
Proof. repeat split; intros l r Hl; by exists r. Qed.

Lemma sequences_extended_trans h1 h2 h3 :
  sequences_extended h1 h2 → sequences_extended h2 h3 → sequences_extended h1 h3.
Proof.
  intros (A1 & B1 & C1) (A2 & B2 & C2). repeat split; intros l r Hl.
  - destruct (A1 l r Hl) as (r2 & Hl2 & P1). destruct (A2 l r2 Hl2) as (r3 & Hl3 & P2).
    exists r3. split; [done | by etrans].
  - destruct (B1 l r Hl) as (r2 & Hl2 & P1). destruct (B2 l r2 Hl2) as (r3 & Hl3 & P2).
    exists r3. split; [done | by etrans].
  - destruct (C1 l r Hl) as (r2 & Hl2 & P1). destruct (C2 l r2 Hl2) as (r3 & Hl3 & P2).
    exists r3. split; [done | by etrans].
Qed.

(** A store with the same suites, tests and steps. *)
Lemma sequences_extended_same h h' :
  suites h' = suites h → tests h' = tests h → steps h' = steps h →
  sequences_extended h h'.
Proof.
  intros Hs Ht Hst. repeat split; intros l r Hl; exists r;
    (split; [congruence | done]).
Qed.

(** One more object, or one object replaced by one whose sequence
    extends the old one. *)
Lemma extended_insert {A} (seq : A → list ptr) (m : gmap loc A) l v :
  (∀ r, m !! l = Some r → seq r `prefix_of` seq v) →
  ∀ l' r, m !! l' = Some r → ∃ r', <[l := v]> m !! l' = Some r' ∧ seq r `prefix_of` seq r'.
Proof.
  intros Hv l' r Hl'. destruct (decide (l = l')) as [<-|Hne].
  - exists v. rewrite lookup_insert_eq. split; [done | by apply Hv].
  - exists r. by rewrite lookup_insert_ne.
Qed.

Lemma fresh_unallocated {A} (m : gmap loc A) : m !! fresh (dom m) = None.
Proof. apply not_elem_of_dom, is_fresh. Qed.

Lemma extended_alloc {A} (seq : A → list ptr) (m : gmap loc A) v :
  ∀ l' r, m !! l' = Some r →
    ∃ r', <[fresh (dom m) := v]> m !! l' = Some r' ∧ seq r `prefix_of` seq r'.
Proof.
  apply extended_insert. intros r Hr. by rewrite fresh_unallocated in Hr.
Qed.

Lemma prefix_append {A} (s : slice A) (x : A) : elems s `prefix_of` elems (append s x).
Proof. by apply prefix_app_r. Qed.

Lemma modify_suite_extends p f h :
  (∀ r, elems (TestsReport.Reports r) `prefix_of` elems (TestsReport.Reports (f r))) →
  sequences_extended h (final (modify_suite p f h)).
Proof.
  intros Hf. unfold modify_suite, modify.
  destruct p as [l|]; [|apply sequences_extended_refl].
  destruct (suites h !! l) as [r|] eqn:Hl; [|apply sequences_extended_refl].
  cbn [final]. split; [|split]; cbn [suites tests steps with_suites]; try (by eauto).
  apply (extended_insert (elems ∘ TestsReport.Reports)). intros r0 Hr0. rewrite Hl in Hr0. injection Hr0 as <-. apply Hf.
Qed.

Lemma modify_test_extends p f h :
  (∀ r, elems (TestReport.Steps r) `prefix_of` elems (TestReport.Steps (f r))) →
  sequences_extended h (final (modify_test p f h)).
Proof.
  intros Hf. unfold modify_test, modify.
  destruct p as [l|]; [|apply sequences_extended_refl].
  destruct (tests h !! l) as [r|] eqn:Hl; [|apply sequences_extended_refl].
  cbn [final]. split; [|split]; cbn [suites tests steps with_tests]; try (by eauto).
  apply (extended_insert (elems ∘ TestReport.Steps)). intros r0 Hr0. rewrite Hl in Hr0. injection Hr0 as <-. apply Hf.
Qed.

Lemma modify_step_extends p f h :
  (∀ r, elems (TestSpecStepReport.Results r)
          `prefix_of` elems (TestSpecStepReport.Results (f r))) →
  sequences_extended h (final (modify_step p f h)).
Proof.
  intros Hf. unfold modify_step, modify.
  destruct p as [l|]; [|apply sequences_extended_refl].
  destruct (steps h !! l) as [r|] eqn:Hl; [|apply sequences_extended_refl].
  cbn [final]. split; [|split]; cbn [suites tests steps with_steps]; try (by eauto).
  apply (extended_insert (elems ∘ TestSpecStepReport.Results)). intros r0 Hr0. rewrite Hl in Hr0. injection Hr0 as <-. apply Hf.
Qed.

Lemma modify_op_extends p f h : sequences_extended h (final (modify_op p f h)).
Proof.
  unfold modify_op, modify.
  destruct p as [l|]; [|apply sequences_extended_refl].
  destruct (ops h !! l) as [r|]; [|apply sequences_extended_refl].
  by apply sequences_extended_same.
Qed.

(** Sequencing: the store a composite ends with. *)
Lemma final_bind {A B} (m : M A) (k : A → M B) h :
  final (bind m k h)
  = match m h with Ok a h' => final (k a h') | Panic h' => h' end.
Proof. unfold bind. by destruct (m h). Qed.

Lemma exec_extends c h : sequences_extended h (final (exec c h)).
Proof.
  destruct c; cbn [exec].
  - split; [|split]; cbn; try (by eauto).
    apply (extended_alloc (elems ∘ TestsReport.Reports)).
  - split; [|split]; cbn; try (by eauto).
    apply (extended_alloc (elems ∘ TestReport.Steps)).
  - split; [|split]; cbn; try (by eauto).
    apply (extended_alloc (elems ∘ TestSpecStepReport.Results)).
  - by apply sequences_extended_same.
  - apply modify_suite_extends. intros r. apply prefix_append.
  - apply modify_test_extends. intros r. apply prefix_append.
  - apply modify_step_extends. intros r. apply prefix_append.
  - unfold MarkTestEnd. rewrite final_bind.
    pose proof (modify_test_extends t (TestReport.set_EndTime now) h (fun _ => reflexivity _)) as H1.
    destruct (modify_test t (TestReport.set_EndTime now) h) as [[] h1|h1]; [|exact H1].
    eapply sequences_extended_trans; [exact H1|].
    apply modify_test_extends. by intros r.
  - unfold MarkOperationEnd. rewrite final_bind.
    pose proof (modify_op_extends op (OperationReport.set_EndTime now) h) as H1.
    destruct (modify_op op (OperationReport.set_EndTime now) h) as [[] h1|h1]; [|exact H1].
    eapply sequences_extended_trans; [exact H1|]. apply modify_op_extends.
  - unfold AttachFailure. rewrite final_bind. cbn [alloc].
    eapply sequences_extended_trans; [|apply modify_test_extends; by intros r].
    by apply sequences_extended_same.
  - destruct tr as [l|]; [|rewrite Close_nil; apply sequences_extended_refl].
    destruct (suites h !! l) as [r|] eqn:Hl.
    2:{ rewrite Close_unallocated by done. apply sequences_extended_refl. }
    destruct (Close_frame now h l r Hl) as ((F & Hs) & Ht & Hst & _).
    split; [|split]; rewrite ?Ht, ?Hst; try (by eauto).
    rewrite Hs. apply (extended_insert (elems ∘ TestsReport.Reports)).
    intros r0 Hr0. rewrite Hl in Hr0. by injection Hr0 as <-.
Qed.

Lemma run_extends cs : ∀ h, sequences_extended h (run cs h).
Proof.
  induction cs as [|c rest IH]; intros h; cbn [run].
  - apply sequences_extended_refl.
  - eapply sequences_extended_trans; [apply exec_extends | apply IH].
Qed.

(** [AddTest] puts the pointer after the elements the slice holds. *)
Lemma AddTest_returns h l r test :
  suites h !! l = Some r →
  AddTest (Some l) test h
  = Ok tt (with_suites
             (insert l (TestsReport.set_Reports (append (TestsReport.Reports r) test) r)) h).
Proof. intros Hl. unfold AddTest, modify_suite, modify. by rewrite Hl. Qed.

Lemma AddTestStep_returns h l r step :
  tests h !! l = Some r →
  AddTestStep (Some l) step h
  = Ok tt (with_tests
             (insert l (TestReport.set_Steps (append (TestReport.Steps r) step) r)) h).
Proof. intros Hl. unfold AddTestStep, modify_test, modify. by rewrite Hl. Qed.

Lemma AddOperation_returns h l r op :
  steps h !! l = Some r →
  AddOperation (Some l) op h
  = Ok tt (with_steps
             (insert l (TestSpecStepReport.set_Results
                          (append (TestSpecStepReport.Results r) op) r)) h).
Proof. intros Hl. unfold AddOperation, modify_step, modify. by rewrite Hl. Qed.

(** C7. Appending keeps call order, at each of the three levels and
    whatever else the store holds: on every suite, three appends return
    and leave the old elements followed by the three new pointers, in
    the order of the calls (the names read through the slice are the
    old names followed by the three new ones); likewise for the steps
    of every test and the results of every step; tests named a, b, c
    appended to a new suite are listed as a, b, c; and whatever calls
    the runner makes afterwards, every sequence in the store stays an
    initial segment of what it becomes. *)
Theorem appends_keep_call_order h a b c cs :
  (∀ ls s, suites h !! ls = Some s →
     ∃ h', (AddTest (Some ls) a ;; AddTest (Some ls) b ;; AddTest (Some ls) c) h = Ok tt h'
           ∧ Reports_at h' (Some ls) = elems (TestsReport.Reports s) ++ [a; b; c]
           ∧ names h' (Reports_at h' (Some ls))
             = names h (elems (TestsReport.Reports s)) ++ names h [a; b; c])
  ∧ (∀ lt t, tests h !! lt = Some t →
       ∃ h', (AddTestStep (Some lt) a ;; AddTestStep (Some lt) b ;; AddTestStep (Some lt) c) h
             = Ok tt h'
             ∧ Steps_at h' (Some lt) = elems (TestReport.Steps t) ++ [a; b; c])
  ∧ (∀ lst st, steps h !! lst = Some st →
       ∃ h', (AddOperation (Some lst) a ;; AddOperation (Some lst) b
              ;; AddOperation (Some lst) c) h = Ok tt h'
             ∧ Results_at h' (Some lst)
               = elems (TestSpecStepReport.Results st) ++ [a; b; c])
  ∧ names abc_heap (Reports_at abc_heap abc_tr) = [Some "a"; Some "b"; Some "c"]%string
  ∧ sequences_extended h (run cs h).
Proof.
  split; [|split; [|split; [|split]]].
  - intros ls s Hs. eexists. unfold bind.
    rewrite (AddTest_returns h ls s a Hs).
    erewrite AddTest_returns by (cbn; apply lookup_insert_eq).
    erewrite AddTest_returns by (cbn; apply lookup_insert_eq).
    split; [reflexivity|].
    unfold append, Reports_at, names. cbn. rewrite lookup_insert_eq. cbn.
    rewrite <- !(assoc_L (++)). cbn [app]. split; [done|]. by rewrite fmap_app.
  - intros lt t Ht. eexists. unfold bind.
    rewrite (AddTestStep_returns h lt t a Ht).
    erewrite AddTestStep_returns by (cbn; apply lookup_insert_eq).
    erewrite AddTestStep_returns by (cbn; apply lookup_insert_eq).
    split; [reflexivity|].
    unfold append, Steps_at. cbn. rewrite lookup_insert_eq. cbn.
    by rewrite <- !(assoc_L (++)).
  - intros lst st Hst. eexists. unfold bind.
    rewrite (AddOperation_returns h lst st a Hst).
    erewrite AddOperation_returns by (cbn; apply lookup_insert_eq).
    erewrite AddOperation_returns by (cbn; apply lookup_insert_eq).
    split; [reflexivity|].
    unfold append, Results_at. cbn. rewrite lookup_insert_eq. cbn.
    by rewrite <- !(assoc_L (++)).
  - by vm_compute.
  - apply run_extends.
Qed.

(** The end-to-end scenario leaves the expected objects in the store. *)
Lemma smoke_heap_objects :
  suites smoke_heap !! 1%positive = Some smoke_record
  ∧ tests smoke_heap !! 1%positive = Some smoke_test
  ∧ steps smoke_heap !! 1%positive = Some smoke_step
  ∧ ops smoke_heap !! 1%positive = Some smoke_op.
Proof. by vm_compute. Qed.

Lemma MarkEnd_sets_EndTime_and_Time_witness :
  (∃ t, tests failing_heap !! 1%positive = Some t
        ∧ ops failing_heap = ∅
        ∧ MarkTestEnd (at_ns 5000000) (Some 1%positive) failing_heap
          = Ok tt (with_tests (insert 1%positive (ended_test (at_ns 5000000) t))
                     failing_heap))
  ∧ MarkOperationEnd (at_ns 1700000020) (Some 1%positive) smoke_heap
    = Ok tt (with_ops (insert 1%positive (ended_op (at_ns 1700000020) smoke_op)) smoke_heap).
Proof.
  split.
  - destruct (tests failing_heap !! 1%positive) as [t|] eqn:Ht; [|by vm_compute in Ht].
    exists t. split; [done|]. split; [by vm_compute|].
    destruct (MarkEnd_sets_EndTime_and_Time (at_ns 5000000) (at_ns 6000000) failing_heap)
      as (H & _).
    by destruct (H 1%positive t Ht) as (H1 & _).
  - destruct (MarkEnd_sets_EndTime_and_Time (at_ns 1700000020) (at_ns 1800000020)
                smoke_heap) as (_ & H).
    destruct (H 1%positive smoke_op) as (H2 & _); [by vm_compute|].
    exact H2.
Defined.

Lemma appends_keep_call_order_witness :
  (∃ s, suites abc_heap !! 1%positive = Some s
        ∧ steps abc_heap = ∅
        ∧ ∃ h', (AddTest (Some 1%positive) None ;; AddTest (Some 1%positive) None
                 ;; AddTest (Some 1%positive) None) abc_heap = Ok tt h'
                ∧ Reports_at h' (Some 1%positive)
                  = elems (TestsReport.Reports s) ++ [None; None; None])
  ∧ sequences_extended abc_heap
      (run [CallClose (at_ns 1900000000) (Some 1%positive);
            CallAddTest (Some 1%positive) None] abc_heap).
Proof.
  destruct (appends_keep_call_order abc_heap None None None
              [CallClose (at_ns 1900000000) (Some 1%positive);
               CallAddTest (Some 1%positive) None])
    as (Hsuite & _ & _ & _ & Hrun).
  split; [|exact Hrun].
  destruct (suites abc_heap !! 1%positive) as [s|] eqn:Hs; [|by vm_compute in Hs].
  exists s. split; [done|]. split; [by vm_compute|].
  destruct (Hsuite 1%positive s Hs) as (h' & Hh' & Hrep & _). by exists h'.
Defined.

(** ** The structured document *)

Lemma collect_Val {A} (fs : list (res A)) ms : collect fs = Val ms → fs = Val <$> ms.
Proof.
  revert ms. induction fs as [|[a|e] rest IH]; intros ms H; cbn in H.
  - by injection H as <-.
  - destruct (collect rest) as [r|e]; [|discriminate].
    injection H as <-. cbn. f_equal. by apply IH.
  - discriminate.
Qed.

Lemma member_lookup_field key ms : member key ms = lookup_field key (Val <$> ms).
Proof.
  induction ms as [|[k v] rest IH]; [done|]. cbn. by rewrite IH.
Qed.

Lemma lookup_field_app key a b :
  lookup_field key (a ++ b)
  = match lookup_field key a with Some v => Some v | None => lookup_field key b end.
Proof.
  induction a as [|[[k v]|e] rest IH]; cbn; [done| |done].
  by destruct (String.eqb k key).
Qed.

(** The members of an encoded object are the fields that were given. *)
Lemma object_get key fields j :
  object fields = Val j → get key j = lookup_field key fields.
Proof.
  unfold object. destruct (collect fields) as [ms|e] eqn:Hc; [|discriminate].
  intros [= <-]. cbn. rewrite member_lookup_field. by rewrite (collect_Val _ _ Hc).
Qed.

Lemma lookup_field_field key k v :
  lookup_field key (field k v)
  = match v with Val j => if String.eqb k key then Some j else None | Err _ => None end.
Proof. by destruct v. Qed.

Lemma lookup_field_field_other key k v :
  String.eqb k key = false → lookup_field key (field k v) = None.
Proof. intros Hk. rewrite lookup_field_field, Hk. by destruct v. Qed.

(** An encoding that succeeds had no failing field. *)
Lemma object_field_Val fields j k v :
  object fields = Val j →
  match v with Val x => Val (k, x) | Err e => Err e end ∈ fields →
  ∃ x, v = Val x.
Proof.
  unfold object. destruct (collect fields) as [ms|e] eqn:Hc; [|discriminate].
  intros _ Hin. rewrite (collect_Val _ _ Hc) in Hin.
  apply list_elem_of_fmap in Hin as (y & Hy & _).
  destruct v; [by eexists | discriminate].
Qed.

Lemma array_lookup (items : list (res json)) l i x :
  array items = Val (JArray l) → items !! i = Some x → ∃ j, x = Val j ∧ l !! i = Some j.
Proof.
  unfold array. destruct (collect items) as [ms|e] eqn:Hc; [|discriminate].
  intros [= <-] Hi. rewrite (collect_Val _ _ Hc) in Hi.
  rewrite list_lookup_fmap in Hi. destruct (ms !! i) as [j|]; [|discriminate].
  injection Hi as <-. by exists j.
Qed.

Section SerializationFacts.

Context (time_MarshalJSON : time.Time → res string)
        (xml_MarshalIndent : Heap → ptr → string * option error)
        (json_quote : string → string)
        (JSONFormat XMLFormat : string)
        (unicode_ToLower : string → string)
        {FS : Type}
        (os_WriteFile : string → string → Z → FS → FS * option error).

(** Within this section the operations stand for their instances at the
    library functions above. *)
Abbreviation enc_Test := (enc_Test time_MarshalJSON).
Abbreviation json_Marshal := (json_Marshal time_MarshalJSON).
Abbreviation JSONSerializer := (JSONSerializer time_MarshalJSON json_quote).
Abbreviation XMLSerializer := (XMLSerializer xml_MarshalIndent).
Abbreviation GetSerializer :=
  (GetSerializer time_MarshalJSON xml_MarshalIndent json_quote JSONFormat XMLFormat).
Abbreviation SaveReport := (SaveReport FS os_WriteFile).
Abbreviation SaveReportBasedOnType :=
  (SaveReportBasedOnType time_MarshalJSON xml_MarshalIndent json_quote JSONFormat XMLFormat
     unicode_ToLower FS os_WriteFile).
Abbreviation ToLower := (ToLower unicode_ToLower).

(** The keys of the object of a test report. *)
Lemma enc_Test_get h t j key :
  enc_Test h t = Val j →
  get key j
  = lookup_field key
      (field "name" (Val (JString (TestReport.Name t)))
       ++ field "startTime" (enc_time time_MarshalJSON (TestReport.StartTime t))
       ++ field "endTime" (enc_time time_MarshalJSON (TestReport.EndTime t))
       ++ field "time" (Val (JString (TestReport.Time t)))
       ++ omitempty (is_nil (TestReport.Failure t))
            (field "failure" (enc_ptr (failures h) enc_Failure (TestReport.Failure t)))
       ++ omitempty (is_empty_slice (TestReport.Steps t))
            (field "steps"
               (enc_slice (enc_ptr (steps h) (enc_Step time_MarshalJSON h))
                  (TestReport.Steps t)))
       ++ omitempty (negb (TestReport.Concurrent t))
            (field "concurrent" (Val (JBool (TestReport.Concurrent t))))
       ++ omitempty (is_empty_string (TestReport.Namespace t))
            (field "namespace" (Val (JString (TestReport.Namespace t))))
       ++ omitempty (negb (TestReport.Skip t))
            (field "skip" (Val (JBool (TestReport.Skip t))))
       ++ omitempty (negb (TestReport.SkipDelete t))
            (field "skipDelete" (Val (JBool (TestReport.SkipDelete t))))).
Proof. apply object_get. Qed.

(** A field that is not the one looked for contributes nothing. *)
Lemma lookup_field_other key k v :
  String.eqb k key = false → ∀ e, lookup_field key (omitempty e (field k v)) = None.
Proof.
  intros Hk e. destruct e; [done|]. cbn [omitempty].
  rewrite lookup_field_field, Hk. by destruct v.
Qed.

(** What the document of a test report holds under the optional keys. *)
Lemma enc_Test_optional_keys h t j :
  enc_Test h t = Val j →
  (TestReport.Concurrent t = false → get "concurrent" j = None)
  ∧ (TestReport.Namespace t = ""%string → get "namespace" j = None)
  ∧ (TestReport.Skip t = false → get "skip" j = None)
  ∧ (TestReport.SkipDelete t = false → get "skipDelete" j = None)
  ∧ (TestReport.Failure t = None → get "failure" j = None)
  ∧ (TestReport.Concurrent t = true → get "concurrent" j = Some (JBool true)).
Proof.
  intros Hj.
  assert (Hfield : ∀ key k v, String.eqb k key = false →
            lookup_field key (field k v) = None).
  { intros key k v Hk. apply (lookup_field_other key k v Hk false). }
  repeat split; intros Hc; rewrite (enc_Test_get h t j _ Hj), Hc;
    rewrite !lookup_field_app;
    rewrite !(Hfield _ "name"%string), !(Hfield _ "startTime"%string),
      !(Hfield _ "endTime"%string), !(Hfield _ "time"%string) by reflexivity;
    try rewrite (lookup_field_other _ "failure"%string) by reflexivity;
    try rewrite (lookup_field_other _ "steps"%string) by reflexivity;
    try rewrite (lookup_field_other _ "concurrent"%string) by reflexivity;
    try rewrite (lookup_field_other _ "namespace"%string) by reflexivity;
    try rewrite (lookup_field_other _ "skip"%string) by reflexivity;
    try rewrite (lookup_field_other _ "skipDelete"%string) by reflexivity;
    reflexivity.
Qed.

(** The document of a suite lists, under "reports", the documents of
    its test reports, position by position. *)
Lemma json_Marshal_reports h l r ps i lt t j :
  suites h !! l = Some r →
  TestsReport.Reports r = Some ps →
  ps !! i = Some (Some lt) →
  tests h !! lt = Some t →
  json_Marshal h (Some l) = Val j →
  ∃ items jt, get "reports" j = Some (JArray items)
              ∧ items !! i = Some jt
              ∧ enc_Test h t = Val jt.
Proof.
  intros Hl Hps Hi Ht Hj. unfold json_Marshal, enc_ptr in Hj. rewrite Hl in Hj.
  pose proof (object_get "reports" _ _ Hj) as Hget.
  destruct (object_field_Val _ j "reports"
              (enc_slice (enc_ptr (tests h) (enc_Test h)) (TestsReport.Reports r)) Hj)
    as [js Hjs].
  { rewrite !elem_of_app. do 4 right. left. apply list_elem_of_here. }
  rewrite !lookup_field_app in Hget.
  rewrite !(lookup_field_field_other _ "name"%string),
    !(lookup_field_field_other _ "startTime"%string),
    !(lookup_field_field_other _ "endTime"%string),
    !(lookup_field_field_other _ "time"%string) in Hget by reflexivity.
  rewrite lookup_field_field, Hjs in Hget. change (get "reports" j = Some js) in Hget.
  rewrite Hps in Hjs. cbn [enc_slice] in Hjs.
  assert (∃ items, js = JArray items) as [items ->].
  { unfold array in Hjs. destruct (collect _); [|discriminate]. injection Hjs as <-.
    by eexists. }
  assert (Hlook : (enc_ptr (tests h) (enc_Test h) <$> ps) !! i = Some (enc_Test h t)).
  { rewrite list_lookup_fmap. unfold ptr in *. rewrite Hi. cbn. by rewrite Ht. }
  destruct (array_lookup _ items i _ Hjs Hlook) as (jt & Hjt & Hit).
  by exists items, jt.
Qed.

(** ** Selecting a serializer *)

(** C4. [GetSerializer] returns the structured encoder for the first
    format identifier, the markup encoder for the second, and for any
    other identifier the error "unsupported report format" and no
    serializer; hence a serializer without error exactly for the two
    identifiers. The two constants differ, as the cases of one Go
    switch must. *)
Theorem GetSerializer_recognizes_two_formats format :
  JSONFormat ≠ XMLFormat →
  (format = JSONFormat → GetSerializer format = (Some JSONSerializer, None))
  ∧ (format = XMLFormat → GetSerializer format = (Some XMLSerializer, None))
  ∧ (format ≠ JSONFormat → format ≠ XMLFormat →
       GetSerializer format = (None, Some (errors_New "unsupported report format")))
  ∧ ((∃ s, GetSerializer format = (Some s, None))
       ↔ format = JSONFormat ∨ format = XMLFormat).
Proof.
  intros Hne. unfold GetSerializer.
  destruct (String.eqb_spec format JSONFormat) as [->|HJ].
  - repeat split; try done; try (by left). by eexists.
  - destruct (String.eqb_spec format XMLFormat) as [->|HX].
    + repeat split; try done; try (by right). by eexists.
    + repeat split; try done.
      * by intros [s [=]].
      * by intros [?|?].
Qed.

(** ** Saving *)

(** C5. When the serializer fails, [SaveReport] returns its error and
    the file system is as it was; when it succeeds, [SaveReport] is
    the one call of [os.WriteFile] with the file path, the serialized
    bytes and mode [0o600] (read and write for the owner, nothing
    else), whose error or success it returns as it is. *)
Theorem SaveReport_writes_serialized_bytes h report (s : ReportSerializer)
    filePath (fs : FS) :
  (∀ data e, Serialize s h report = (data, Some e) →
     SaveReport h report (Some s) filePath fs = Some (fs, Some e))
  ∧ (∀ data, Serialize s h report = (data, None) →
       SaveReport h report (Some s) filePath fs
       = Some (os_WriteFile filePath data mode_0o600 fs))
  ∧ (∀ i, Z.testbit mode_0o600 i = true ↔ i = 7 ∨ i = 8).
Proof.
  repeat split.
  - intros data e Hs. unfold SaveReport. by rewrite Hs.
  - intros data Hs. unfold SaveReport. by rewrite Hs.
  - intros Hi. assert (0 <= i < 10).
    { destruct (Z.leb_spec 0 i); [|by rewrite Z.testbit_neg_r in Hi].
      destruct (Z.ltb_spec i 10) as [|Hge]; [done|].
      rewrite (Z.bits_above_log2 mode_0o600 i) in Hi; [done | done |].
      eapply Z.lt_le_trans; [|exact Hge]. by vm_compute. }
    assert (i = 0 ∨ i = 1 ∨ i = 2 ∨ i = 3 ∨ i = 4 ∨ i = 5 ∨ i = 6 ∨ i = 7 ∨ i = 8
            ∨ i = 9) as Hcases by lia.
    repeat (destruct Hcases as [->|Hcases]; [by (vm_compute in Hi; auto)|]).
    subst. by vm_compute in Hi.
  - by intros [->| ->].
Qed.

(** ** The file path *)

Lemma ToLower_ascii s : all_ascii s = true → ToLower s = map_string lower_ascii s.
Proof. intros Hs. unfold ToLower. by rewrite Hs. Qed.

(** C6. For a recognized format, [SaveReportBasedOnType] saves with
    the serializer of that format at the path made of the report
    name, a dot and the lower-cased format identifier; when the
    serializer succeeds, that is the path handed to [os.WriteFile]. *)
Theorem SaveReportBasedOnType_file_path h report format reportName (fs : FS) :
  format = JSONFormat ∨ format = XMLFormat →
  ∃ s, GetSerializer format = (Some s, None)
       ∧ SaveReportBasedOnType h report format reportName fs
         = SaveReport h report (Some s) (reportName ++ "." ++ ToLower format)%string fs
       ∧ (∀ data, Serialize s h report = (data, None) →
            SaveReportBasedOnType h report format reportName fs
            = Some (os_WriteFile (reportName ++ "." ++ ToLower format)%string data
                      mode_0o600 fs))
       ∧ (all_ascii format = true → ToLower format = map_string lower_ascii format).
Proof.
  intros Hf.
  assert (Hs : ∃ s, GetSerializer format = (Some s, None)).
  { unfold GetSerializer. destruct Hf as [->| ->].
    - rewrite String.eqb_refl. by eexists.
    - destruct (String.eqb XMLFormat JSONFormat); [by eexists|].
      rewrite String.eqb_refl. by eexists. }
  destruct Hs as [s Hs]. exists s. split; [done|].
  unfold SaveReportBasedOnType. rewrite Hs. split; [done|].
  split; [|apply ToLower_ascii].
  intros data Hdata. unfold SaveReport. by rewrite Hdata.
Qed.

End SerializationFacts.

Lemma GetSerializer_recognizes_two_formats_witness :
  GetSerializer demo_time demo_xml demo_quote "JSON" "XML" "yaml"
  = (None, Some (errors_New "unsupported report format"))
  ∧ GetSerializer demo_time demo_xml demo_quote "JSON" "XML" "XML"
    = (Some (XMLSerializer demo_xml), None).
Proof.
  destruct (GetSerializer_recognizes_two_formats demo_time demo_xml demo_quote
              "JSON" "XML" "yaml") as (_ & _ & Hother & _); [discriminate|].
  destruct (GetSerializer_recognizes_two_formats demo_time demo_xml demo_quote
              "JSON" "XML" "XML") as (_ & Hxml & _); [discriminate|].
  split; [apply Hother; discriminate | by apply Hxml].
Defined.

Lemma SaveReportBasedOnType_file_path_witness :
  ∃ data,
    SaveReportBasedOnType demo_time demo_xml demo_quote "JSON" "XML" demo_lower
      demo_fs demo_write smoke_heap (Some 1%positive) "JSON" "smoke" None
    = Some (Some ("smoke.json"%string, data, 384), None).
Proof.
  destruct (SaveReportBasedOnType_file_path demo_time demo_xml demo_quote "JSON" "XML"
              demo_lower demo_write smoke_heap (Some 1%positive) "JSON" "smoke" None)
    as (s & Hs & _ & Hwrite & _); [by left|].
  change (GetSerializer demo_time demo_xml demo_quote "JSON" "XML" "JSON")
    with (Some (JSONSerializer demo_time demo_quote), @None error) in Hs.
  injection Hs as <-.
  destruct (Serialize (JSONSerializer demo_time demo_quote) smoke_heap (Some 1%positive))
    as [data [e|]] eqn:E; [by vm_compute in E|].
  exists data. by rewrite (Hwrite data eq_refl).
Defined.

(** ** Rounding: facts *)

Section Rounding.
Import Float64.

Lemma rne_div_bounds n d :
  0 <= n → 0 < d →
  0 <= rne_div n d ∧ Z.abs (2 * (rne_div n d * d - n)) <= d.
Proof.
  intros Hn Hd. unfold rne_div.
  pose proof (Z.div_mod n d ltac:(lia)) as Hdiv.
  pose proof (Z.mod_pos_bound n d Hd) as Hmod.
  pose proof (Z.div_pos n d Hn Hd) as Hq.
  set (q := n / d) in *. set (r := n mod d) in *.
  destruct (Z.compare_spec (2 * r) d); [destruct (Z.even q)| |]; split; nia.
Qed.

Lemma rne_div_lower n d K : 0 < d → K * d <= n → K <= rne_div n d.
Proof.
  intros Hd HK. unfold rne_div.
  assert (K <= n / d) by (apply Z.div_le_lower_bound; lia).
  destruct (2 * (n mod d) ?= d); [destruct (Z.even (n / d))| |]; lia.
Qed.

Lemma pow2_pos e : (0 < pow2 e)%Q.
Proof. apply Qpower_0_lt. reflexivity. Qed.

Lemma pow2_add a b : (pow2 (a + b) == pow2 a * pow2 b)%Q.
Proof. apply Qpower_plus. discriminate. Qed.

Lemma pow2_le a b : a <= b → (pow2 a <= pow2 b)%Q.
Proof. intros H. apply Qpower_le_compat_l; [done | discriminate]. Qed.

Lemma pow2_lt a b : a < b → (pow2 a < pow2 b)%Q.
Proof. intros H. apply Qpower_lt_compat_l; [done | reflexivity]. Qed.

Lemma pow2_lt_inv a b : (pow2 a < pow2 b)%Q → a < b.
Proof.
  intros H. destruct (Z.lt_ge_cases a b) as [|Hge]; [done|].
  apply pow2_le in Hge. exfalso. revert H. by apply Qle_not_lt.
Qed.

Lemma pow2_inject n : 0 <= n → (inject_Z (2 ^ n) == pow2 n)%Q.
Proof. intros Hn. by apply Zpower_Qpower. Qed.

Lemma pow2_opp e : (pow2 (- e) * pow2 e == 1)%Q.
Proof. rewrite <- pow2_add. by replace (- e + e) with 0 by lia. Qed.

Lemma inject_Z_pos z : 0 < z → (0 < inject_Z z)%Q.
Proof. intros Hz. change (inject_Z 0 < inject_Z z)%Q. by rewrite <- Zlt_Qlt. Qed.

Lemma inject_Z_nonneg z : 0 <= z → (0 <= inject_Z z)%Q.
Proof. intros Hz. change (inject_Z 0 <= inject_Z z)%Q. by rewrite <- Zle_Qle. Qed.

Lemma log2_bounds n :
  0 < n → (pow2 (Z.log2 n) <= inject_Z n)%Q ∧ (inject_Z n < pow2 (Z.log2 n + 1))%Q.
Proof.
  intros Hn. destruct (Z.log2_spec n Hn) as [Hlo Hhi].
  pose proof (Z.log2_nonneg n) as Hnn.
  rewrite <- !pow2_inject by lia. rewrite <- Zle_Qle, <- Zlt_Qlt.
  split; [done|]. by replace (Z.log2 n + 1) with (Z.succ (Z.log2 n)) by lia.
Qed.

Lemma ilog2_ratio_spec n d :
  0 < n → 0 < d →
  (inject_Z d * pow2 (ilog2_ratio n d) <= inject_Z n)%Q
  ∧ (inject_Z n < inject_Z d * pow2 (ilog2_ratio n d + 1))%Q.
Proof.
  intros Hn Hd. unfold ilog2_ratio.
  destruct (log2_bounds n Hn) as [Hna Hna'].
  destruct (log2_bounds d Hd) as [Hdb Hdb'].
  set (a := Z.log2 n) in *. set (b := Z.log2 d) in *. set (k := a - b).
  set (N := inject_Z n) in *. set (D := inject_Z d) in *.
  assert (HD : (0 < D)%Q) by (by apply inject_Z_pos).
  pose proof (pow2_pos k) as Pk. pose proof (pow2_pos (k - 1)) as Pk1.
  pose proof (pow2_pos (k + 1)) as Pk2. pose proof (pow2_pos (- k)) as Pnk.
  pose proof (pow2_opp k) as Hopp.
  assert (E1 : (pow2 k * pow2 b == pow2 a)%Q)
    by (rewrite <- pow2_add; by replace (k + b) with a by lia).
  assert (E2 : (pow2 (k + 1) * pow2 b == pow2 (a + 1))%Q)
    by (rewrite <- pow2_add; by replace (k + 1 + b) with (a + 1) by lia).
  assert (E3 : (pow2 (k - 1) * pow2 (b + 1) == pow2 a)%Q)
    by (rewrite <- pow2_add; by replace (k - 1 + (b + 1)) with a by lia).
  set (below := if 0 <=? k then n <? d * 2 ^ k else n * 2 ^ (- k) <? d).
  assert (Hbelow : if below then (N < D * pow2 k)%Q else (D * pow2 k <= N)%Q).
  { subst below. destruct (Z.leb_spec 0 k) as [Hk|Hk].
    - destruct (Z.ltb_spec n (d * 2 ^ k)) as [H|H].
      + rewrite Zlt_Qlt in H. rewrite inject_Z_mult, pow2_inject in H by done. exact H.
      + rewrite Zle_Qle in H. rewrite inject_Z_mult, pow2_inject in H by done. exact H.
    - destruct (Z.ltb_spec (n * 2 ^ (- k)) d) as [H|H].
      + rewrite Zlt_Qlt in H. rewrite inject_Z_mult, pow2_inject in H by lia.
        fold N D in H. nra.
      + rewrite Zle_Qle in H. rewrite inject_Z_mult, pow2_inject in H by lia.
        fold N D in H. nra. }
  destruct below.
  - replace (k - 1 + 1) with k by lia. split; [nra | done].
  - split; [done | nra].
Qed.

(** Rounding a ratio in the normal range below 2^52: the result is
    finite, has a full significand, and is within half a unit in the
    last place, which is at most the ratio times 2^-52. *)
Lemma round64_normal neg n d (x : Q) :
  0 < n → 0 < d → n < d * 2 ^ 52 → d <= n * 2 ^ 1022 →
  (x * inject_Z d == inject_Z n)%Q →
  ∃ m e, round64 neg n d = FFin neg m e ∧ e < 0 ∧ 2 ^ 52 <= m
         ∧ m = rne_div (n * 2 ^ (- e)) d
         ∧ (inject_Z m * pow2 e - x <= pow2 e * (1 # 2))%Q
         ∧ (x - inject_Z m * pow2 e <= pow2 e * (1 # 2))%Q
         ∧ (pow2 e * pow2 52 <= x)%Q.
Proof.
  intros Hn Hd Hhi Hlo Hx.
  destruct (ilog2_ratio_spec n d Hn Hd) as [Hk1 Hk2].
  set (k := ilog2_ratio n d) in *.
  set (N := inject_Z n) in *. set (D := inject_Z d) in *.
  assert (HD : (0 < D)%Q) by (by apply inject_Z_pos).
  pose proof (pow2_pos k) as Pk. pose proof (pow2_pos (k + 1)) as Pk1.
  rewrite Zlt_Qlt, inject_Z_mult, pow2_inject in Hhi by done.
  rewrite Zle_Qle, inject_Z_mult, pow2_inject in Hlo by done.
  fold N D in Hhi, Hlo.
  assert (Hk52 : k < 52).
  { apply pow2_lt_inv. pose proof (pow2_pos 52). nra. }
  assert (Hk1022 : -1022 <= k).
  { assert (0 < k + 1 + 1022); [|lia]. apply pow2_lt_inv.
    rewrite pow2_add. change (pow2 0) with 1%Q.
    pose proof (pow2_pos 1022). nra. }
  set (e := k - 52).
  assert (He : Z.max (k - 52) (-1074) = e) by lia.
  pose proof (pow2_pos e) as Pe. pose proof (pow2_pos (- e)) as Pne.
  pose proof (pow2_opp e) as Hopp.
  assert (Hke : (pow2 k == pow2 e * pow2 52)%Q)
    by (rewrite <- pow2_add; by replace (e + 52) with k by lia).
  set (m := rne_div (n * 2 ^ (- e)) d).
  assert (Hm52 : 2 ^ 52 <= m).
  { apply rne_div_lower; [done|].
    rewrite Zle_Qle, !inject_Z_mult, !pow2_inject by lia. fold N D.
    assert (H1 : (D * pow2 k * pow2 (- e) <= N * pow2 (- e))%Q)
      by (apply Qmult_le_compat_r; [done | by apply Qlt_le_weak]).
    assert (H2 : (D * pow2 k * pow2 (- e) == pow2 52 * D)%Q).
    { rewrite Hke. transitivity (pow2 52 * D * (pow2 (- e) * pow2 e))%Q; [ring|].
      rewrite Hopp. ring. }
    by rewrite <- H2. }
  destruct (rne_div_bounds (n * 2 ^ (- e)) d) as [_ Habs]; [|done|].
  { apply Z.mul_nonneg_nonneg; [lia | apply Z.pow_nonneg; lia]. }
  fold m in Habs.
  assert (Hup : 2 * (m * d - n * 2 ^ (- e)) <= d) by lia.
  assert (Hdn : - d <= 2 * (m * d - n * 2 ^ (- e))) by lia.
  rewrite Zle_Qle in Hup, Hdn. unfold Z.sub in Hup, Hdn.
  rewrite inject_Z_mult, inject_Z_plus, inject_Z_opp, !inject_Z_mult in Hup.
  rewrite inject_Z_opp, inject_Z_mult, inject_Z_plus, inject_Z_opp, !inject_Z_mult in Hdn.
  rewrite pow2_inject in Hup, Hdn by lia.
  fold N D in Hup, Hdn. set (M := inject_Z m) in *.
  exists m, e. split.
  { unfold round64. fold k. rewrite He.
    destruct (Z.eqb_spec n 0); [lia|].
    destruct (Z.leb_spec 0 e); [lia|]. reflexivity. }
  split; [lia|]. split; [done|]. split; [done|]. fold M.
  assert (Heq : (inject_Z 2 * (M * D + - (N * pow2 (- e))) * pow2 e
                 == 2 * (M * pow2 e * D) - 2 * N * (pow2 (- e) * pow2 e))%Q)
    by (change (inject_Z 2) with 2%Q; ring).
  rewrite Hopp in Heq.
  assert (Hv1 : (2 * (M * pow2 e * D - N) <= pow2 e * D)%Q).
  { apply (Qmult_le_compat_r _ _ (pow2 e)) in Hup; [|by apply Qlt_le_weak].
    rewrite Heq in Hup. lra. }
  assert (Hv2 : (- (pow2 e * D) <= 2 * (M * pow2 e * D - N))%Q).
  { apply (Qmult_le_compat_r _ _ (pow2 e)) in Hdn; [|by apply Qlt_le_weak].
    rewrite Heq in Hdn. lra. }
  clear Hup Hdn Heq Habs Hm52. clearbody M N D.
  repeat split.
  - rewrite <- (Qmult_le_r _ _ D HD). nra.
  - rewrite <- (Qmult_le_r _ _ D HD). nra.
  - rewrite <- Hke. rewrite <- (Qmult_le_r _ _ D HD). nra.
Qed.

Lemma rne_div_1 n : rne_div n 1 = n.
Proof. unfold rne_div. rewrite Z.mod_1_r, Z.div_1_r. reflexivity. Qed.

Lemma value_zero neg e : (value neg 0 e == 0)%Q.
Proof. unfold value. destruct neg; apply Qmult_0_l. Qed.

(** [float64(z)] is exact for an integer below 2^52 in magnitude. *)
Lemma of_int_exact z :
  Z.abs z < 2 ^ 52 →
  ∃ m e, of_int z = FFin (z <? 0) m e ∧ 0 <= m ∧ e <= 0 ∧ (z ≠ 0 → 2 ^ 52 <= m ∧ e < 0)
         ∧ (m = 0 ↔ z = 0)
         ∧ (inject_Z m * pow2 e == inject_Z (Z.abs z))%Q.
Proof.
  intros Hz. destruct (Z.eq_dec z 0) as [->|Hne].
  - exists 0, 0. cbn. repeat split; try done. 
  - destruct (round64_normal (z <? 0) (Z.abs z) 1 (inject_Z (Z.abs z)))
      as (m & e & Hr & He & Hm & Hdef & _); try lia.
    { ring. }
    exists m, e. split; [exact Hr|]. split; [lia|]. split; [lia|]. split; [done|].
    split; [lia|].
    rewrite Hdef, rne_div_1, inject_Z_mult, pow2_inject by lia.
    rewrite <- Qmult_assoc, pow2_opp. ring.
Qed.

Lemma inject_shift m t e0 ex :
  0 <= t → t = ex - e0 →
  (inject_Z (m * 2 ^ t) == inject_Z m * pow2 ex * pow2 (- e0))%Q.
Proof.
  intros Ht ->. rewrite inject_Z_mult, pow2_inject by done.
  replace (ex - e0) with (ex + - e0) by lia. rewrite pow2_add. ring.
Qed.

(** The quotient of two finite non-zero values whose ratio lies in the
    normal range below 2^52. *)
Lemma fdiv_normal sx mx ex sy my ey :
  0 < mx → 0 < my →
  let X := (inject_Z mx * pow2 ex)%Q in
  let Y := (inject_Z my * pow2 ey)%Q in
  (X < Y * pow2 52)%Q → (Y <= X * pow2 1022)%Q →
  ∃ m e, fdiv (FFin sx mx ex) (FFin sy my ey) = FFin (xorb sx sy) m e
         ∧ e < 0 ∧ 2 ^ 52 <= m
         ∧ (inject_Z m * pow2 e - X / Y <= pow2 e * (1 # 2))%Q
         ∧ (X / Y - inject_Z m * pow2 e <= pow2 e * (1 # 2))%Q
         ∧ (pow2 e * pow2 52 <= X / Y)%Q.
Proof.
  intros Hmx Hmy X Y Hhi Hlo. unfold fdiv.
  destruct (Z.eqb_spec my 0); [lia|]. destruct (Z.eqb_spec mx 0); [lia|].
  set (e0 := Z.min ex ey).
  pose proof (inject_shift mx (ex - e0) e0 ex ltac:(lia) eq_refl) as HN.
  pose proof (inject_shift my (ey - e0) e0 ey ltac:(lia) eq_refl) as HD.
  fold X in HN. fold Y in HD.
  pose proof (pow2_pos (- e0)) as P0. pose proof (pow2_pos ey) as Py.
  pose proof (pow2_pos ex) as Px.
  assert (HY : (0 < Y)%Q).
  { subst Y. pose proof (inject_Z_pos my Hmy). nra. }
  assert (HX : (0 < X)%Q).
  { subst X. pose proof (inject_Z_pos mx Hmx). nra. }
  assert (Hn : 0 < mx * 2 ^ (ex - e0)) by (apply Z.mul_pos_pos; [done | apply Z.pow_pos_nonneg; lia]).
  assert (Hd : 0 < my * 2 ^ (ey - e0)) by (apply Z.mul_pos_pos; [done | apply Z.pow_pos_nonneg; lia]).
  destruct (round64_normal (xorb sx sy) (mx * 2 ^ (ex - e0)) (my * 2 ^ (ey - e0)) (X / Y)%Q)
    as (m & e & Hr & He & Hm & _ & H1 & H2 & H3); try done.
  - rewrite Zlt_Qlt, (inject_Z_mult (my * _) (2 ^ 52)), HN, HD, pow2_inject by done.
    pose proof (pow2_pos 52). clearbody X Y. nra.
  - rewrite Zle_Qle, (inject_Z_mult (mx * _) (2 ^ 1022)), HN, HD, pow2_inject by done.
    pose proof (pow2_pos 1022). clearbody X Y. nra.
  - rewrite HN, HD. clearbody X Y. field. intros HY0. rewrite HY0 in HY. by apply Qlt_irrefl in HY.
  - by exists m, e.
Qed.

Lemma signed_mul b m k : signed b (m * k) = signed b m * k.
Proof. destruct b; cbn; lia. Qed.

Lemma inject_abs z : (inject_Z (Z.abs z) == Qabs (inject_Z z))%Q.
Proof. apply (Zabs_Qabs z 1). Qed.

(** The sum of two finite values, when it is not zero and lies in the
    normal range below 2^52. *)
Lemma fadd_normal sx mx ex sy my ey :
  Z.min ex ey < 0 →
  let S := (value sx mx ex + value sy my ey)%Q in
  ¬ (S == 0)%Q → (Qabs S < pow2 52)%Q → (pow2 (-1022) <= Qabs S)%Q →
  ∃ neg m e, fadd (FFin sx mx ex) (FFin sy my ey) = FFin neg m e
             ∧ (neg = true ↔ (S < 0)%Q) ∧ e < 0 ∧ 2 ^ 52 <= m
             ∧ (inject_Z m * pow2 e - Qabs S <= pow2 e * (1 # 2))%Q
             ∧ (Qabs S - inject_Z m * pow2 e <= pow2 e * (1 # 2))%Q
             ∧ (pow2 e * pow2 52 <= Qabs S)%Q.
Proof.
  intros He0 S HS0 Hhi Hlo. unfold fadd.
  set (e0 := Z.min ex ey) in *.
  set (s := signed sx (mx * 2 ^ (ex - e0)) + signed sy (my * 2 ^ (ey - e0))).
  pose proof (pow2_pos (- e0)) as P0.
  assert (Hs : (inject_Z s == S * pow2 (- e0))%Q).
  { subst s S. unfold value. rewrite inject_Z_plus, !signed_mul.
    rewrite (inject_shift _ (ex - e0) e0 ex), (inject_shift _ (ey - e0) e0 ey) by lia.
    ring. }
  assert (Habs : (inject_Z (Z.abs s) == Qabs S * pow2 (- e0))%Q).
  { rewrite inject_abs, Hs, Qabs_Qmult. rewrite (Qabs_pos (pow2 (- e0))); [done|].
    by apply Qlt_le_weak. }
  assert (Hsne : s ≠ 0).
  { intros Hs0. rewrite Hs0 in Hs. apply HS0.
    assert (H : (S * pow2 (- e0) == 0)%Q) by (by rewrite <- Hs).
    apply Qmult_integral in H as [H|H]; [done|].
    rewrite H in P0. by apply Qlt_irrefl in P0. }
  destruct (Z.eqb_spec s 0); [done|]. destruct (Z.leb_spec 0 e0); [lia|].
  assert (Hp : 0 < 2 ^ (- e0)) by (apply Z.pow_pos_nonneg; lia).
  destruct (round64_normal (s <? 0) (Z.abs s) (2 ^ (- e0)) (Qabs S))
    as (m & e & Hr & He & Hm & _ & H1 & H2 & H3); try done; try lia.
  - rewrite Zlt_Qlt, inject_Z_mult, Habs, !pow2_inject by lia.
    pose proof (pow2_pos 52). clearbody S. nra.
  - rewrite Zle_Qle, inject_Z_mult, Habs, !pow2_inject by lia.
    pose proof (pow2_pos 1022).
    assert (Hopp : (pow2 (-1022) * pow2 1022 == 1)%Q) by apply (pow2_opp 1022).
    clearbody S. assert (1 <= Qabs S * pow2 1022)%Q by nra. nra.
  - rewrite Habs, pow2_inject by lia. reflexivity.
  - exists (s <? 0), m, e. split; [done|]. split; [|done].
    rewrite Z.ltb_lt, Zlt_Qlt, Hs. change (inject_Z 0) with 0%Q.
    clearbody S. split; intros; nra.
Qed.

Lemma value_abs neg m e :
  0 <= m → (Qabs (value neg m e) == inject_Z m * pow2 e)%Q.
Proof.
  intros Hm. unfold value. rewrite Qabs_Qmult.
  rewrite (Qabs_pos (pow2 e)) by (apply Qlt_le_weak, pow2_pos).
  rewrite <- inject_abs. by destruct neg; cbn [signed]; rewrite ?Z.abs_opp, Z.abs_eq.
Qed.

Lemma of_int_value z :
  Z.abs z < 2 ^ 52 →
  ∃ m e, of_int z = FFin (z <? 0) m e ∧ 0 <= m ∧ e <= 0 ∧ (z ≠ 0 → 0 < m ∧ e < 0)
         ∧ (value (z <? 0) m e == inject_Z z)%Q.
Proof.
  intros Hz. destruct (of_int_exact z Hz) as (m & e & Hr & Hm & He & Hnz & _ & Hv).
  exists m, e. split; [done|]. split; [done|]. split; [done|].
  split; [intros H; specialize (Hnz H); lia|].
  unfold value. destruct (Z.ltb_spec z 0); cbn [signed].
  - rewrite Z.abs_neq in Hv by lia. rewrite !inject_Z_opp in *.
    transitivity (- (inject_Z m * pow2 e))%Q; [ring|]. rewrite Hv. ring.
  - by rewrite Z.abs_eq in Hv by lia.
Qed.


Lemma pow2_52 : (pow2 52 == 4503599627370496)%Q.
Proof. reflexivity. Qed.

(** [float64(nsec)/1e9] for a nanosecond remainder: a finite value
    within relative error 2^-53 of [nsec / 10^9]. *)
Lemma nsec_quotient nsec :
  Z.abs nsec < 1000000000 →
  ∃ neg m e, fdiv (of_int nsec) (of_int 1000000000) = FFin neg m e
             ∧ 0 <= m ∧ e <= 0 ∧ (nsec ≠ 0 → e < 0)
             ∧ let v := value neg m e in
               let x := (inject_Z nsec / 1000000000)%Q in
               (v - x <= ulp53 * Qabs x)%Q ∧ (x - v <= ulp53 * Qabs x)%Q.
Proof.
  intros Hn.
  destruct (of_int_value nsec) as (mn & en & Hrn & Hmn & Hen & Hnz & Hvn); [lia|].
  destruct (of_int_value 1000000000) as (mc & ec & Hrc & Hmc & Hec & Hcz & Hvc); [lia|].
  destruct Hcz as [Hmc' Hec']; [done|].
  rewrite Hrn, Hrc. change (1000000000 <? 0) with false in *.
  destruct (Z.eq_dec nsec 0) as [->|Hne].
  - assert (mn = 0) as ->.
    { revert Hrn. by intros [= <- _]. }
    exists false, 0, 0. split.
    { unfold fdiv. destruct (Z.eqb_spec mc 0); [lia|]. reflexivity. }
    repeat split; try done.
  - destruct (Hnz Hne) as [Hmn' Hen'].
    set (X := (inject_Z mn * pow2 en)%Q) in *.
    set (Y := (inject_Z mc * pow2 ec)%Q) in *.
    assert (HX : (X == Qabs (inject_Z nsec))%Q).
    { subst X. rewrite <- (value_abs (nsec <? 0) mn en) by done. by rewrite Hvn. }
    assert (HY : (Y == 1000000000)%Q).
    { subst Y. unfold value in Hvc. cbn [signed] in Hvc. exact Hvc. }
    assert (Hx1 : (1 <= X)%Q).
    { rewrite HX, <- inject_abs. change 1%Q with (inject_Z 1). rewrite <- Zle_Qle. lia. }
    assert (Hx2 : (X < 1000000000)%Q).
    { rewrite HX, <- inject_abs. change 1000000000%Q with (inject_Z 1000000000).
      by rewrite <- Zlt_Qlt. }
    destruct (fdiv_normal (nsec <? 0) mn en false mc ec Hmn' Hmc')
      as (m & e & Hr & He & Hm & H1 & H2 & H3).
    { fold X Y. rewrite HY, pow2_52. lra. }
    { fold X Y. rewrite HY.
      assert (1 <= pow2 1022)%Q by (apply (pow2_le 0 1022); lia).
      assert (Hle : (pow2 30 <= pow2 1022)%Q) by (apply pow2_le; lia).
      assert (Hp30 : (pow2 30 == 1073741824)%Q) by reflexivity.
      rewrite Hp30 in Hle. nra. }
    fold X Y in H1, H2, H3.
    exists (xorb (nsec <? 0) false), m, e. split; [done|].
    split; [lia|]. split; [lia|]. split; [lia|].
    rewrite xorb_false_r. cbn zeta.
    assert (Ha : (X / Y == Qabs (inject_Z nsec / 1000000000))%Q).
    { rewrite HX, HY. unfold Qdiv. rewrite Qabs_Qmult. reflexivity. }
    rewrite Ha, pow2_52 in *. clear Ha HX HY Hx1 Hx2 Hvn Hvc. clearbody X Y.
    set (x := (inject_Z nsec / 1000000000)%Q) in *.
    pose proof (pow2_pos e) as Pe. unfold ulp53, value.
    destruct (Z.ltb_spec nsec 0) as [Hneg|Hpos]; cbn [signed].
    + assert (Hx : (x <= 0)%Q).
      { subst x. apply Qle_shift_div_r; [reflexivity|]. rewrite Qmult_0_l.
        change 0%Q with (inject_Z 0). rewrite <- Zle_Qle. lia. }
      rewrite (Qabs_neg _ Hx) in *. rewrite inject_Z_opp. clearbody x. split; nra.
    + assert (Hx : (0 <= x)%Q).
      { subst x. apply Qle_shift_div_l; [reflexivity|]. rewrite Qmult_0_l.
        change 0%Q with (inject_Z 0). rewrite <- Zle_Qle. lia. }
      rewrite (Qabs_pos _ Hx) in *. clearbody x. split; nra.
Qed.

Ltac qconst :=
  repeat match goal with
  | H : context [inject_Z (Zpos ?p)] |- _ => change (inject_Z (Zpos p)) with (Zpos p # 1) in H
  | H : context [inject_Z (Zneg ?p)] |- _ => change (inject_Z (Zneg p)) with (Zneg p # 1) in H
  | H : context [inject_Z 0] |- _ => change (inject_Z 0) with 0%Q in H
  | |- context [inject_Z (Zpos ?p)] => change (inject_Z (Zpos p)) with (Zpos p # 1)
  | |- context [inject_Z (Zneg ?p)] => change (inject_Z (Zneg p)) with (Zneg p # 1)
  | |- context [inject_Z 0] => change (inject_Z 0) with 0%Q
  end.


Lemma pow2_m1022_small : (pow2 (-1022) <= 1 # 1000000000000)%Q.
Proof.
  apply Qle_trans with (pow2 (-60)); [apply pow2_le; lia|]. by vm_compute.
Qed.

(** [d.Seconds()] is a finite value with the sign of [d], within
    1.025e-6 of [d / 10^9]. *)
Lemma Seconds_accuracy d :
  GoInt.in_int64 d →
  ∃ m e, time.Seconds d = FFin (d <? 0) m e ∧ 0 <= m ∧ e <= 0
         ∧ let v := (inject_Z m * pow2 e)%Q in
           let a := (inject_Z (Z.abs d) * (1 # 1000000000))%Q in
           (v - a <= seconds_error)%Q ∧ (a - v <= seconds_error)%Q.
Proof.
  intros Hd. unfold GoInt.in_int64, GoInt.minInt64, GoInt.maxInt64 in Hd.
  destruct (Z.eq_dec d 0) as [->|Hd0].
  { exists 0, 0. split; [by vm_compute|]. split; [done|]. split; [done|]. by vm_compute. }
  unfold time.Seconds, time.Second.
  pose proof (Z.quot_rem' d 1000000000) as Hqr.
  set (sec := Z.quot d 1000000000) in *. set (nsec := Z.rem d 1000000000) in *.
  assert (Hsign : (0 < d ∧ 0 <= sec ∧ 0 <= nsec < 1000000000)
                  ∨ (d < 0 ∧ sec <= 0 ∧ -1000000000 < nsec <= 0)).
  { destruct (Z.lt_trichotomy d 0) as [H|[H|H]]; [right|done|left].
    - pose proof (Z.rem_bound_pos_neg d 1000000000 ltac:(lia) ltac:(lia)) as Hb.
      fold nsec in Hb. lia.
    - pose proof (Z.rem_bound_pos_pos d 1000000000 ltac:(lia) ltac:(lia)) as Hb.
      fold nsec in Hb. lia. }
  destruct (of_int_value sec) as (ms & es & Hrs & Hms & Hes & Hsz & Hvs); [lia|].
  destruct (nsec_quotient nsec) as (nb & mb & eb & Hrb & Hmb & Heb & Hbz & Hb1 & Hb2); [lia|].
  cbn zeta in Hb1, Hb2. rewrite Hrs, Hrb.
  set (x := (inject_Z nsec / 1000000000)%Q) in *.
  set (vB := value nb mb eb) in *.
  assert (HdQ : (inject_Z d == 1000000000 * inject_Z sec + inject_Z nsec)%Q).
  { rewrite Hqr at 1. rewrite inject_Z_plus, inject_Z_mult. reflexivity. }
  assert (Hx : (x * 1000000000 == inject_Z nsec)%Q) by (subst x; field).
  assert (Hmin : Z.min es eb < 0).
  { destruct (Z.eq_dec nsec 0) as [Hn0|Hn0]; [|specialize (Hbz Hn0); lia].
    assert (sec ≠ 0) as Hs0 by lia. specialize (Hsz Hs0). lia. }
  pose proof pow2_m1022_small as Htiny. pose proof pow2_52 as H52.
  set (S := (value (sec <? 0) ms es + vB)%Q).
  assert (HS : (S == inject_Z sec + vB)%Q) by (subst S; by rewrite Hvs).
  destruct Hsign as [(Hdpos & Hs & Hn)|(Hdneg & Hs & Hn)].
  - assert (Hcases : 1 <= sec ∨ (sec = 0 ∧ 1 <= nsec)) by lia.
    assert (Hsmax : sec <= 9223372036) by lia.
    assert (Hnmax : nsec <= 999999999) by lia.
    rewrite Zle_Qle in Hs, Hsmax, Hnmax. destruct Hn as [Hn _]. rewrite Zle_Qle in Hn.
    assert (Hcases' : (1 <= inject_Z sec)%Q ∨ (inject_Z sec == 0 ∧ 1 <= inject_Z nsec)%Q).
    { destruct Hcases as [H|[-> H]]; rewrite Zle_Qle in H; [by left | by right]. }
    qconst.
    assert (Hxpos : (0 <= x)%Q) by lra.
    rewrite (Qabs_pos x Hxpos) in Hb1, Hb2. unfold ulp53 in *.
    assert (HSpos : (1 # 1000000000000 <= S)%Q) by (destruct Hcases' as [?|[? ?]]; lra).
    assert (HSabs : (Qabs S == S)%Q) by (apply Qabs_pos; lra).
    destruct (fadd_normal (sec <? 0) ms es nb mb eb Hmin)
      as (neg & m & e & Hr & Hneg & He & Hm & H1 & H2 & H3).
    + fold vB S. intros H0. lra.
    + fold vB S. rewrite HSabs, H52. lra.
    + fold vB S. rewrite HSabs. lra.
    + fold vB S in Hneg, H1, H2, H3. rewrite HSabs, ?H52 in *.
      exists m, e. split.
      { rewrite Hr. f_equal. destruct (Z.ltb_spec d 0); [lia|].
        destruct neg; [|done]. destruct Hneg as [Hneg _]. specialize (Hneg eq_refl). lra. }
      split; [lia|]. split; [lia|]. cbn zeta. rewrite Z.abs_eq by lia. rewrite HdQ.
      unfold seconds_error. pose proof (pow2_pos e). clearbody S x vB. split; lra.
  - assert (Hcases : sec <= -1 ∨ (sec = 0 ∧ nsec <= -1)) by lia.
    assert (Hsmin : -9223372036 <= sec) by lia.
    assert (Hnmin : -999999999 <= nsec) by lia.
    rewrite Zle_Qle in Hs, Hsmin, Hnmin. destruct Hn as [_ Hn]. rewrite Zle_Qle in Hn.
    assert (Hcases' : (inject_Z sec <= -1)%Q ∨ (inject_Z sec == 0 ∧ inject_Z nsec <= -1)%Q).
    { destruct Hcases as [H|[-> H]]; rewrite Zle_Qle in H; [by left | by right]. }
    qconst.
    assert (Hxneg : (x <= 0)%Q) by lra.
    rewrite (Qabs_neg x Hxneg) in Hb1, Hb2. unfold ulp53 in *.
    assert (HSneg : (S <= - (1 # 1000000000000))%Q) by (destruct Hcases' as [?|[? ?]]; lra).
    assert (HSabs : (Qabs S == - S)%Q) by (apply Qabs_neg; lra).
    destruct (fadd_normal (sec <? 0) ms es nb mb eb Hmin)
      as (neg & m & e & Hr & Hneg & He & Hm & H1 & H2 & H3).
    + fold vB S. intros H0. lra.
    + fold vB S. rewrite HSabs, H52. lra.
    + fold vB S. rewrite HSabs. lra.
    + fold vB S in Hneg, H1, H2, H3. rewrite HSabs, ?H52 in *.
      exists m, e. split.
      { rewrite Hr. f_equal. destruct (Z.ltb_spec d 0); [|lia].
        apply Hneg. lra. }
      split; [lia|]. split; [lia|]. cbn zeta. rewrite Z.abs_neq by lia.
      rewrite inject_Z_opp, HdQ.
      unfold seconds_error. pose proof (pow2_pos e). clearbody S x vB. split; lra.
Qed.


(** The thousandths printed for a finite value are within one half of
    a thousand times the value. *)
Lemma milli_accuracy m e :
  0 <= m → e <= 0 →
  0 <= milli m e
  ∧ (2 * (inject_Z (milli m e) - 1000 * (inject_Z m * pow2 e)) <= 1)%Q
  ∧ (-1 <= 2 * (inject_Z (milli m e) - 1000 * (inject_Z m * pow2 e)))%Q.
Proof.
  intros Hm He. unfold milli. destruct (Z.leb_spec 0 e) as [H0|H0].
  - assert (e = 0) as -> by lia. change (2 ^ 0) with 1. rewrite Z.mul_1_r.
    split; [lia|]. rewrite inject_Z_mult. change (pow2 0) with 1%Q. qconst. split; lra.
  - assert (Hp : 0 < 2 ^ (- e)) by (apply Z.pow_pos_nonneg; lia).
    destruct (rne_div_bounds (m * 1000) (2 ^ (- e))) as [Hq Habs]; [lia|done|].
    set (q := rne_div (m * 1000) (2 ^ (- e))) in *. split; [done|].
    assert (Hup : 2 * (q * 2 ^ (- e) + - (m * 1000)) <= 2 ^ (- e)) by lia.
    assert (Hdn : - 2 ^ (- e) <= 2 * (q * 2 ^ (- e) + - (m * 1000))) by lia.
    rewrite Zle_Qle in Hup, Hdn.
    rewrite inject_Z_mult, inject_Z_plus, inject_Z_opp, !inject_Z_mult, pow2_inject in Hup
      by lia.
    rewrite inject_Z_opp, inject_Z_mult, inject_Z_plus, inject_Z_opp, !inject_Z_mult,
      !pow2_inject in Hdn by lia.
    qconst. pose proof (pow2_pos e) as Pe. pose proof (pow2_pos (- e)) as Pne.
    pose proof (pow2_opp e) as Hopp.
    set (Q := inject_Z q) in *. set (M := inject_Z m) in *. clearbody Q M.
    assert (Heq : ((2 * (Q * pow2 (- e) + - (M * 1000))) * pow2 e
                   == 2 * Q * (pow2 (- e) * pow2 e) - 2000 * (M * pow2 e))%Q) by ring.
    rewrite Hopp in Heq.
    apply (Qmult_le_compat_r _ _ (pow2 e)) in Hup; [|by apply Qlt_le_weak].
    apply (Qmult_le_compat_r _ _ (pow2 e)) in Hdn; [|by apply Qlt_le_weak].
    rewrite Heq in Hup, Hdn.
    assert (Hone : (- pow2 (- e) * pow2 e == -1)%Q)
      by (transitivity (- (pow2 (- e) * pow2 e))%Q; [ring | by rewrite Hopp]).
    rewrite Hone in Hdn. rewrite Hopp in Hup. split; lra.
Qed.

(** The text of [d.Seconds()] under [%.3f]: the sign of [d] and a
    number of thousandths within 501025 nanoseconds of [|d|]. *)
Lemma Seconds_thousandths d :
  GoInt.in_int64 d →
  ∃ q, 0 <= q
       ∧ Sprintf_3f (time.Seconds d) = fixed3 (d <? 0) q
       ∧ Z.abs (1000000 * q - Z.abs d) <= 501025.
Proof.
  intros Hd. destruct (Seconds_accuracy d Hd) as (m & e & Hr & Hm & He & Hv1 & Hv2).
  cbn zeta in Hv1, Hv2. destruct (milli_accuracy m e Hm He) as (Hq & Hq1 & Hq2).
  exists (milli m e). split; [done|]. split; [by rewrite Hr|].
  unfold seconds_error in *.
  set (q := milli m e) in *. set (a := Z.abs d) in *.
  assert (H1 : 1000000 * q - a <= 501025).
  { rewrite Zle_Qle. unfold Z.sub. rewrite inject_Z_plus, inject_Z_opp, inject_Z_mult.
    qconst. lra. }
  assert (H2 : - 501025 <= 1000000 * q - a).
  { rewrite Zle_Qle. unfold Z.sub. rewrite inject_Z_plus, inject_Z_opp, inject_Z_mult.
    qconst. lra. }
  lia.
Qed.

(** ** The printed text *)


Lemma uint_val_acc u : ∀ acc, uint_val (Zpos acc) u = Zpos (Pos.of_uint_acc u acc).
Proof.
  induction u; intros acc; cbn [uint_val Pos.of_uint_acc]; [done|..];
    rewrite <- IHu; f_equal; lia.
Qed.

Lemma uint_val_of_uint u : uint_val 0 u = Z.of_N (Pos.of_uint u).
Proof.
  induction u; cbn; [done|done|..]; by rewrite <- uint_val_acc.
Qed.

Lemma uint_val_to_uint n : 0 <= n → uint_val 0 (N.to_uint (Z.to_N n)) = n.
Proof.
  intros Hn. rewrite uint_val_of_uint.
  change (Pos.of_uint (N.to_uint (Z.to_N n))) with (N.of_uint (N.to_uint (Z.to_N n))).
  rewrite DecimalN.Unsigned.of_to. lia.
Qed.

Lemma read_digits_uint u : ∀ acc rest,
  read_digits acc (NilEmpty.string_of_uint u ++ rest)%string
  = read_digits (uint_val acc u) rest.
Proof. induction u; intros acc rest; [done|..]; simpl; by rewrite IHu. Qed.

Lemma digits_uint u : ∀ seen rest,
  u ≠ Decimal.Nil →
  digits_then_frac seen (NilEmpty.string_of_uint u ++ rest)%string
  = digits_then_frac true rest.
Proof.
  induction u; intros seen rest Hne; [done|..]; simpl;
    (destruct u; [done | by apply IHu ..]).
Qed.

Lemma to_uint_nonnil n : N.to_uint n ≠ Decimal.Nil.
Proof. destruct n; [done | apply DecimalPos.Unsigned.to_uint_nonnil]. Qed.

Lemma string_of_uint_NilZero u :
  u ≠ Decimal.Nil → NilZero.string_of_uint u = NilEmpty.string_of_uint u.
Proof. by destruct u. Qed.

Lemma digit_cases n :
  0 <= n < 10 →
  is_digit (digit n) = true ∧ Ascii.eqb (digit n) "-" = false
  ∧ Z.of_N (N_of_ascii (digit n)) - 48 = n.
Proof.
  intros Hn.
  assert (n = 0 ∨ n = 1 ∨ n = 2 ∨ n = 3 ∨ n = 4 ∨ n = 5 ∨ n = 6 ∨ n = 7 ∨ n = 8 ∨ n = 9)
    as Hc by lia.
  repeat (destruct Hc as [->|Hc]; [by vm_compute|]). subst. by vm_compute.
Qed.

Lemma matches_unsigned u rest :
  u ≠ Decimal.Nil →
  matches_fixed3 (NilEmpty.string_of_uint u ++ rest)%string
  = digits_then_frac false (NilEmpty.string_of_uint u ++ rest)%string.
Proof. by destruct u. Qed.

Lemma frac_digits q :
  0 <= q →
  let a := digit (q / 100 mod 10) in
  let b := digit (q / 10 mod 10) in
  let c := digit (q mod 10) in
  ∀ acc,
    digits_then_frac true ("." ++ String a (String b (String c "")))%string = true
    ∧ read_digits acc ("." ++ String a (String b (String c "")))%string
      = Some (1000 * acc + q mod 1000).
Proof.
  intros Hq a b c acc.
  destruct (digit_cases (q / 100 mod 10)) as (Ha1 & _ & Ha2); [by apply Z.mod_pos_bound|].
  destruct (digit_cases (q / 10 mod 10)) as (Hb1 & _ & Hb2); [by apply Z.mod_pos_bound|].
  destruct (digit_cases (q mod 10)) as (Hc1 & _ & Hc2); [by apply Z.mod_pos_bound|].
  fold a in Ha1, Ha2. fold b in Hb1, Hb2. fold c in Hc1, Hc2.
  change ("." ++ String a (String b (String c "")))%string
    with (String "." (String a (String b (String c "")))).
  split.
  - cbn [digits_then_frac]. change (is_digit ".") with false.
    change (Ascii.eqb "." ".") with true. cbn iota. by rewrite Ha1, Hb1, Hc1.
  - cbn [read_digits]. change (is_digit ".") with false.
    change (Ascii.eqb "." ".") with true. cbn iota. rewrite Ha1, Hb1, Hc1, Ha2, Hb2, Hc2.
    f_equal. clear. Z.div_mod_to_equations. lia.
Qed.

(** What [fixed3] prints has the shape [-?\d+\.\d{3}] and reads back
    as the same signed number of thousandths. *)
Lemma fixed3_text neg q :
  0 <= q →
  matches_fixed3 (fixed3 neg q) = true
  ∧ parse_milli (fixed3 neg q) = Some (signed neg q).
Proof.
  intros Hq. unfold fixed3, decimal.
  set (u := N.to_uint (Z.to_N (q / 1000))).
  assert (Hu : u ≠ Decimal.Nil) by apply to_uint_nonnil.
  assert (Hval : uint_val 0 u = q / 1000)
    by (apply uint_val_to_uint, Z.div_pos; lia).
  rewrite (string_of_uint_NilZero u Hu).
  set (tail := ("." ++ _)%string).
  destruct (frac_digits q Hq (q / 1000)) as [Ht1 Ht2]. fold tail in Ht1, Ht2.
  assert (Hq1000 : 1000 * (q / 1000) + q mod 1000 = q)
    by (symmetry; apply Z.div_mod; lia).
  rewrite Hq1000 in Ht2.
  assert (Hm : digits_then_frac false (NilEmpty.string_of_uint u ++ tail)%string = true)
    by (by rewrite digits_uint).
  assert (Hr : read_digits 0 (NilEmpty.string_of_uint u ++ tail)%string = Some q)
    by (by rewrite read_digits_uint, Hval).
  destruct neg.
  - change ("-" ++ NilEmpty.string_of_uint u ++ tail)%string
      with (String "-" (NilEmpty.string_of_uint u ++ tail)%string).
    unfold parse_milli. cbn [matches_fixed3]. rewrite Hm, Hr. done.
  - change ("" ++ NilEmpty.string_of_uint u ++ tail)%string
      with (NilEmpty.string_of_uint u ++ tail)%string.
    unfold parse_milli. rewrite matches_unsigned, Hm by done. split; [done|].
    cbn [signed]. rewrite <- Hr. clear -Hu. by destruct u.
Qed.

(** ** [calculateDuration] *)

Lemma sat64_range z : GoInt.in_int64 (GoInt.sat64 z).
Proof. unfold GoInt.in_int64, GoInt.sat64, GoInt.minInt64, GoInt.maxInt64. lia. Qed.

Lemma sat64_id z : GoInt.in_int64 z → GoInt.sat64 z = z.
Proof. unfold GoInt.in_int64, GoInt.sat64, GoInt.minInt64, GoInt.maxInt64. lia. Qed.

(** The two models of [Seconds] agree on the sample durations. *)
Lemma Seconds_agrees_with_SpecFloat :
  Forall (fun d => of_spec (time.Seconds_spec d) = time.Seconds d) sample_durations.
Proof. repeat constructor. Qed.

(** C3, as stated, at a start instant that was never set: the text
    for the distance from the zero instant to an instant of 2026 is that
    of the greatest [Duration], about 292 years, not of the elapsed
    time. *)
Lemma calculateDuration_saturates :
  calculateDuration time.zero in_2026 = "9223372036.855"%string
  ∧ ¬ renders_elapsed_seconds time.zero in_2026.
Proof.
  split; [by vm_compute|]. intros (v & Hv & Hb).
  vm_compute in Hv. injection Hv as <-. vm_compute in Hb. by apply Hb.
Qed.

(** C3, amended. For every pair of instants [calculateDuration] yields
    a text of the shape [-?\d+\.\d{3}], with a leading minus sign
    exactly when the end is before the start; read back, it is within
    501025 nanoseconds of the duration [end.Sub(start)], which is the
    exact distance between the instants whenever that fits a 64-bit
    count of nanoseconds, and the nearest such count otherwise. *)
Theorem calculateDuration_fixed_point start end_ :
  let d := time.Sub end_ start in
  ∃ q, 0 <= q
       ∧ calculateDuration start end_ = fixed3 (d <? 0) q
       ∧ matches_fixed3 (calculateDuration start end_) = true
       ∧ parse_milli (calculateDuration start end_) = Some (signed (d <? 0) q)
       ∧ Z.abs (1000000 * signed (d <? 0) q - d) <= 501025
       ∧ (d <? 0) = (time.elapsed end_ start <? 0)
       ∧ d = GoInt.sat64 (time.elapsed end_ start)
       ∧ (GoInt.in_int64 (time.elapsed end_ start) → d = time.elapsed end_ start).
Proof.
  intros d. assert (Hd : GoInt.in_int64 d) by apply sat64_range.
  destruct (Seconds_thousandths d Hd) as (q & Hq & Htext & Hacc).
  destruct (fixed3_text (d <? 0) q Hq) as [Hm Hp].
  exists q. unfold calculateDuration. fold d. rewrite Htext.
  repeat split; try done.
  - destruct (Z.ltb_spec d 0); cbn [signed]; lia.
  - subst d. unfold time.Sub, GoInt.sat64, GoInt.minInt64, GoInt.maxInt64.
    destruct (Z.ltb_spec (time.elapsed end_ start) 0);
      [apply Z.ltb_lt | apply Z.ltb_ge]; lia.
  - intros Hfit. by apply sat64_id.
Qed.

End Rounding.


(** ** Further properties of the store operations *)

Lemma heap_eq h h' :
  suites h' = suites h → tests h' = tests h → steps h' = steps h →
  ops h' = ops h → failures h' = failures h → h' = h.
Proof. destruct h, h'. cbn. by intros -> -> -> -> ->. Qed.

(** X1. Each constructor returns a non-nil pointer to a location that
    held nothing, and the store it leaves is the old one with the new
    object there: the name and flags given, the start time read, an end
    time and a duration not yet set, empty non-nil sequences, no
    failure, a failure count of zero. Two reports made one after the
    other are at different locations. *)
Theorem constructors_allocate_fresh now name concurrent namespace skip skipDelete
    operationType h :
  (∃ l, suites h !! l = None
        ∧ NewTests now name h
          = Ok (Some l) (with_suites (insert l (new_suite now name)) h))
  ∧ (∃ l, tests h !! l = None
          ∧ NewTest now name concurrent namespace skip skipDelete h
            = Ok (Some l)
                (with_tests
                   (insert l (new_test now name concurrent namespace skip skipDelete)) h))
  ∧ (∃ l, steps h !! l = None
          ∧ NewTestSpecStep name h
            = Ok (Some l)
                (with_steps
                   (insert l {| TestSpecStepReport.Name := name;
                                TestSpecStepReport.Results := Some [] |}) h))
  ∧ (∃ l, ops h !! l = None
          ∧ NewOperation now name operationType h
            = Ok (Some l) (with_ops (insert l (new_operation now name operationType)) h))
  ∧ (∀ l1 h1 l2 h2,
       NewTest now name concurrent namespace skip skipDelete h = Ok (Some l1) h1 →
       NewTest now name concurrent namespace skip skipDelete h1 = Ok (Some l2) h2 →
       l1 ≠ l2 ∧ tests h2 !! l1 = Some (new_test now name concurrent namespace skip skipDelete)).
Proof.
  split; [|split; [|split; [|split]]].
  - exists (fresh (dom (suites h))). split; [apply fresh_unallocated | done].
  - exists (fresh (dom (tests h))). split; [apply fresh_unallocated | done].
  - exists (fresh (dom (steps h))). split; [apply fresh_unallocated | done].
  - exists (fresh (dom (ops h))). split; [apply fresh_unallocated | done].
  - intros l1 h1 l2 h2 [= <- <-] [= <- <-]. cbn [tests with_tests].
    set (t := {| TestReport.Name := name |}).
    assert (Hne : fresh (dom (tests h)) ≠ fresh (dom (<[fresh (dom (tests h)) := t]> (tests h)))).
    { intros Heq. pose proof (fresh_unallocated (<[fresh (dom (tests h)) := t]> (tests h))) as Hf.
      rewrite <- Heq, lookup_insert_eq in Hf. discriminate. }
    split; [done|]. rewrite lookup_insert_ne by done. by rewrite lookup_insert_eq.
Qed.

(** X2. On a suite whose failure count is zero, as [NewTests] leaves
    it, and whose sequence holds only pointers to test reports, [Close]
    returns and leaves the suite with the instant read as end time, the
    formatted duration since its start time, and the number of tests
    that carry a failure as failure count; nothing else in the store
    changes. *)
Theorem Close_fresh_suite_counts_failures now h l r :
  suites h !! l = Some r →
  all_tests h (elems (TestsReport.Reports r)) →
  TestsReport.Failures r = 0 →
  Z.of_nat (length (elems (TestsReport.Reports r))) <= GoInt.maxInt64 →
  Close now (Some l) h
  = Ok tt (with_suites
             (insert l (closed_counting now
                          (failed_count h (elems (TestsReport.Reports r))) r)) h).
Proof.
  intros Hl Hall Hz Hlen.
  destruct (Close_returns now h l r Hl Hall) as (h' & Hrun & Hs & Ht & Hst & Ho & Hf).
  rewrite Hrun. f_equal. apply heap_eq; cbn [suites tests steps ops failures with_suites];
    try done.
  rewrite Hs. f_equal. unfold closed, closed_counting. f_equal.
  rewrite Hz. rewrite iter_bump_exact.
  - lia.
  - unfold GoInt.in_int64, GoInt.minInt64, GoInt.maxInt64. lia.
  - assert (failed_count h (elems (TestsReport.Reports r))
            ≤ length (elems (TestsReport.Reports r)))%nat
      by (unfold failed_count; apply length_filter).
    lia.
Qed.

Lemma Close_fresh_suite_counts_failures_witness :
  Close (at_ns 3000000) (Some 1%positive) failing_heap
  = Ok tt (with_suites
             (insert 1%positive
                (closed_counting (at_ns 3000000) 1
                   {| TestsReport.Name := "smoke";
                      TestsReport.StartTime := at_ns 0;
                      TestsReport.EndTime := time.zero;
                      TestsReport.Time := "";
                      TestsReport.Reports := Some [Some 1%positive];
                      TestsReport.Failures := 0 |})) failing_heap).
Proof.
  apply (Close_fresh_suite_counts_failures (at_ns 3000000) failing_heap 1%positive
           {| TestsReport.Name := "smoke";
              TestsReport.StartTime := at_ns 0;
              TestsReport.EndTime := time.zero;
              TestsReport.Time := "";
              TestsReport.Reports := Some [Some 1%positive];
              TestsReport.Failures := 0 |}).
  - by vm_compute.
  - constructor; [|constructor]. eexists. vm_compute. reflexivity.
  - reflexivity.
  - by vm_compute.
Defined.

Lemma bind_assoc {A B C} (m : M A) (k : A → M B) (k' : B → M C) h :
  bind (bind m k) k' h = bind m (fun a => bind (k a) k') h.
Proof. unfold bind. by destruct (m h). Qed.

Lemma bind_ext {A B} (m : M A) (k1 k2 : A → M B) h :
  (∀ a h', k1 a h' = k2 a h') → bind m k1 h = bind m k2 h.
Proof. intros Hk. unfold bind. by destruct (m h). Qed.

Lemma Close_range_app tr a : ∀ b h,
  Close_range tr (a ++ b) h = (Close_range tr a ;; Close_range tr b) h.
Proof.
  induction a as [|p rest IH]; intros b h; [done|].
  cbn [app Close_range]. rewrite bind_assoc. apply bind_ext. intros t h1.
  rewrite bind_assoc. apply bind_ext. intros [] h2. apply IH.
Qed.

Lemma Close_range_stops tr p rest h :
  deref (tests h) p = None → Close_range tr (p :: rest) h = Panic h.
Proof. intros Hp. cbn [Close_range]. unfold bind at 1, load_test, load. by rewrite Hp. Qed.

Lemma Close_range_returned_inv reports : ∀ h l r,
  suites h !! l = Some r →
  returned (Close_range (Some l) reports h) →
  all_tests h reports.
Proof.
  induction reports as [|p rest IH]; intros h l r Hl Hret; [constructor|].
  cbn [Close_range] in Hret. unfold bind at 1, load_test, load in Hret.
  destruct (deref (tests h) p) as [t|] eqn:Hp; [|done].
  constructor; [by rewrite Hp|].
  destruct (TestReport.Failure t) as [f|].
  - unfold bind at 1, modify_suite, modify in Hret. rewrite Hl in Hret.
    eapply (IH _ l) in Hret; [exact Hret|]. cbn. apply lookup_insert_eq.
  - unfold bind at 1, ret in Hret. by apply (IH h l r).
Qed.

(** X3. [Close] on an allocated suite returns exactly when every
    element of its sequence points to a test report: a nil element makes
    it panic. *)
Theorem Close_returns_iff_all_tests now h l r :
  suites h !! l = Some r →
  returned (Close now (Some l) h) ↔ all_tests h (elems (TestsReport.Reports r)).
Proof.
  intros Hl. split.
  - unfold Close. unfold bind at 1, modify_suite at 1, modify. rewrite Hl.
    set (r1 := TestsReport.set_EndTime now r). set (h1 := with_suites _ h).
    assert (H1 : suites h1 !! l = Some r1) by (subst h1; cbn; apply lookup_insert_eq).
    unfold bind at 1, modify_suite at 1, modify. rewrite H1.
    set (r2 := TestsReport.set_Time _ r1). set (h2 := with_suites _ h1).
    assert (H2 : suites h2 !! l = Some r2) by (subst h2; cbn; apply lookup_insert_eq).
    unfold bind at 1, load_suite, load. cbn [deref mbind option_bind]. rewrite H2.
    intros Hret. by apply (Close_range_returned_inv _ h2 l r2 H2) in Hret.
  - intros Hall. destruct (Close_returns now h l r Hl Hall) as (h' & Hrun & _).
    by rewrite Hrun.
Qed.

Lemma Close_returns_iff_all_tests_witness :
  returned (Close (at_ns 3000000) (Some 1%positive) failing_heap).
Proof.
  apply (Close_returns_iff_all_tests (at_ns 3000000) failing_heap 1%positive
           {| TestsReport.Name := "smoke";
              TestsReport.StartTime := at_ns 0;
              TestsReport.EndTime := time.zero;
              TestsReport.Time := "";
              TestsReport.Reports := Some [Some 1%positive];
              TestsReport.Failures := 0 |}).
  - by vm_compute.
  - constructor; [|constructor]. eexists. vm_compute. reflexivity.
Defined.

(** X4. When the sequence of a suite holds a nil pointer after
    elements that all point to test reports, [Close] panics at that
    element; by then it has stored the end time and the duration, and
    has counted the failures of the elements before the nil one. The
    rest of the store is as it was. *)
Theorem Close_panics_at_nil_element now h l r pre p post :
  suites h !! l = Some r →
  elems (TestsReport.Reports r) = pre ++ p :: post →
  all_tests h pre →
  deref (tests h) p = None →
  Close now (Some l) h
  = Panic (with_suites (insert l (closed now (failed_count h pre) r)) h).
Proof.
  intros Hl Hsplit Hpre Hp. unfold Close.
  unfold bind at 1, modify_suite at 1, modify. rewrite Hl.
  set (r1 := TestsReport.set_EndTime now r). set (h1 := with_suites _ h).
  assert (H1 : suites h1 !! l = Some r1) by (subst h1; cbn; apply lookup_insert_eq).
  unfold bind at 1, modify_suite at 1, modify. rewrite H1.
  set (r2 := TestsReport.set_Time _ r1). set (h2 := with_suites _ h1).
  assert (H2 : suites h2 !! l = Some r2) by (subst h2; cbn; apply lookup_insert_eq).
  unfold bind at 1, load_suite, load. cbn [deref mbind option_bind]. rewrite H2.
  change (elems (TestsReport.Reports r2)) with (elems (TestsReport.Reports r)).
  rewrite Hsplit, Close_range_app. unfold bind.
  destruct (Close_range_returns pre h2 l r2 H2 Hpre) as (h' & Hrun & Hs & Ht & Hst & Ho & Hf).
  rewrite Hrun, Close_range_stops by (by rewrite Ht).
  f_equal. apply heap_eq; cbn [suites tests steps ops failures with_suites]; try done.
  rewrite Hs. subst h2 h1. cbn [suites with_suites]. rewrite !insert_insert_eq. reflexivity.
Qed.

Lemma Close_panics_at_nil_element_witness :
  (AddTest (Some 1%positive) None ;; Close (at_ns 1900000000) (Some 1%positive)) smoke_heap
  = Panic (with_suites
             (insert 1%positive
                (closed (at_ns 1900000000) 0
                   {| TestsReport.Name := "smoke";
                      TestsReport.StartTime := at_ns 0;
                      TestsReport.EndTime := time.zero;
                      TestsReport.Time := "";
                      TestsReport.Reports := Some [Some 1%positive; None];
                      TestsReport.Failures := 0 |})) smoke_heap).
Proof.
  unfold bind. cbv beta.
  pose proof (AddTest_returns smoke_heap 1%positive smoke_record None) as HA.
  unfold loc in HA |- *. rewrite HA by (by vm_compute). clear HA.
  rewrite (Close_panics_at_nil_element (at_ns 1900000000) _ 1%positive
             {| TestsReport.Name := "smoke";
                TestsReport.StartTime := at_ns 0;
                TestsReport.EndTime := time.zero;
                TestsReport.Time := "";
                TestsReport.Reports := Some [Some 1%positive; None];
                TestsReport.Failures := 0 |} [Some 1%positive] None []).
  - by vm_compute.
  - by vm_compute.
  - reflexivity.
  - constructor; [|constructor]. eexists. vm_compute. reflexivity.
  - reflexivity.
Defined.

Lemma AttachFailure_returns h l t f :
  tests h !! l = Some t →
  AttachFailure (Some l) f h
  = Ok tt (with_tests
             (insert l (TestReport.set_Failure (Some (fresh (dom (failures h)))) t))
             (with_failures (insert (fresh (dom (failures h))) f) h)).
Proof.
  intros Hl. unfold AttachFailure, bind, alloc, modify_test, modify.
  cbn [tests with_failures]. by rewrite Hl.
Qed.

(** X5. Reports are shared, not copied: a failure attached to a test
    report after the report was appended to a suite is seen by [Close].
    Appending a test to an empty suite with a failure count of zero,
    attaching a failure to that test, then closing the suite, returns
    and leaves one element in the sequence and a failure count of 1. *)
Theorem failure_attached_after_append_is_counted now h l r lt t f :
  suites h !! l = Some r →
  elems (TestsReport.Reports r) = [] →
  TestsReport.Failures r = 0 →
  tests h !! lt = Some t →
  let prog := AddTest (Some l) (Some lt) ;; AttachFailure (Some lt) f ;; Close now (Some l) in
  returned (prog h)
  ∧ Reports_at (final (prog h)) (Some l) = [Some lt]
  ∧ has_failure (final (prog h)) (Some lt) = true
  ∧ Failures_at (final (prog h)) (Some l) = Some 1.
Proof.
  intros Hl Hempty Hz Ht prog. subst prog. unfold bind. cbv beta.
  rewrite (AddTest_returns h l r (Some lt) Hl).
  set (r1 := TestsReport.set_Reports _ r). set (h1 := with_suites _ h).
  rewrite (AttachFailure_returns h1 lt t f) by done.
  set (t2 := TestReport.set_Failure _ t). set (h2 := with_tests _ _).
  assert (Hl2 : suites h2 !! l = Some r1) by (subst h2 h1; cbn; apply lookup_insert_eq).
  assert (Ht2 : tests h2 !! lt = Some t2) by (subst h2; cbn; apply lookup_insert_eq).
  assert (Helems : elems (TestsReport.Reports r1) = [Some lt]).
  { subst r1. cbn [TestsReport.Reports TestsReport.set_Reports]. unfold append.
    by rewrite Hempty. }
  assert (Hall : all_tests h2 (elems (TestsReport.Reports r1))).
  { rewrite Helems. constructor; [|constructor].
    cbn [deref mbind option_bind]. by rewrite Ht2. }
  assert (Hfail : has_failure h2 (Some lt) = true).
  { unfold has_failure. cbn [deref mbind option_bind]. by rewrite Ht2. }
  destruct (Close_returns now h2 l r1 Hl2 Hall) as (h' & Hrun & Hs & Ht' & _).
  rewrite Hrun. cbn [final returned]. split; [done|].
  unfold Reports_at, Failures_at, has_failure. cbn [deref mbind option_bind].
  rewrite Hs, Ht', lookup_insert_eq, Ht2. cbn [fmap option_fmap option_map default compose closed
    TestsReport.Reports TestsReport.Failures].
  split; [done|]. split; [done|].
  rewrite Helems. unfold failed_count. rewrite filter_cons_True by done.
  cbn. subst r1. cbn. rewrite Hz. reflexivity.
Qed.

Lemma failure_attached_after_append_is_counted_witness :
  Failures_at
    (final ((let* tr := NewTests (at_ns 0) "suite" in
             let* t := NewTest (at_ns 1) "a" false "" false false in
             AddTest tr t ;; AttachFailure t boom ;; Close (at_ns 9) tr) empty_heap))
    (Some 1%positive)
  = Some 1.
Proof.
  unfold bind at 1 2. cbv beta.
  change (NewTests (at_ns 0) "suite" empty_heap)
    with (Ok (Some 1%positive) (with_suites (insert 1%positive (new_suite (at_ns 0) "suite"))
                                  empty_heap)).
  cbv iota beta.
  set (h0 := with_suites _ empty_heap).
  change (NewTest (at_ns 1) "a" false "" false false h0)
    with (Ok (Some 1%positive)
            (with_tests (insert 1%positive (new_test (at_ns 1) "a" false "" false false)) h0)).
  cbv iota beta.
  apply (failure_attached_after_append_is_counted (at_ns 9) _ 1%positive
           (new_suite (at_ns 0) "suite") 1%positive
           (new_test (at_ns 1) "a" false "" false false) boom); by vm_compute.
Defined.



(** ** No nil sequences *)

Lemma sequences_allocated_same h h' :
  suites h' = suites h → tests h' = tests h → steps h' = steps h →
  sequences_allocated h → sequences_allocated h'.
Proof. unfold sequences_allocated. by intros -> -> ->. Qed.

Lemma modify_suite_allocated p f h :
  (∀ r, is_Some (TestsReport.Reports r) → is_Some (TestsReport.Reports (f r))) →
  sequences_allocated h → sequences_allocated (final (modify_suite p f h)).
Proof.
  intros Hf (Hs & Ht & Hst). unfold modify_suite, modify.
  destruct p as [l|]; [|done]. destruct (suites h !! l) as [r|] eqn:Hl; [|done].
  split; [|done]. cbn. apply map_Forall_insert_2; [|done].
  apply Hf. by apply (Hs l).
Qed.

Lemma modify_test_allocated p f h :
  (∀ r, is_Some (TestReport.Steps r) → is_Some (TestReport.Steps (f r))) →
  sequences_allocated h → sequences_allocated (final (modify_test p f h)).
Proof.
  intros Hf (Hs & Ht & Hst). unfold modify_test, modify.
  destruct p as [l|]; [|done]. destruct (tests h !! l) as [r|] eqn:Hl; [|done].
  split; [done|]. split; [|done]. cbn. apply map_Forall_insert_2; [|done].
  apply Hf. by apply (Ht l).
Qed.

Lemma modify_step_allocated p f h :
  (∀ r, is_Some (TestSpecStepReport.Results r)
        → is_Some (TestSpecStepReport.Results (f r))) →
  sequences_allocated h → sequences_allocated (final (modify_step p f h)).
Proof.
  intros Hf (Hs & Ht & Hst). unfold modify_step, modify.
  destruct p as [l|]; [|done]. destruct (steps h !! l) as [r|] eqn:Hl; [|done].
  split; [done|]. split; [done|]. cbn. apply map_Forall_insert_2; [|done].
  apply Hf. by apply (Hst l).
Qed.

Lemma modify_op_allocated p f h :
  sequences_allocated h → sequences_allocated (final (modify_op p f h)).
Proof.
  intros Hh. unfold modify_op, modify.
  destruct p as [l|]; [|done]. by destruct (ops h !! l).
Qed.

Lemma exec_allocated c h :
  sequences_allocated h → sequences_allocated (final (exec c h)).
Proof.
  intros Hh. pose proof Hh as (Hs & Ht & Hst). destruct c; cbn [exec].
  - split; [|done]. cbn. by apply map_Forall_insert_2.
  - split; [done|]. split; [|done]. cbn. by apply map_Forall_insert_2.
  - split; [done|]. split; [done|]. cbn. by apply map_Forall_insert_2.
  - done.
  - by apply modify_suite_allocated.
  - by apply modify_test_allocated.
  - by apply modify_step_allocated.
  - unfold MarkTestEnd. rewrite final_bind.
    pose proof (modify_test_allocated t (TestReport.set_EndTime now) h (fun _ H => H) Hh)
      as H1.
    destruct (modify_test t (TestReport.set_EndTime now) h) as [[] h1|h1]; [|exact H1].
    by apply modify_test_allocated.
  - unfold MarkOperationEnd. rewrite final_bind.
    pose proof (modify_op_allocated op (OperationReport.set_EndTime now) h Hh) as H1.
    destruct (modify_op op (OperationReport.set_EndTime now) h) as [[] h1|h1]; [|exact H1].
    by apply modify_op_allocated.
  - unfold AttachFailure. rewrite final_bind. cbn [alloc].
    apply modify_test_allocated; [done|]. by apply (sequences_allocated_same h).
  - destruct tr as [l|]; [|rewrite Close_nil; exact Hh].
    destruct (suites h !! l) as [r|] eqn:Hl; [|rewrite Close_unallocated by done; exact Hh].
    destruct (Close_frame now h l r Hl) as ((F & Hs') & Ht' & Hst' & _).
    split; [|by rewrite Ht', Hst'].
    rewrite Hs'. apply map_Forall_insert_2; [|done]. cbn. by apply (Hs l).
Qed.

(** X7. A store built from nothing by calls of the package never holds
    a nil sequence: the constructors start every [Reports], [Steps] and
    [Results] as an empty non-nil slice and no operation sets one to
    nil, whatever the calls and their arguments, and whether calls
    panic or not. *)
Theorem built_sequences_are_never_nil cs :
  sequences_allocated (run cs empty_heap).
Proof.
  assert (H : ∀ h, sequences_allocated h → sequences_allocated (run cs h)).
  { induction cs as [|c rest IH]; intros h Hh; [done|].
    cbn [run]. by apply IH, exec_allocated. }
  apply H. repeat split; apply map_Forall_empty.
Qed.

(** ** Further properties of serialization and saving *)

Lemma collect_length {A} (fs : list (res A)) ms : collect fs = Val ms → length ms = length fs.
Proof. intros H. rewrite (collect_Val _ _ H). by rewrite length_fmap. Qed.

Lemma array_items (items : list (res json)) j :
  array items = Val j → ∃ l, j = JArray l ∧ collect items = Val l ∧ length l = length items.
Proof.
  unfold array. destruct (collect items) as [l|e] eqn:Hc; [|discriminate].
  intros [= <-]. exists l. split; [done|]. split; [done|]. by apply collect_length.
Qed.

Section SavingFacts.

Context (time_MarshalJSON : time.Time → res string)
        (xml_MarshalIndent : Heap → ptr → string * option error)
        (json_quote : string → string)
        (JSONFormat XMLFormat : string)
        (unicode_ToLower : string → string)
        {FS : Type}
        (os_WriteFile : string → string → Z → FS → FS * option error).

(** Within this section the operations stand for their instances at the
    library functions above. *)
Abbreviation json_Marshal := (json_Marshal time_MarshalJSON).
Abbreviation json_text := (json_text json_quote).
Abbreviation JSONSerializer := (JSONSerializer time_MarshalJSON json_quote).
Abbreviation XMLSerializer := (XMLSerializer xml_MarshalIndent).
Abbreviation GetSerializer :=
  (GetSerializer time_MarshalJSON xml_MarshalIndent json_quote JSONFormat XMLFormat).
Abbreviation SaveReport := (SaveReport FS os_WriteFile).
Abbreviation SaveReportBasedOnType :=
  (SaveReportBasedOnType time_MarshalJSON xml_MarshalIndent json_quote JSONFormat XMLFormat
     unicode_ToLower FS os_WriteFile).
Abbreviation ToLower := (ToLower unicode_ToLower).

(** X8. For a format identifier that is neither of the two recognized
    ones, [SaveReportBasedOnType] returns the error "unsupported report
    format" and leaves the file system as it was: nothing is serialized
    and nothing is written. *)
Theorem SaveReportBasedOnType_unsupported_format h report format reportName (fs : FS) :
  format ≠ JSONFormat → format ≠ XMLFormat →
  SaveReportBasedOnType h report format reportName fs
  = Some (fs, Some (errors_New "unsupported report format")).
Proof.
  intros HJ HX. unfold SaveReportBasedOnType, GetSerializer.
  destruct (String.eqb_spec format JSONFormat); [done|].
  by destruct (String.eqb_spec format XMLFormat).
Qed.

(** X9. [SaveReport] panics when it is handed a nil serializer, and
    [SaveReportBasedOnType] never does that: for every format
    identifier, report and name it returns. *)
Theorem SaveReportBasedOnType_never_panics h report format reportName (fs : FS) :
  SaveReport h report None reportName fs = None
  ∧ is_Some (SaveReportBasedOnType h report format reportName fs).
Proof.
  split; [done|]. unfold SaveReportBasedOnType, GetSerializer, SaveReport.
  destruct (String.eqb format JSONFormat).
  - destruct (Serialize _ h report) as [data [e|]]; by eexists.
  - destruct (String.eqb format XMLFormat); [|by eexists].
    destruct (Serialize _ h report) as [data [e|]]; by eexists.
Qed.

(** X10. What [SaveReportBasedOnType] does for each recognized format.
    For the first it writes the indented text of the structured
    document of the report to [name.<lower-cased format>] with mode
    [0o600], or returns the encoding error without writing; for the
    second it writes what the markup encoder produced, or returns that
    encoder's error without writing. *)
Theorem SaveReportBasedOnType_saves_by_format h report reportName (fs : FS) :
  JSONFormat ≠ XMLFormat →
  SaveReportBasedOnType h report JSONFormat reportName fs
  = match json_Marshal h report with
    | Val j =>
        Some (os_WriteFile (reportName ++ "." ++ ToLower JSONFormat)%string
                (json_text 0 j) mode_0o600 fs)
    | Err e => Some (fs, Some e)
    end
  ∧ SaveReportBasedOnType h report XMLFormat reportName fs
    = match xml_MarshalIndent h report with
      | (data, None) =>
          Some (os_WriteFile (reportName ++ "." ++ ToLower XMLFormat)%string
                  data mode_0o600 fs)
      | (_, Some e) => Some (fs, Some e)
      end.
Proof.
  intros Hne. unfold SaveReportBasedOnType, GetSerializer, SaveReport. split.
  - rewrite String.eqb_refl. cbn [Serialize JSONSerializer].
    by destruct (json_Marshal h report).
  - destruct (String.eqb_spec XMLFormat JSONFormat) as [Heq|_]; [by symmetry in Heq|].
    rewrite String.eqb_refl. cbn [Serialize XMLSerializer].
    by destruct (xml_MarshalIndent h report) as [data [e|]].
Qed.

End SavingFacts.

Section DocumentFacts.

Context (time_MarshalJSON : time.Time → res string).

Abbreviation enc_time := (enc_time time_MarshalJSON).
Abbreviation enc_Operation := (enc_Operation time_MarshalJSON).
Abbreviation enc_Step := (enc_Step time_MarshalJSON).
Abbreviation enc_Test := (enc_Test time_MarshalJSON).
Abbreviation json_Marshal := (json_Marshal time_MarshalJSON).

(** X11. The document of a suite always has the six members name,
    startTime, endTime, time, reports and failures, in this order, none
    of them ever left out.  Its reports member is null for a nil
    [Reports] slice and otherwise an array with one item per element,
    where a nil element gives a null item: serialization accepts the
    nil elements on which [Close] panics. *)
Theorem JSON_suite_document h l r j :
  suites h !! l = Some r →
  json_Marshal h (Some l) = Val j →
  ∃ a b R,
    time_MarshalJSON (TestsReport.StartTime r) = Val a
    ∧ time_MarshalJSON (TestsReport.EndTime r) = Val b
    ∧ j = JObject [("name", JString (TestsReport.Name r));
                   ("startTime", JString a);
                   ("endTime", JString b);
                   ("time", JString (TestsReport.Time r));
                   ("reports", R);
                   ("failures", JNumber (TestsReport.Failures r))]%string
    ∧ match TestsReport.Reports r with
      | None => R = JNull
      | Some ps =>
          ∃ items, R = JArray items ∧ length items = length ps
                   ∧ ∀ i, ps !! i = Some None → items !! i = Some JNull
      end.
Proof.
  intros Hl. unfold json_Marshal, enc_ptr. rewrite Hl. unfold enc_Tests, enc_time.
  destruct (time_MarshalJSON (TestsReport.StartTime r)) as [a|e]; [|discriminate].
  destruct (time_MarshalJSON (TestsReport.EndTime r)) as [b|e]; [|discriminate].
  destruct (enc_slice _ (TestsReport.Reports r)) as [R|e] eqn:HR; [|discriminate].
  cbn. intros [= <-]. exists a, b, R. do 3 (split; [done|]).
  destruct (TestsReport.Reports r) as [ps|]; cbn in HR; [|by injection HR as <-].
  destruct (array_items _ _ HR) as (items & -> & _ & Hlen).
  exists items. split; [done|]. split; [by rewrite Hlen, length_fmap|].
  intros i Hi.
  destruct (array_lookup _ _ i (Val JNull) HR) as (x & [= <-] & Hx); [|done].
  rewrite list_lookup_fmap. unfold ptr in *. by rewrite Hi.
Qed.

(** X12. What the document of a test report carries when the optional
    fields are set: name and time always; a failure object with exactly
    the members message and type when a failure is attached; the
    namespace when it is not empty; skip and skipDelete as true when
    set; and a steps array with one item per step unless the sequence
    of steps is empty, in which case there is no steps member. *)
Theorem JSON_test_document_entries h t jt :
  enc_Test h t = Val jt →
  get "name" jt = Some (JString (TestReport.Name t))
  ∧ get "time" jt = Some (JString (TestReport.Time t))
  ∧ (∀ lf f, TestReport.Failure t = Some lf → failures h !! lf = Some f →
       get "failure" jt
       = Some (JObject [("message", JString (Failure.Message f));
                        ("type", JString (Failure.Type' f))]%string))
  ∧ (TestReport.Namespace t ≠ ""%string →
       get "namespace" jt = Some (JString (TestReport.Namespace t)))
  ∧ (TestReport.Skip t = true → get "skip" jt = Some (JBool true))
  ∧ (TestReport.SkipDelete t = true → get "skipDelete" jt = Some (JBool true))
  ∧ (elems (TestReport.Steps t) = [] → get "steps" jt = None)
  ∧ (elems (TestReport.Steps t) ≠ [] →
       ∃ items, get "steps" jt = Some (JArray items)
                ∧ length items = length (elems (TestReport.Steps t))).
Proof.
  intros Hj.
  assert (∃ a, time_MarshalJSON (TestReport.StartTime t) = Val a) as [a Ha].
  { destruct (object_field_Val _ _ "startTime" (enc_time (TestReport.StartTime t)) Hj)
      as [x Hx]; [set_solver|].
    unfold enc_time in Hx.
    destruct (time_MarshalJSON (TestReport.StartTime t)); [by eexists|done]. }
  assert (∃ b, time_MarshalJSON (TestReport.EndTime t) = Val b) as [b Hb].
  { destruct (object_field_Val _ _ "endTime" (enc_time (TestReport.EndTime t)) Hj)
      as [x Hx]; [set_solver|].
    unfold enc_time in Hx.
    destruct (time_MarshalJSON (TestReport.EndTime t)); [by eexists|done]. }
  pose proof (enc_Test_get time_MarshalJSON h t jt) as Hget.
  unfold enc_time in Hget. rewrite Ha, Hb in Hget.
  repeat split.
  - by rewrite (Hget "name"%string Hj).
  - by rewrite (Hget "time"%string Hj).
  - intros lf f Hf Hlf. rewrite (Hget "failure"%string Hj), Hf. cbn. by rewrite Hlf.
  - intros Hns. rewrite (Hget "namespace"%string Hj). cbn.
    repeat (rewrite lookup_field_app, lookup_field_other by done).
    destruct (TestReport.Namespace t); [done|]. cbn.
    by destruct (negb (TestReport.Skip t)), (negb (TestReport.SkipDelete t)).
  - intros Hs. rewrite (Hget "skip"%string Hj). cbn.
    repeat (rewrite lookup_field_app, lookup_field_other by done).
    rewrite Hs. cbn. by destruct (negb (TestReport.SkipDelete t)).
  - intros Hs. rewrite (Hget "skipDelete"%string Hj). cbn.
    repeat (rewrite lookup_field_app, lookup_field_other by done).
    by rewrite Hs.
  - intros Hs. rewrite (Hget "steps"%string Hj). cbn.
    rewrite lookup_field_app, lookup_field_other by done.
    rewrite lookup_field_app.
    replace (is_empty_slice (TestReport.Steps t)) with true
      by (by destruct (TestReport.Steps t) as [[|]|]).
    cbn [omitempty lookup_field]. rewrite !lookup_field_app.
    by rewrite !lookup_field_other by done.
  - intros Hs. destruct (TestReport.Steps t) as [ps|] eqn:Hps; [|done].
    destruct ps as [|p ps]; [done|]. clear Hs.
    destruct (object_field_Val _ _ "steps"
                (enc_slice (enc_ptr (steps h) (enc_Step h)) (Some (p :: ps))) Hj)
      as [x Hx].
    { rewrite Hps. change (is_empty_slice (Some (p :: ps))) with false.
      cbn [omitempty field]. set_solver. }
    pose proof Hx as Hx'. cbn [enc_slice] in Hx'.
    destruct (array_items _ _ Hx') as (items & -> & _ & Hlen).
    exists items. split; [|by rewrite Hlen, length_fmap].
    rewrite (Hget "steps"%string Hj). cbn [is_empty_slice omitempty].
    rewrite lookup_field_app, lookup_field_field_other by done.
    rewrite lookup_field_app, lookup_field_field_other by done.
    rewrite lookup_field_app, lookup_field_field_other by done.
    rewrite lookup_field_app, lookup_field_field_other by done.
    rewrite lookup_field_app, lookup_field_other by done.
    change (is_empty_slice (Some (p :: ps))) with false. cbn [omitempty].
    rewrite lookup_field_app, lookup_field_field.
    cbn [enc_slice elems] in Hx |- *. by rewrite Hx.
Qed.

(** X13. The document of an operation report, in full: encoding fails
    exactly when the start or the end instant cannot be written, with
    the first such error; otherwise the document has the members name,
    startTime, endTime, time and result in this order, result also when
    it is empty, followed by message and operationType, each only when
    it is not empty. *)
Theorem JSON_operation_document o :
  enc_Operation o
  = match time_MarshalJSON (OperationReport.StartTime o),
          time_MarshalJSON (OperationReport.EndTime o) with
    | Val a, Val b =>
        Val (JObject ([("name", JString (OperationReport.Name o));
                       ("startTime", JString a);
                       ("endTime", JString b);
                       ("time", JString (OperationReport.Time o));
                       ("result", JString (OperationReport.Result o))]%string
                      ++ operation_optional o))
    | Err e, _ => Err e
    | Val _, Err e => Err e
    end.
Proof.
  unfold enc_Operation, enc_time, operation_optional.
  destruct (time_MarshalJSON (OperationReport.StartTime o)) as [a|e]; [|done].
  destruct (time_MarshalJSON (OperationReport.EndTime o)) as [b|e]; [|done].
  by destruct (is_empty_string (OperationReport.Message o)),
       (is_empty_string (OperationReport.OperationType o)).
Qed.

(** X14. The document of a step report has a name member exactly when
    the name is not empty and a results member exactly when the
    sequence of results is not empty; the results member is then an
    array with one item per result.  A step without name and results is
    the empty object. *)
Theorem JSON_step_document h s j :
  enc_Step h s = Val j →
  get "name" j
  = (if is_empty_string (TestSpecStepReport.Name s) then None
     else Some (JString (TestSpecStepReport.Name s)))
  ∧ (elems (TestSpecStepReport.Results s) = [] → get "results" j = None)
  ∧ (elems (TestSpecStepReport.Results s) ≠ [] →
       ∃ items, get "results" j = Some (JArray items)
                ∧ length items = length (elems (TestSpecStepReport.Results s)))
  ∧ (TestSpecStepReport.Name s = ""%string → elems (TestSpecStepReport.Results s) = [] →
       j = JObject []).
Proof.
  intros Hj. pose proof (λ key, object_get key _ _ Hj) as Hget.
  split; [|split; [|split]].
  - rewrite Hget, lookup_field_app.
    destruct (is_empty_string (TestSpecStepReport.Name s)); [|done].
    cbn [omitempty lookup_field]. by apply lookup_field_other.
  - intros Hs. rewrite Hget, lookup_field_app, lookup_field_other by done.
    replace (is_empty_slice (TestSpecStepReport.Results s)) with true
      by (by destruct (TestSpecStepReport.Results s) as [[|]|]).
    done.
  - intros Hs. destruct (TestSpecStepReport.Results s) as [ps|] eqn:Hps; [|done].
    destruct ps as [|p ps]; [done|]. clear Hs.
    destruct (object_field_Val _ _ "results"
                (enc_slice (enc_ptr (ops h) enc_Operation) (Some (p :: ps))) Hj)
      as [x Hx].
    { rewrite Hps. change (is_empty_slice (Some (p :: ps))) with false.
      cbn [omitempty field]. set_solver. }
    pose proof Hx as Hx'. cbn [enc_slice] in Hx'.
    destruct (array_items _ _ Hx') as (items & -> & _ & Hlen).
    exists items. split; [|by rewrite Hlen, length_fmap].
    rewrite Hget, lookup_field_app, lookup_field_other by done.
    change (is_empty_slice (Some (p :: ps))) with false. cbn [omitempty].
    rewrite lookup_field_field. cbn [enc_slice elems] in Hx |- *. by rewrite Hx.
  - intros Hn Hs. unfold enc_Step in Hj. rewrite Hn in Hj.
    replace (is_empty_slice (TestSpecStepReport.Results s)) with true in Hj
      by (by destruct (TestSpecStepReport.Results s) as [[|]|]).
    cbn in Hj. by injection Hj as <-.
Qed.

End DocumentFacts.

Lemma SaveReportBasedOnType_unsupported_format_witness :
  SaveReportBasedOnType demo_time demo_xml demo_quote "JSON" "XML" demo_lower
    demo_fs demo_write smoke_heap (Some 1%positive) "yaml" "smoke" None
  = Some (None, Some (errors_New "unsupported report format")).
Proof.
  by apply (SaveReportBasedOnType_unsupported_format demo_time demo_xml demo_quote
              "JSON" "XML" demo_lower demo_write smoke_heap (Some 1%positive) "yaml" "smoke" None).
Defined.

Lemma SaveReportBasedOnType_saves_by_format_witness :
  SaveReportBasedOnType demo_time demo_xml demo_quote "JSON" "XML" demo_lower
    demo_fs demo_write smoke_heap (Some 1%positive) "JSON" "smoke" None
  = match json_Marshal demo_time smoke_heap (Some 1%positive) with
    | Val j => Some (Some ("smoke.json"%string, json_text demo_quote 0 j, 384), None)
    | Err e => Some (None, Some e)
    end
  ∧ SaveReportBasedOnType demo_time demo_xml demo_quote "JSON" "XML" demo_lower
      demo_fs demo_write smoke_heap (Some 1%positive) "XML" "smoke" None
    = Some (Some ("smoke.xml"%string, ""%string, 384), None).
Proof.
  exact (SaveReportBasedOnType_saves_by_format demo_time demo_xml demo_quote
           "JSON" "XML" demo_lower demo_write smoke_heap (Some 1%positive) "smoke" None
           ltac:(done)).
Defined.

Lemma JSON_suite_document_witness :
  ∃ j a b items,
    json_Marshal demo_time smoke_heap (Some 1%positive) = Val j
    ∧ j = JObject [("name", JString "smoke"); ("startTime", JString a);
                   ("endTime", JString b); ("time", JString "");
                   ("reports", JArray items); ("failures", JNumber 0)]%string
    ∧ length items = 1%nat.
Proof.
  destruct (json_Marshal demo_time smoke_heap (Some 1%positive)) as [j|e] eqn:Hj;
    [|by vm_compute in Hj].
  destruct (JSON_suite_document demo_time smoke_heap 1%positive smoke_record j)
    as (a & b & R & _ & _ & -> & items & -> & Hlen & _); [by vm_compute | done |].
  eexists _, a, b, items. split; [reflexivity|]. by split.
Defined.

Lemma JSON_test_document_entries_witness :
  ∃ t jt,
    tests failing_heap !! 1%positive = Some t
    ∧ enc_Test demo_time failing_heap t = Val jt
    ∧ get "failure" jt
      = Some (JObject [("message", JString "boom"); ("type", JString "AssertionError")]%string)
    ∧ get "namespace" jt = Some (JString "ns1")
    ∧ get "steps" jt = None.
Proof.
  destruct (tests failing_heap !! 1%positive) as [t|] eqn:Ht; [|by vm_compute in Ht].
  vm_compute in Ht. injection Ht as <-.
  match goal with |- ∃ t jt, Some ?r = _ ∧ _ => set (t := r) end.
  destruct (enc_Test demo_time failing_heap t) as [jt|e] eqn:Hjt; [|by vm_compute in Hjt].
  destruct (JSON_test_document_entries demo_time failing_heap t jt Hjt)
    as (_ & _ & Hf & Hns & _ & _ & Hs & _).
  exists t, jt. split; [done|]. split; [done|]. split; [|split].
  - by apply (Hf 1%positive boom).
  - by apply Hns.
  - by apply Hs.
Defined.

Lemma JSON_step_document_witness :
  ∃ j items,
    enc_Step demo_time smoke_heap smoke_step = Val j
    ∧ get "name" j = Some (JString "step1")
    ∧ get "results" j = Some (JArray items)
    ∧ length items = 1%nat.
Proof.
  destruct (enc_Step demo_time smoke_heap smoke_step) as [j|e] eqn:Hj;
    [|by vm_compute in Hj].
  destruct (JSON_step_document demo_time smoke_heap smoke_step j Hj)
    as (Hn & _ & Hr & _).
  destruct Hr as (items & Hr & Hlen); [done|].
  by exists j, items.
Defined.

(** ** Marking the end more than once *)

(** X15. Marking the end of a test or of an operation again replaces
    the earlier mark: the end time is the later one and the duration is
    measured from the unchanged start time, so two marks in a row leave
    the same store, and panic in the same cases, as the second alone. *)
Theorem MarkEnd_last_call_wins now1 now2 t op h :
  (MarkTestEnd now1 t ;; MarkTestEnd now2 t) h = MarkTestEnd now2 t h
  ∧ (MarkOperationEnd now1 op ;; MarkOperationEnd now2 op) h = MarkOperationEnd now2 op h.
Proof.
  split; unfold bind at 1.
  - destruct t as [l|]; [|done].
    destruct (tests h !! l) as [r|] eqn:Hl.
    + rewrite (MarkTestEnd_returns now1 h l r Hl).
      rewrite (MarkTestEnd_returns now2 _ l (ended_test now1 r))
        by (cbn; apply lookup_insert_eq).
      rewrite (MarkTestEnd_returns now2 h l r Hl). f_equal.
      apply heap_eq; cbn; try done. by rewrite insert_insert_eq.
    + unfold MarkTestEnd, bind, modify_test, modify. by rewrite Hl.
  - destruct op as [l|]; [|done].
    destruct (ops h !! l) as [r|] eqn:Hl.
    + rewrite (MarkOperationEnd_returns now1 h l r Hl).
      rewrite (MarkOperationEnd_returns now2 _ l (ended_op now1 r))
        by (cbn; apply lookup_insert_eq).
      rewrite (MarkOperationEnd_returns now2 h l r Hl). f_equal.
      apply heap_eq; cbn; try done. by rewrite insert_insert_eq.
    + unfold MarkOperationEnd, bind, modify_op, modify. by rewrite Hl.
Qed.

(** ** The counter at the end of its range *)

(** X16. The failure counter is a 64-bit integer and [Close] does not
    guard the increment: on a suite whose counter is at the greatest
    value, a close that finds k failed tests (k at least one) leaves
    the counter at the least value plus k - 1. *)
Theorem Close_counter_wraps now h l r :
  suites h !! l = Some r →
  all_tests h (elems (TestsReport.Reports r)) →
  TestsReport.Failures r = GoInt.maxInt64 →
  (0 < failed_count h (elems (TestsReport.Reports r)))%nat →
  Z.of_nat (length (elems (TestsReport.Reports r))) <= GoInt.maxInt64 →
  Failures_at (final (Close now (Some l) h)) (Some l)
  = Some (GoInt.minInt64
          + Z.of_nat (failed_count h (elems (TestsReport.Reports r))) - 1).
Proof.
  intros Hl Hall HF Hk Hlen.
  rewrite (Close_adds_failures now h l r Hl Hall)
    by (rewrite HF; unfold GoInt.in_int64, GoInt.minInt64, GoInt.maxInt64; lia).
  rewrite HF. f_equal.
  assert (Z.of_nat (failed_count h (elems (TestsReport.Reports r)))
          <= Z.of_nat (length (elems (TestsReport.Reports r)))).
  { apply inj_le. unfold failed_count. apply length_filter. }
  unfold GoInt.wrap64, GoInt.minInt64, GoInt.maxInt64 in *.
  set (k := Z.of_nat (failed_count h (elems (TestsReport.Reports r)))) in *.
  assert (0 < k) by lia.
  replace (2 ^ 63 - 1 + k + 2 ^ 63) with (k - 1 + 1 * 2 ^ 64) by lia.
  rewrite Z.mod_add by lia. rewrite Z.mod_small by lia. lia.
Qed.

Lemma Close_counter_wraps_witness :
  let h := with_suites
             (insert 1%positive
                (TestsReport.set_Failures GoInt.maxInt64
                   (TestsReport.set_Reports (Some [Some 1%positive]) smoke_record)))
             failing_heap in
  Failures_at (final (Close (at_ns 9) (Some 1%positive) h)) (Some 1%positive)
  = Some GoInt.minInt64.
Proof.
  intros h.
  exact (Close_counter_wraps (at_ns 9) h 1%positive
           (TestsReport.set_Failures GoInt.maxInt64
              (TestsReport.set_Reports (Some [Some 1%positive]) smoke_record))
           ltac:(by vm_compute)
           ltac:(constructor; [|constructor]; eexists; vm_compute; reflexivity)
           ltac:(reflexivity) ltac:(vm_compute; lia) ltac:(by vm_compute)).
Defined.

(** ** Fields no operation writes *)

Lemma kept_refl {A B} (f : A → B) m : kept f m m.
Proof. intros l r Hl. by exists r. Qed.

Lemma kept_trans {A B} (f : A → B) m1 m2 m3 :
  kept f m1 m2 → kept f m2 m3 → kept f m1 m3.
Proof.
  intros H1 H2 l r Hl. destruct (H1 l r Hl) as (r' & Hl' & E1).
  destruct (H2 l r' Hl') as (r'' & Hl'' & E2). exists r''. split; [done|]. congruence.
Qed.

Lemma kept_insert {A B} (f : A → B) m l r r' :
  m !! l = Some r → f r' = f r → kept f m (<[l := r']> m).
Proof.
  intros Hl Hf l0 r0 Hl0. destruct (decide (l0 = l)) as [->|Hne].
  - exists r'. rewrite lookup_insert_eq. split; [done|]. congruence.
  - exists r0. by rewrite lookup_insert_ne.
Qed.

Lemma kept_alloc {A B} (f : A → B) (m : gmap loc A) v :
  kept f m (<[fresh (dom m) := v]> m).
Proof.
  intros l r Hl. exists r. split; [|done]. rewrite lookup_insert_ne; [done|].
  intros <-. pose proof (is_fresh (dom m)) as Hfr. apply Hfr. apply elem_of_dom. by eexists.
Qed.

Lemma identities_kept_refl h : identities_kept h h.
Proof. repeat split; apply kept_refl. Qed.

Lemma identities_kept_trans h1 h2 h3 :
  identities_kept h1 h2 → identities_kept h2 h3 → identities_kept h1 h3.
Proof.
  intros (A1 & B1 & C1 & D1 & E1) (A2 & B2 & C2 & D2 & E2).
  split; [|split; [|split; [|split]]]; by eapply kept_trans.
Qed.

Lemma modify_suite_kept p f h :
  (∀ r, suite_identity (f r) = suite_identity r) →
  identities_kept h (final (modify_suite p f h)).
Proof.
  intros Hf. unfold modify_suite, modify.
  destruct p as [l|]; [|apply identities_kept_refl].
  destruct (suites h !! l) as [r|] eqn:Hl; [|apply identities_kept_refl].
  split; [|split; [|split; [|split]]]; cbn; try apply kept_refl.
  by apply (kept_insert _ _ _ r).
Qed.

Lemma modify_test_kept p f h :
  (∀ r, test_identity (f r) = test_identity r) →
  identities_kept h (final (modify_test p f h)).
Proof.
  intros Hf. unfold modify_test, modify.
  destruct p as [l|]; [|apply identities_kept_refl].
  destruct (tests h !! l) as [r|] eqn:Hl; [|apply identities_kept_refl].
  split; [|split; [|split; [|split]]]; cbn; try apply kept_refl.
  by apply (kept_insert _ _ _ r).
Qed.

Lemma modify_step_kept p f h :
  (∀ r, TestSpecStepReport.Name (f r) = TestSpecStepReport.Name r) →
  identities_kept h (final (modify_step p f h)).
Proof.
  intros Hf. unfold modify_step, modify.
  destruct p as [l|]; [|apply identities_kept_refl].
  destruct (steps h !! l) as [r|] eqn:Hl; [|apply identities_kept_refl].
  split; [|split; [|split; [|split]]]; cbn; try apply kept_refl.
  by apply (kept_insert _ _ _ r).
Qed.

Lemma modify_op_kept p f h :
  (∀ r, operation_identity (f r) = operation_identity r) →
  identities_kept h (final (modify_op p f h)).
Proof.
  intros Hf. unfold modify_op, modify.
  destruct p as [l|]; [|apply identities_kept_refl].
  destruct (ops h !! l) as [r|] eqn:Hl; [|apply identities_kept_refl].
  split; [|split; [|split; [|split]]]; cbn; try apply kept_refl.
  by apply (kept_insert _ _ _ r).
Qed.

Lemma exec_kept c h : identities_kept h (final (exec c h)).
Proof.
  destruct c; cbn [exec].
  - split; [|split; [|split; [|split]]]; cbn; try apply kept_refl. apply kept_alloc.
  - split; [|split; [|split; [|split]]]; cbn; try apply kept_refl. apply kept_alloc.
  - split; [|split; [|split; [|split]]]; cbn; try apply kept_refl. apply kept_alloc.
  - split; [|split; [|split; [|split]]]; cbn; try apply kept_refl. apply kept_alloc.
  - by apply modify_suite_kept.
  - by apply modify_test_kept.
  - by apply modify_step_kept.
  - unfold MarkTestEnd. rewrite final_bind.
    pose proof (modify_test_kept t (TestReport.set_EndTime now) h (fun _ => eq_refl)) as H1.
    destruct (modify_test t (TestReport.set_EndTime now) h) as [[] h1|h1]; [|exact H1].
    eapply identities_kept_trans; [exact H1|]. by apply modify_test_kept.
  - unfold MarkOperationEnd. rewrite final_bind.
    pose proof (modify_op_kept op (OperationReport.set_EndTime now) h (fun _ => eq_refl))
      as H1.
    destruct (modify_op op (OperationReport.set_EndTime now) h) as [[] h1|h1]; [|exact H1].
    eapply identities_kept_trans; [exact H1|]. by apply modify_op_kept.
  - unfold AttachFailure. rewrite final_bind. cbn [alloc].
    eapply identities_kept_trans; [|by apply modify_test_kept].
    split; [|split; [|split; [|split]]]; cbn; try apply kept_refl. apply kept_alloc.
  - destruct tr as [l|]; [|rewrite Close_nil; apply identities_kept_refl].
    destruct (suites h !! l) as [r|] eqn:Hl.
    2:{ rewrite Close_unallocated by done. apply identities_kept_refl. }
    destruct (Close_frame now h l r Hl) as ((F & Hs) & Ht & Hst & Ho & Hf).
    split; [|split; [|split; [|split]]]; rewrite ?Ht, ?Hst, ?Ho, ?Hf; try apply kept_refl.
    rewrite Hs. by apply (kept_insert _ _ _ r).
Qed.

(** X17. Whatever calls are made, with whatever arguments and whether
    they panic or not, every object stays in the store and keeps what
    its constructor gave it: a suite its name and start time; a test
    its name, start time, namespace and its three flags; a step its
    name; an operation its name, start time and kind, and its result
    and message, which nothing in the package ever sets; a failure its
    message and type. *)
Theorem identities_are_never_rewritten cs h :
  identities_kept h (run cs h).
Proof.
  revert h. induction cs as [|c rest IH]; intros h; cbn [run].
  - apply identities_kept_refl.
  - eapply identities_kept_trans; [apply exec_kept | apply IH].
Qed.

(** ** Durations to the millisecond *)

Section DurationFacts.
Import Float64.

Lemma Seconds_rounds d :
  GoInt.in_int64 d →
  (Z.abs d mod 1000000 < 498975 →
     Sprintf_3f (time.Seconds d) = fixed3 (d <? 0) (Z.abs d / 1000000))
  ∧ (501025 < Z.abs d mod 1000000 →
       Sprintf_3f (time.Seconds d) = fixed3 (d <? 0) (Z.abs d / 1000000 + 1)).
Proof.
  intros Hd. destruct (Seconds_thousandths d Hd) as (q & Hq & -> & Hacc).
  pose proof (Z.div_mod (Z.abs d) 1000000 ltac:(lia)) as Hdm.
  pose proof (Z.mod_pos_bound (Z.abs d) 1000000 ltac:(lia)) as Hr.
  split; intros Hlt; f_equal; lia.
Qed.

(** X18. [calculateDuration] rounds to the nearest millisecond: with d
    the duration [end.Sub(start)] and r the nanoseconds of |d| beyond a
    whole number of milliseconds, the text is |d| in whole milliseconds
    when r is below 498975, and one millisecond more when r is above
    501025, with a minus sign when d is negative.  In particular a
    whole number of milliseconds is written exactly. *)
Theorem calculateDuration_rounds_to_millisecond start end_ :
  let d := time.Sub end_ start in
  let r := Z.abs d mod 1000000 in
  (r < 498975 → calculateDuration start end_ = fixed3 (d <? 0) (Z.abs d / 1000000))
  ∧ (501025 < r →
       calculateDuration start end_ = fixed3 (d <? 0) (Z.abs d / 1000000 + 1)).
Proof. intros d r. apply Seconds_rounds, sat64_range. Qed.

(** X19. When the two instants are less than 498975 nanoseconds apart
    the text is zero, and it carries a minus sign when the end is
    before the start: "-0.000". *)
Theorem calculateDuration_below_half_millisecond start end_ :
  Z.abs (time.elapsed end_ start) < 498975 →
  calculateDuration start end_
  = if time.elapsed end_ start <? 0 then "-0.000"%string else "0.000"%string.
Proof.
  intros Hlt. unfold calculateDuration, time.Sub.
  rewrite sat64_id by (unfold GoInt.in_int64, GoInt.minInt64, GoInt.maxInt64; lia).
  set (d := time.elapsed end_ start) in *.
  destruct (Seconds_rounds d) as [H _].
  { unfold GoInt.in_int64, GoInt.minInt64, GoInt.maxInt64; lia. }
  rewrite H by (rewrite Z.mod_small by lia; lia).
  rewrite Z.div_small by lia. by destruct (d <? 0).
Qed.

End DurationFacts.

Lemma calculateDuration_below_half_millisecond_witness :
  calculateDuration (at_ns 5) (at_ns 0) = "-0.000"%string.
Proof.
  exact (calculateDuration_below_half_millisecond (at_ns 5) (at_ns 0)
           ltac:(vm_compute; reflexivity)).
Defined.

Lemma calculateDuration_rounds_to_millisecond_witness :
  calculateDuration (at_ns 0) (at_ns 1500000000) = "1.500"%string
  ∧ calculateDuration (at_ns 0) (at_ns 1500600000) = "1.501"%string.
Proof.
  split.
  - exact (proj1 (calculateDuration_rounds_to_millisecond (at_ns 0) (at_ns 1500000000))
             ltac:(vm_compute; reflexivity)).
  - exact (proj2 (calculateDuration_rounds_to_millisecond (at_ns 0) (at_ns 1500600000))
             ltac:(vm_compute; reflexivity)).
Defined.

(** ** Texts and their lines *)

Lemma app_cons c a b : (String c a ++ b)%string = String c (a ++ b).
Proof. reflexivity. Qed.

Lemma app_nil_l a : ("" ++ a)%string = a.
Proof. reflexivity. Qed.

Lemma app_nil_r a : (a ++ "")%string = a.
Proof. induction a as [|c a IH]; [done|]. by rewrite app_cons, IH. Qed.

Lemma app_assoc a b c : ((a ++ b) ++ c)%string = (a ++ b ++ c)%string.
Proof. induction a as [|x a IH]; [done|]. by rewrite !app_cons, IH. Qed.

Lemma starts_with_spec p s : starts_with p s = true ↔ ∃ w, s = (p ++ w)%string.
Proof.
  revert s. induction p as [|a p IH]; intros s; cbn [starts_with].
  - split; [by exists s | done].
  - destruct s as [|b s].
    + split; [done | by intros [w Hw]].
    + rewrite andb_true_iff, Ascii.eqb_eq, IH. split.
      * intros [-> [w ->]]. by exists w.
      * intros [w Hw]. rewrite app_cons in Hw. injection Hw as -> ->. split; [done|by exists w].
Qed.

Lemma starts_with_app p s w : starts_with p s = true → starts_with p (s ++ w) = true.
Proof.
  rewrite !starts_with_spec. intros [x ->]. exists (x ++ w)%string. by rewrite app_assoc.
Qed.

Lemma starts_with_app_l a p s : starts_with (a ++ p) (a ++ s) = starts_with p s.
Proof.
  induction a as [|c a IH]; [done|]. rewrite !app_cons. cbn [starts_with].
  by rewrite Ascii.eqb_refl, IH.
Qed.

Lemma starts_with_both a b l :
  starts_with a l = true → starts_with b l = true →
  starts_with a b = true ∨ starts_with b a = true.
Proof.
  revert b l. induction a as [|x a IH]; intros b l; [by left|].
  destruct b as [|y b]; [by right|]. destruct l as [|z l]; [done|].
  cbn [starts_with]. rewrite !andb_true_iff, !Ascii.eqb_eq.
  intros [-> Ha] [-> Hb]. destruct (IH b l Ha Hb); [left|right]; done.
Qed.

Lemma occurs_spec p s : occurs p s = true ↔ ∃ u w, s = (u ++ p ++ w)%string.
Proof.
  induction s as [|c s IH]; cbn [occurs]; rewrite orb_true_iff, starts_with_spec.
  - split.
    + intros [[w Hw]|]; [|done]. by exists ""%string, w.
    + intros (u & w & H). left. destruct u as [|x u]; [by exists w | done].
  - rewrite IH. split.
    + intros [[w Hw]|(u & w & ->)]; [by exists ""%string, w|].
      by exists (String c u), w.
    + intros (u & w & H). destruct u as [|x u]; [left; by exists w|].
      right. rewrite app_cons in H. injection H as -> ->. by exists u, w.
Qed.

Lemma occurs_trans p q s : occurs p q = true → occurs q s = true → occurs p s = true.
Proof.
  rewrite !occurs_spec. intros (u & w & ->) (u' & w' & ->).
  exists (u' ++ u)%string, (w ++ w')%string. by rewrite !app_assoc.
Qed.

Lemma occurs_app_r p q w : occurs (p ++ q) w = true → occurs q w = true.
Proof.
  rewrite !occurs_spec. intros (u & x & ->). exists (u ++ p)%string, x.
  by rewrite !app_assoc.
Qed.

Lemma occurs_after a p s : occurs p s = true → occurs p (a ++ s) = true.
Proof.
  rewrite !occurs_spec. intros (u & w & ->). exists (a ++ u)%string, w.
  by rewrite !app_assoc.
Qed.

Lemma has_newline_app a b : has_newline (a ++ b) = has_newline a || has_newline b.
Proof.
  induction a as [|c a IH]; [done|]. rewrite app_cons. cbn [has_newline].
  by rewrite IH, orb_assoc.
Qed.

Lemma has_newline_spaces n : has_newline (spaces n) = false.
Proof. induction n as [|n IH]; [done|]. cbn [spaces]. by rewrite has_newline_app, IH. Qed.

Lemma spaces_S n : spaces (S n) = (spaces n ++ "  ")%string.
Proof.
  induction n as [|n IH]; [done|]. cbn [spaces] in *. by rewrite IH at 1; rewrite app_assoc.
Qed.

Lemma split_lines_cons s : ∃ x r, split_lines s = x :: r.
Proof.
  induction s as [|c s (x & r & IH)]; cbn [split_lines]; [by eexists _, _|].
  destruct (Ascii.eqb c line_feed); [by eexists _, _|]. rewrite IH. by eexists _, _.
Qed.

Lemma split_lines_flat a : has_newline a = false → split_lines a = [a].
Proof.
  induction a as [|c a IH]; [done|]. cbn [has_newline split_lines].
  intros [Hc Ha]%orb_false_iff. by rewrite Hc, IH.
Qed.

(** The lines of two texts joined by a line feed. *)
Lemma split_lines_nl a b :
  split_lines (a ++ String line_feed b) = split_lines a ++ split_lines b.
Proof.
  induction a as [|c a IH].
  - rewrite app_nil_l. cbn [split_lines]. by rewrite Ascii.eqb_refl.
  - rewrite app_cons. cbn [split_lines]. rewrite IH.
    destruct (Ascii.eqb c line_feed); [done|].
    by destruct (split_lines_cons a) as (x & r & ->).
Qed.

(** A text without line feed in front goes to the first line. *)
Lemma split_lines_front a b :
  has_newline a = false →
  ∃ x r, split_lines b = x :: r ∧ split_lines (a ++ b) = (a ++ x)%string :: r.
Proof.
  intros Ha. destruct (split_lines_cons b) as (x & r & Hb). exists x, r. split; [done|].
  induction a as [|c a IH]; [done|]. cbn [has_newline] in Ha.
  apply orb_false_iff in Ha as [Hc Ha]. rewrite app_cons. cbn [split_lines].
  by rewrite Hc, (IH Ha).
Qed.

(** A text without line feed at the end goes to the last line. *)
Lemma split_lines_back a b :
  has_newline b = false →
  ∃ init last, split_lines a = init ++ [last]
               ∧ split_lines (a ++ b) = init ++ [(last ++ b)%string].
Proof.
  intros Hb. induction a as [|c a (init & last & Ha & Hab)].
  - exists [], ""%string. split; [done|]. rewrite app_nil_l. by apply split_lines_flat.
  - rewrite app_cons. cbn [split_lines]. rewrite Ha, Hab.
    destruct (Ascii.eqb c line_feed).
    + by exists (""%string :: init), last.
    + destruct init as [|i0 ini]; cbn [app].
      * by exists [], (String c last).
      * by exists (String c i0 :: ini), last.
Qed.

Lemma Forall_split_lines_back (Q : string → Prop) a b :
  (∀ l, Q l → Q (l ++ b)%string) →
  has_newline b = false →
  Forall Q (split_lines a) → Forall Q (split_lines (a ++ b)).
Proof.
  intros HQ Hb. destruct (split_lines_back a b Hb) as (init & last & -> & ->).
  rewrite !Forall_app, !Forall_singleton. intros [? ?]. auto.
Qed.

(** A line that starts in the text after a line feed is one of its
    lines after the first. *)
Lemma occurs_line p s :
  has_newline p = false →
  occurs (String line_feed p) s = true →
  ∃ line, line ∈ tail (split_lines s) ∧ starts_with p line = true.
Proof.
  intros Hp (u & w & ->)%occurs_spec. rewrite app_cons, split_lines_nl.
  destruct (split_lines_front p w Hp) as (x & r & _ & ->).
  destruct (split_lines_cons u) as (y & t & ->). cbn [app tail].
  exists (p ++ x)%string. split; [set_solver|]. apply starts_with_spec. by exists x.
Qed.

(** The items of a bracket, each after the separator. *)
Lemma occurs_lines sep x xs :
  x ∈ xs → occurs (sep ++ x) (sep ++ lines sep xs) = true.
Proof.
  intros Hx. apply occurs_spec. induction xs as [|y ys IH]; [by apply elem_of_nil in Hx|].
  destruct ys as [|z zs].
  - apply list_elem_of_singleton in Hx as ->. exists ""%string, ""%string.
    cbn [lines]. by rewrite app_nil_l, !app_nil_r.
  - change (lines sep (y :: z :: zs)) with (y ++ "," ++ sep ++ lines sep (z :: zs))%string.
    apply elem_of_cons in Hx as [->|Hx].
    + exists ""%string, ("," ++ sep ++ lines sep (z :: zs))%string.
      by rewrite app_nil_l, !app_assoc.
    + destruct (IH Hx) as (u & w & ->).
      exists (sep ++ y ++ "," ++ u)%string, w. by rewrite !app_assoc.
Qed.

Lemma nested_app d l w : nested d l = true → nested d (l ++ w) = true.
Proof.
  unfold nested. rewrite !orb_true_iff.
  intros [[H|H]|H]; [left; left | left; right | right]; by apply starts_with_app.
Qed.

Lemma starts_with_spaces_S d x l :
  starts_with (spaces (S d) ++ x) l = true → starts_with (spaces d ++ " ") l = true.
Proof.
  rewrite !starts_with_spec. intros [w ->]. exists (" " ++ x ++ w)%string.
  rewrite spaces_S, !app_assoc. reflexivity.
Qed.

Lemma nested_S d l : nested (S d) l = true → nested d l = true.
Proof.
  unfold nested at 1. rewrite !orb_true_iff. intros [[H|H]|H];
    unfold nested; by rewrite (starts_with_spaces_S _ _ _ H).
Qed.

Lemma json_nested_ind (P : json → Prop) :
  P JNull → (∀ b, P (JBool b)) → (∀ z, P (JNumber z)) → (∀ s, P (JString s)) →
  (∀ l, Forall P l → P (JArray l)) →
  (∀ ms, Forall (fun kv => P (snd kv)) ms → P (JObject ms)) →
  ∀ j, P j.
Proof.
  intros Hn Hb Hz Hs Ha Ho. fix IH 1. intros [|b|z|s|l|ms].
  - exact Hn.
  - exact (Hb b).
  - exact (Hz z).
  - exact (Hs s).
  - apply Ha. induction l as [|x l IHl]; constructor; [apply IH | exact IHl].
  - apply Ho. induction ms as [|[k v] ms IHms]; constructor; [apply IH | exact IHms].
Qed.

Lemma has_newline_decimal n : has_newline (Float64.decimal n) = false.
Proof.
  unfold Float64.decimal. generalize (N.to_uint (Z.to_N n)). intros u.
  unfold NilZero.string_of_uint. destruct u; try done;
    cbn [DecimalString.NilEmpty.string_of_uint has_newline];
    (induction u; [done| cbn [DecimalString.NilEmpty.string_of_uint has_newline]; done ..]).
Qed.

Lemma starts_with_refl_app p w : starts_with p (p ++ w) = true.
Proof. apply starts_with_spec. by exists w. Qed.

Lemma starts_with_refl p : starts_with p p = true.
Proof. apply starts_with_spec. exists ""%string. by rewrite app_nil_r. Qed.

(** The lines inside a bracket: those of its items, then the closing
    line. *)
Lemma bracket_lines o c d xs :
  has_newline o = false → has_newline c = false →
  tail (split_lines
          (o ++ String line_feed
                  (spaces (S d) ++ lines (String line_feed (spaces (S d))) xs
                   ++ String line_feed (spaces d ++ c))))
  = split_lines (spaces (S d) ++ lines (String line_feed (spaces (S d))) xs)
    ++ [(spaces d ++ c)%string].
Proof.
  intros Ho Hc. rewrite split_lines_nl, (split_lines_flat o Ho). cbn [app tail].
  rewrite <- app_assoc, split_lines_nl. f_equal. apply split_lines_flat.
  by rewrite has_newline_app, has_newline_spaces.
Qed.

Lemma lines_Forall (Q : string → Prop) ind xs :
  (∀ l w, Q l → Q (l ++ w)%string) →
  xs ≠ [] →
  (∀ x, x ∈ xs → Forall Q (split_lines (ind ++ x))) →
  Forall Q (split_lines (ind ++ lines (String line_feed ind) xs)).
Proof.
  intros HQ Hne Hxs. induction xs as [|x ys IH]; [done|]. destruct ys as [|z zs].
  - apply Hxs. apply list_elem_of_here.
  - change (lines (String line_feed ind) (x :: z :: zs))
      with (x ++ "," ++ String line_feed ind ++ lines (String line_feed ind) (z :: zs))%string.
    rewrite (app_cons line_feed ind), <- (app_assoc x), <- (app_assoc ind), split_lines_nl.
    apply Forall_app. split.
    + rewrite <- app_assoc. apply Forall_split_lines_back; [by auto | done |].
      apply Hxs. apply list_elem_of_here.
    + apply IH; [done|]. intros y Hy. apply Hxs. by apply list_elem_of_further.
Qed.

Section TextFacts.

Context (json_quote : string → string).

Abbreviation json_text := (json_text json_quote).
Abbreviation member_line := (member_line json_quote).
Abbreviation member_text := (member_text json_quote).
Abbreviation object_line := (object_line json_quote).

Lemma json_text_array d x l :
  json_text d (JArray (x :: l))
  = ("[" ++ String line_feed
             (spaces (S d)
              ++ lines (String line_feed (spaces (S d))) (map (json_text (S d)) (x :: l))
              ++ String line_feed (spaces d ++ "]")))%string.
Proof.
  change (json_text d (JArray (x :: l)))
    with ("[" ++ (newline ++ spaces (S d))
          ++ lines (newline ++ spaces (S d)) (map (json_text (S d)) (x :: l))
          ++ (newline ++ spaces d) ++ "]")%string.
  change (newline ++ spaces (S d))%string with (String line_feed (spaces (S d))).
  change (newline ++ spaces d)%string with (String line_feed (spaces d)).
  by rewrite !app_cons.
Qed.

Lemma json_text_object d kv ms :
  json_text d (JObject (kv :: ms))
  = ("{" ++ String line_feed
             (spaces (S d)
              ++ lines (String line_feed (spaces (S d))) (map (member_text d) (kv :: ms))
              ++ String line_feed (spaces d ++ "}")))%string.
Proof.
  change (json_text d (JObject (kv :: ms)))
    with ("{" ++ (newline ++ spaces (S d))
          ++ lines (newline ++ spaces (S d)) (map (member_text d) (kv :: ms))
          ++ (newline ++ spaces d) ++ "}")%string.
  change (newline ++ spaces (S d))%string with (String line_feed (spaces (S d))).
  change (newline ++ spaces d)%string with (String line_feed (spaces d)).
  by rewrite !app_cons.
Qed.

Lemma object_line_app d ms l w : object_line d ms l → object_line d ms (l ++ w).
Proof.
  intros [(k & v & Hin & H)|[H|H]].
  - left. exists k, v. split; [done|]. by apply starts_with_app.
  - right. left. by apply nested_app.
  - right. right. by apply starts_with_app.
Qed.

Lemma object_lines d ms :
  (∀ s, has_newline (json_quote s) = false) →
  Forall (fun kv => ∀ d, Forall (fun l => nested d l = true)
                           (tail (split_lines (json_text d (snd kv))))) ms →
  Forall (object_line d ms) (tail (split_lines (json_text d (JObject ms)))).
Proof.
  intros Hq IH. destruct ms as [|kv ms]; [by constructor|].
  rewrite json_text_object, bracket_lines by done.
  apply Forall_app. split.
  - apply lines_Forall; [by apply object_line_app | done |].
    intros x ([k v] & -> & Hin)%list_elem_of_fmap. unfold member_text. cbn [fst snd].
    rewrite <- (app_assoc (json_quote k)), <- app_assoc.
    destruct (split_lines_front (spaces (S d) ++ json_quote k ++ ": ")
                (json_text (S d) v)) as (y & r & Hv & ->).
    { by rewrite !has_newline_app, has_newline_spaces, Hq. }
    constructor.
    + left. exists k, v. split; [done|]. apply starts_with_refl_app.
    + rewrite Forall_forall in IH. specialize (IH (k, v) Hin (S d)).
      cbn [snd] in IH. rewrite Hv in IH. cbn [tail] in IH.
      eapply Forall_impl; [exact IH|]. intros l Hl. right. by left.
  - apply Forall_singleton. right. right. apply starts_with_refl.
Qed.

(** Every line of a printed value after its first is indented below
    the value or closes it. *)
Lemma json_text_nested j :
  (∀ s, has_newline (json_quote s) = false) →
  ∀ d, Forall (fun l => nested d l = true) (tail (split_lines (json_text d j))).
Proof.
  intros Hq. induction j as [|b|z|s|l IH|ms IH] using json_nested_ind; intros d.
  - by constructor.
  - destruct b; by constructor.
  - rewrite split_lines_flat; [by constructor|].
    cbn [json_text]. unfold number_text.
    rewrite has_newline_app, has_newline_decimal. by destruct (z <? 0).
  - rewrite split_lines_flat; [by constructor | apply Hq].
  - destruct l as [|x l]; [by constructor|].
    rewrite json_text_array, bracket_lines by done.
    apply Forall_app. split.
    + apply lines_Forall; [by intros; apply nested_app | done |].
      intros y (v & -> & Hin)%list_elem_of_fmap.
      destruct (split_lines_front (spaces (S d)) (json_text (S d) v)) as (y & r & Hv & ->).
      { apply has_newline_spaces. }
      rewrite Forall_forall in IH. specialize (IH v Hin (S d)).
      rewrite Hv in IH. cbn [tail] in IH. constructor.
      * unfold nested. by rewrite (starts_with_spaces_S d y) by apply starts_with_refl.
      * eapply Forall_impl; [exact IH|]. intros l0. apply nested_S.
    + apply Forall_singleton. unfold nested.
      rewrite (starts_with_refl (spaces d ++ "]")). by rewrite orb_true_r.
  - eapply Forall_impl; [apply (object_lines d ms Hq IH)|].
    intros l [(k & v & _ & H)|[H|H]].
    + unfold nested. by rewrite (starts_with_spaces_S _ _ _ H).
    + by apply nested_S.
    + unfold nested. rewrite H. by rewrite !orb_true_r.
Qed.

Lemma occurs_context p s a b : occurs p s = true → occurs p (a ++ s ++ b) = true.
Proof.
  rewrite !occurs_spec. intros (u & w & ->). exists (a ++ u)%string, (w ++ b)%string.
  by rewrite !app_assoc.
Qed.

(** A member of an object is printed on a line of its own, its value
    after the key; an item of an array is printed inside the array. *)
Lemma member_occurs d ms k v :
  (k, v) ∈ ms →
  occurs (member_line d k ++ json_text (S d) v) (json_text d (JObject ms)) = true.
Proof.
  intros Hin. destruct ms as [|kv ms]; [by apply elem_of_nil in Hin|].
  set (sep := String line_feed (spaces (S d))).
  assert (E1 : json_text d (JObject (kv :: ms))
               = ("{" ++ (sep ++ lines sep (map (member_text d) (kv :: ms)))
                  ++ String line_feed (spaces d ++ "}"))%string).
  { rewrite json_text_object, app_assoc. reflexivity. }
  assert (E2 : (member_line d k ++ json_text (S d) v)%string
               = (sep ++ member_text d (k, v))%string).
  { unfold member_line, member_text. cbn [fst snd].
    change (newline ++ spaces (S d) ++ json_quote k ++ ": ")%string
      with (String line_feed (spaces (S d) ++ json_quote k ++ ": ")).
    subst sep. by rewrite !app_cons, !app_assoc. }
  rewrite E1, E2. apply occurs_context, occurs_lines.
  apply list_elem_of_fmap. by exists (k, v).
Qed.

Lemma item_occurs d l x :
  x ∈ l → occurs (json_text (S d) x) (json_text d (JArray l)) = true.
Proof.
  intros Hin. destruct l as [|y l]; [by apply elem_of_nil in Hin|].
  set (sep := String line_feed (spaces (S d))).
  assert (E1 : json_text d (JArray (y :: l))
               = ("[" ++ (sep ++ lines sep (map (json_text (S d)) (y :: l)))
                  ++ String line_feed (spaces d ++ "]"))%string).
  { rewrite json_text_array, app_assoc. reflexivity. }
  rewrite E1. apply occurs_context, (occurs_app_r sep), occurs_lines.
  apply list_elem_of_fmap. by exists x.
Qed.

(** A line that starts like the line of the member [key] of an object
    is the line of a member whose key is written like [key]. *)
Lemma member_line_owner d ms key :
  (∀ s, has_newline (json_quote s) = false) →
  json_quote key = quoted key →
  occurs (member_line d key) (json_text d (JObject ms)) = true →
  ∃ k v, (k, v) ∈ ms
         ∧ (starts_with (json_quote k ++ ": ") (quoted key ++ ": ") = true
            ∨ starts_with (quoted key ++ ": ") (json_quote k ++ ": ") = true).
Proof.
  intros Hq Hkey Hocc. unfold member_line in Hocc.
  change (newline ++ spaces (S d) ++ json_quote key ++ ": ")%string
    with (String line_feed (spaces (S d) ++ json_quote key ++ ": ")) in Hocc.
  apply occurs_line in Hocc as (line & Hin & Hst).
  2:{ by rewrite !has_newline_app, has_newline_spaces, Hq. }
  assert (HF : Forall (object_line d ms) (tail (split_lines (json_text d (JObject ms))))).
  { apply object_lines; [done|]. apply Forall_forall. intros kv _ d'.
    by apply json_text_nested. }
  rewrite Forall_forall in HF. rewrite Hkey in Hst.
  destruct (HF line Hin) as [(k & v & Hkv & H)|[H|H]].
  - exists k, v. split; [done|].
    destruct (starts_with_both _ _ _ H Hst) as [H'|H'];
      rewrite starts_with_app_l in H'; [by left | by right].
  - exfalso. unfold nested in H. apply orb_true_iff in H as [H|H];
      [apply orb_true_iff in H as [H|H]|];
      destruct (starts_with_both _ _ _ H Hst) as [H'|H'];
      rewrite starts_with_app_l in H'; unfold quoted in H'; by rewrite ?app_cons in H'.
  - exfalso. rewrite spaces_S, app_assoc in Hst.
    destruct (starts_with_both _ _ _ H Hst) as [H'|H'];
      rewrite starts_with_app_l in H'; by rewrite ?app_cons in H'.
Qed.

End TextFacts.

(** Two words of letters whose literals start alike are the same word. *)
Lemma quoted_starts k key :
  all_letters k = true → all_letters key = true →
  starts_with (quoted k ++ ": ") (quoted key ++ ": ") = true → k = key.
Proof.
  unfold quoted. rewrite !app_cons, !app_assoc. cbn [starts_with].
  rewrite Ascii.eqb_refl, andb_true_l. rewrite !app_cons, !app_nil_l.
  revert key. induction k as [|a k IH]; intros [|c key]; cbn [all_letters];
    rewrite ?app_nil_l, ?app_cons; cbn [starts_with]; try done.
  - intros _ [Hc _]%andb_true_iff [Hq _]%andb_true_iff.
    apply Ascii.eqb_eq in Hq as <-. by vm_compute in Hc.
  - intros [Ha _]%andb_true_iff _ [Hq _]%andb_true_iff.
    apply Ascii.eqb_eq in Hq as ->. by vm_compute in Ha.
  - intros [_ Hk]%andb_true_iff [_ Hkey]%andb_true_iff [Hac H]%andb_true_iff.
    apply Ascii.eqb_eq in Hac as ->. f_equal. by apply IH.
Qed.

Lemma member_None key ms v : member key ms = None → (key, v) ∉ ms.
Proof.
  induction ms as [|[k x] ms IH]; [by intros _ ?%elem_of_nil|].
  cbn [member]. destruct (String.eqb_spec k key) as [->|Hne]; [done|].
  intros Hm [[= ? ?]|Hin]%elem_of_cons; [done|]. by apply IH.
Qed.

Lemma member_Some key ms v : member key ms = Some v → (key, v) ∈ ms.
Proof.
  induction ms as [|[k x] ms IH]; [done|].
  cbn [member]. destruct (String.eqb_spec k key) as [->|Hne].
  - intros [= ->]. apply list_elem_of_here.
  - intros Hm. by apply list_elem_of_further, IH.
Qed.

Lemma field_key k v k0 v0 : Val (k, v) ∈ field k0 v0 → k = k0.
Proof.
  unfold field. intros Hin%list_elem_of_singleton. destruct v0; congruence.
Qed.

Lemma omitempty_key k v b k0 v0 : Val (k, v) ∈ omitempty b (field k0 v0) → k = k0.
Proof. destruct b; [by intros ?%elem_of_nil | apply field_key]. Qed.

Section TextOfTests.

Context (time_MarshalJSON : time.Time → res string)
        (json_quote : string → string).

Abbreviation enc_Test := (enc_Test time_MarshalJSON).
Abbreviation json_Marshal := (json_Marshal time_MarshalJSON).
Abbreviation JSONSerializer := (JSONSerializer time_MarshalJSON json_quote).
Abbreviation json_text := (json_text json_quote).
Abbreviation member_line := (member_line json_quote).

(** The object of a test report has keys that are words of letters. *)
Lemma enc_Test_members h t jt :
  enc_Test h t = Val jt →
  ∃ ms, jt = JObject ms ∧ ∀ k v, (k, v) ∈ ms → all_letters k = true.
Proof.
  unfold enc_Test, object. destruct (collect _) as [ms|e] eqn:Hc; [|done].
  intros [= <-]. exists ms. split; [done|]. intros k v Hin.
  apply collect_Val in Hc.
  assert (Hf : Val (k, v) ∈ (Val <$> ms : list (res (string * json)))).
  { apply list_elem_of_fmap. by exists (k, v). }
  rewrite <- Hc in Hf. rewrite !elem_of_app in Hf.
  repeat match type of Hf with
         | _ ∨ _ =>
             destruct Hf as [H1|Hf];
             [first [apply field_key in H1 | apply omitempty_key in H1]; by subst k|]
         end.
  apply omitempty_key in Hf. by subst k.
Qed.

(** A key the object of a test report does not have starts no line
    of the members of its text. *)
Lemma test_key_absent h t jt d key :
  json_string_literals json_quote →
  all_letters key = true →
  enc_Test h t = Val jt →
  get key jt = None →
  occurs (member_line d key) (json_text d jt) = false.
Proof.
  intros [Hq1 Hq2] Hkey Hjt Hget.
  destruct (enc_Test_members h t jt Hjt) as (ms & -> & Hms).
  destruct (occurs (member_line d key) (json_text d (JObject ms))) eqn:Hocc; [|done].
  exfalso.
  apply (member_line_owner json_quote d ms key Hq1 (Hq2 key Hkey)) in Hocc
    as (k & v & Hin & H).
  rewrite (Hq2 k (Hms k v Hin)) in H.
  assert (k = key) as ->.
  { destruct H as [H|H]; [|symmetry]; eapply quoted_starts; eauto. }
  by apply (member_None key ms v Hget).
Qed.

(** C8. The bytes the structured serializer gives for a suite are the
    text of its document, and the text of the object of each of its
    test reports stands in them.  In the document that object has no
    "concurrent", "namespace", "skip" or "skipDelete" member when the
    field is false or empty, no "failure" member when the failure is
    nil, and the member "concurrent": true when the test is
    concurrent.  In the bytes, the text of that object has no line of
    a member with such a key in these cases (string literals being on
    one line, words of letters written as they are), and has the line
    of the member "concurrent": true when the test is concurrent, so
    that the output contains it. *)
Theorem JSON_omits_empty_optional_fields h l r ps i lt t j :
  suites h !! l = Some r →
  TestsReport.Reports r = Some ps →
  ps !! i = Some (Some lt) →
  tests h !! lt = Some t →
  json_Marshal h (Some l) = Val j →
  let output := fst (Serialize JSONSerializer h (Some l)) in
  output = json_text 0 j
  ∧ ∃ items jt,
      get "reports" j = Some (JArray items)
      ∧ items !! i = Some jt
      ∧ (TestReport.Concurrent t = false → get "concurrent" jt = None)
      ∧ (TestReport.Namespace t = ""%string → get "namespace" jt = None)
      ∧ (TestReport.Skip t = false → get "skip" jt = None)
      ∧ (TestReport.SkipDelete t = false → get "skipDelete" jt = None)
      ∧ (TestReport.Failure t = None → get "failure" jt = None)
      ∧ (TestReport.Concurrent t = true → get "concurrent" jt = Some (JBool true))
      ∧ occurs (json_text 2 jt) output = true
      ∧ (json_string_literals json_quote →
           (TestReport.Concurrent t = false →
              occurs (member_line 2 "concurrent") (json_text 2 jt) = false)
           ∧ (TestReport.Namespace t = ""%string →
                occurs (member_line 2 "namespace") (json_text 2 jt) = false)
           ∧ (TestReport.Skip t = false →
                occurs (member_line 2 "skip") (json_text 2 jt) = false)
           ∧ (TestReport.SkipDelete t = false →
                occurs (member_line 2 "skipDelete") (json_text 2 jt) = false)
           ∧ (TestReport.Failure t = None →
                occurs (member_line 2 "failure") (json_text 2 jt) = false))
      ∧ (TestReport.Concurrent t = true →
           occurs (member_line 2 "concurrent" ++ "true") (json_text 2 jt) = true
           ∧ occurs (member_line 2 "concurrent" ++ "true") output = true).
Proof.
  intros Hl Hps Hi Ht Hj output.
  assert (Hout : output = json_text 0 j).
  { subst output. cbn [Serialize JSONSerializer]. by rewrite Hj. }
  split; [done|].
  destruct (json_Marshal_reports time_MarshalJSON h l r ps i lt t j Hl Hps Hi Ht Hj)
    as (items & jt & Hget & Hit & Hjt).
  destruct (enc_Test_optional_keys time_MarshalJSON h t jt Hjt)
    as (Hc & Hn & Hs & Hsd & Hf & Hct).
  exists items, jt. do 8 (split; [done|]).
  assert (Hblock : occurs (json_text 2 jt) (json_text 0 j) = true).
  { destruct j as [| | | | |ms]; try done. cbn [get] in Hget.
    apply member_Some in Hget.
    eapply occurs_trans; [|apply (member_occurs json_quote 0 ms _ _ Hget)].
    apply occurs_after, item_occurs. by apply list_elem_of_lookup_2 in Hit. }
  rewrite Hout. split; [done|]. split.
  - intros Hq. repeat split; intros H; apply (test_key_absent h t); auto.
  - intros Hc'. specialize (Hct Hc').
    destruct (enc_Test_members h t jt Hjt) as (ms & -> & _). cbn [get] in Hct.
    apply member_Some in Hct.
    pose proof (member_occurs json_quote 2 ms _ _ Hct) as Hline.
    split; [exact Hline|]. by eapply occurs_trans.
Qed.

End TextOfTests.

Lemma demo_literal_literals : json_string_literals demo_literal.
Proof.
  split; intros s.
  - unfold demo_literal, quoted. cbn [has_newline].
    rewrite has_newline_app. cbn [has_newline]. rewrite !orb_false_r.
    change (Ascii.eqb (ascii_of_N 34) line_feed) with false. rewrite orb_false_l.
    induction s as [|c s IH]; [done|]. cbn [demo_escape].
    destruct (Ascii.eqb c line_feed) eqn:Hc; cbn [has_newline]; [done|].
    by rewrite Hc.
  - intros Hs. unfold demo_literal. f_equal.
    induction s as [|c s IH]; [done|]. cbn [all_letters] in Hs.
    apply andb_true_iff in Hs as [Hc Hs]. cbn [demo_escape].
    destruct (Ascii.eqb_spec c line_feed) as [->|_]; [by vm_compute in Hc|].
    by rewrite (IH Hs).
Qed.

Lemma JSON_omits_empty_optional_fields_witness :
  ∃ j items jt,
    json_Marshal demo_time smoke_heap (Some 1%positive) = Val j
    ∧ get "reports" j = Some (JArray items)
    ∧ items !! 0%nat = Some jt
    ∧ get "concurrent" jt = None ∧ get "skip" jt = None
    ∧ get "skipDelete" jt = None ∧ get "failure" jt = None
    ∧ occurs (json_text demo_literal 2 jt)
        (fst (Serialize (JSONSerializer demo_time demo_literal) smoke_heap (Some 1%positive)))
      = true
    ∧ occurs (member_line demo_literal 2 "concurrent") (json_text demo_literal 2 jt) = false
    ∧ occurs (member_line demo_literal 2 "skip") (json_text demo_literal 2 jt) = false
    ∧ occurs (member_line demo_literal 2 "skipDelete") (json_text demo_literal 2 jt) = false
    ∧ occurs (member_line demo_literal 2 "failure") (json_text demo_literal 2 jt) = false.
Proof.
  destruct (json_Marshal demo_time smoke_heap (Some 1%positive)) as [j|e] eqn:Hj;
    [|by vm_compute in Hj].
  destruct (JSON_omits_empty_optional_fields demo_time demo_literal smoke_heap 1%positive
              smoke_record [Some 1%positive] 0%nat 1%positive smoke_test j)
    as (_ & items & jt & Hget & Hit & Hc & _ & Hs & Hsd & Hf & _ & Hblock & Habs & _);
    [by vm_compute | done | done | by vm_compute | done |].
  destruct (Habs demo_literal_literals) as (Tc & _ & Ts & Tsd & Tf).
  exists j, items, jt. repeat split; auto.
Defined.
